(** * Loss strategies of larnd_infill (ME/losses.py): a shallow embedding

    The development follows ME/losses.py.  Integer data (voxel coordinates,
    gap markers, batch indices, row counts) is modelled by [Z] and [nat];
    tensor values and scale factors are modelled by the real numbers [R],
    which idealises the float arithmetic of the tensor library: rounding of
    values is not modelled, and a float division by zero (whose result is
    inf or nan) is reported as the failure [FloatNonFinite].  The cast of
    the selected coordinates to 32-bit floats is modelled with its rounding
    ([float32_of_int]), and a criterion sees the shapes of its two tensors
    ([apply_crit]).  Python exceptions are modelled by the error monad
    [result]. *)

From Stdlib Require Import String.
From Stdlib Require Import List ZArith Lia Bool Reals Lra Sorted Permutation.
From Stdlib Require Import DecimalString.
Import ListNotations.

Set Implicit Arguments.

(** ** Python outcomes *)

Inductive exn : Type :=
| ValueError (msg : string)
| NotImplementedError (msg : string)
| AttributeError
| TypeError
| IndexError
| ZeroDivisionError
| RuntimeError
| FloatNonFinite.
(* [RuntimeError] is what torch raises on two shapes that cannot be
   broadcast.  [FloatNonFinite] is not a Python exception: it marks a tensor
   division by zero, whose inf/nan result has no counterpart in [R]. *)

Inductive result (A : Type) : Type :=
| Ok (a : A)
| Raise (e : exn).
Arguments Ok {A} a.
Arguments Raise {A} e.

Definition bind {A B : Type} (m : result A) (k : A -> result B) : result B :=
  match m with
  | Ok a => k a
  | Raise e => Raise e
  end.

Notation "x <- m ;; k" := (bind m (fun x => k))
  (at level 61, m at next level, right associativity).

(** [[f(x) for x in l]] where [f] may raise: the first failure wins. *)
Fixpoint mapM {A B : Type} (f : A -> result B) (l : list A) : result (list B) :=
  match l with
  | [] => Ok []
  | x :: t => y <- f x ;; ys <- mapM f t ;; Ok (y :: ys)
  end.

(** A [for] loop whose body may raise, threading the loop state. *)
Fixpoint foldM {A S : Type} (body : S -> A -> result S) (st : S) (l : list A)
  : result S :=
  match l with
  | [] => Ok st
  | x :: t => st' <- body st x ;; foldM body st' t
  end.

(** [t[mask]] for a boolean mask over the rows of [t]. *)
Fixpoint mask_select {A : Type} (xs : list A) (mask : list bool) : list A :=
  match xs, mask with
  | x :: xs', b :: mask' =>
      if b then x :: mask_select xs' mask' else mask_select xs' mask'
  | _, _ => []
  end.

(** Exactly one of four propositions holds. *)
Definition exactly_one4 (P1 P2 P3 P4 : Prop) : Prop :=
  (P1 /\ ~ P2 /\ ~ P3 /\ ~ P4) \/ (~ P1 /\ P2 /\ ~ P3 /\ ~ P4)
  \/ (~ P1 /\ ~ P2 /\ P3 /\ ~ P4) \/ (~ P1 /\ ~ P2 /\ ~ P3 /\ P4).

(** ** Integer helpers of the Python side *)

Open Scope Z_scope.

(** [range(a, b)] *)
Definition py_range (a b : Z) : list Z :=
  map (fun i => a + Z.of_nat i) (seq 0 (Z.to_nat (b - a))).

(** [sorted(set(nums))], also the values of [torch.unique(t).tolist()] for an
    integer-valued tensor: the distinct values in ascending order. *)
Fixpoint insert_uniq (x : Z) (l : list Z) : list Z :=
  match l with
  | [] => [x]
  | y :: t =>
      if x <? y then x :: l
      else if x =? y then l
      else y :: insert_uniq x t
  end.

Definition sorted_set (nums : list Z) : list Z :=
  fold_right insert_uniq [] nums.

(** [zip(it, it)] over ONE iterator [it]: consecutive elements are paired and
    an odd last element is dropped. *)
Fixpoint zip_iter (edges : list Z) : list (Z * Z) :=
  match edges with
  | a :: b :: t => (a, b) :: zip_iter t
  | _ => []
  end.

Module GapWiseRanges.

(** [[[s, e] for s, e in zip(nums, nums[1:]) if s+1 < e]] *)
Definition discontinuities (nums : list Z) : list (list Z) :=
  map (fun p => [fst p; snd p])
      (filter (fun p => fst p + 1 <? snd p) (combine nums (tl nums))).

(** [nums[:1] + sum(discontinuities, []) + nums[-1:]] *)
Definition edges (nums : list Z) : list Z :=
  firstn 1 nums ++ concat (discontinuities nums)
    ++ skipn (length nums - 1) nums.

(** GapWise._get_edge_ranges *)
Definition _get_edge_ranges (nums : list Z) : list (Z * Z) :=
  let nums := sorted_set nums in
  zip_iter (edges nums).

(** The grouping as the specification words it: walk the ascending distinct
    markers, and close the current run between consecutive markers [a], [b]
    exactly when [b > a + 1]. *)
Fixpoint runs_from (s e : Z) (l : list Z) : list (Z * Z) :=
  match l with
  | [] => [(s, e)]
  | x :: t => if e + 1 <? x then (s, e) :: runs_from x x t else runs_from s x t
  end.

Definition maximal_runs (l : list Z) : list (Z * Z) :=
  match l with
  | [] => []
  | x :: t => runs_from x x t
  end.

(** What it means for [rs] to be the maximal contiguous runs of the marker
    collection [nums], stated on the ranges alone: every range is an
    inclusive, non-empty interval; consecutive ranges are in ascending order
    and leave at least one integer free between them; and an integer is a
    marker exactly when some range holds it. *)
Definition apart (p q : Z * Z) : Prop := snd p + 1 < fst q.

Definition holds (v : Z) (rs : list (Z * Z)) : Prop :=
  exists r, In r rs /\ fst r <= v <= snd r.

Definition is_maximal_runs (nums : list Z) (rs : list (Z * Z)) : Prop :=
  Forall (fun r => fst r <= snd r) rs
  /\ Sorted apart rs
  /\ (forall v, In v nums <-> holds v rs).

End GapWiseRanges.

Close Scope Z_scope.

(** ** Tensor values *)

Open Scope R_scope.

Definition Reqb (x y : R) : bool := if Req_dec_T x y then true else false.

(** Truth value of a Python float: [if w:] holds when [w] is not zero. *)
Definition truthy (w : R) : bool := negb (Reqb w 0).

(** Python's [sum(l)]: starts from 0 and adds from the left. *)
Definition py_sum (l : list R) : R := fold_left Rplus l 0.

(** [sum(ls) / n] for a Python list [ls] of scalar tensors and a Python int
    [n].  Over the empty list [sum] is the int 0, and [0 / 0] raises; a
    tensor divided by the int 0 is inf or nan. *)
Definition py_sum_div (ls : list R) (n : nat) : result R :=
  match n with
  | O => match ls with
         | [] => Raise ZeroDivisionError
         | _ :: _ => Raise FloatNonFinite
         end
  | S _ => Ok (py_sum ls / INR n)
  end.

(** [t / n] for a scalar tensor [t] and a Python int [n]. *)
Definition tensor_div_int (t : R) (n : nat) : result R :=
  match n with
  | O => Raise FloatNonFinite
  | S _ => Ok (t / INR n)
  end.

(** [t / d] for a scalar tensor [t] and a Python float [d]. *)
Definition tensor_div (t d : R) : result R :=
  if Reqb d 0 then Raise FloatNonFinite else Ok (t / d).

(** [torch.clamp(x, min=lo, max=hi)], elementwise [min(max(x, lo), hi)]. *)
Definition clamp (lo hi : R) (xs : list R) : list R :=
  map (fun x => Rmin (Rmax x lo) hi) xs.

(** The shape of a dense tensor that reaches a criterion: a 0-dim tensor (a
    sum), or a two-dimensional tensor after [.squeeze()], which has no, one
    or two dimensions left. *)
Inductive shape : Type :=
| Dim0
| Dim1 (m : nat)
| Dim2 (n c : nat).

Definition shape_eqb (a b : shape) : bool :=
  match a, b with
  | Dim0, Dim0 => true
  | Dim1 m, Dim1 m' => Nat.eqb m m'
  | Dim2 n c, Dim2 n' c' => Nat.eqb n n' && Nat.eqb c c'
  | _, _ => false
  end.

(** A dense tensor: its shape and its entries in row order. *)
Record tensor : Type := Tensor { t_shape : shape; t_entries : list R }.

(** The 0-dim tensor of one value, as [.sum()] returns it. *)
Definition scalar (x : R) : tensor := Tensor Dim0 [x].

(** The shape of [t.squeeze()] for an n x c tensor [t]: the dimensions of
    size 1 are dropped. *)
Definition squeezed_shape (n c : nat) : shape :=
  match Nat.eqb n 1, Nat.eqb c 1 with
  | true, true => Dim0
  | true, false => Dim1 c
  | false, true => Dim1 n
  | false, false => Dim2 n c
  end.

(** [str] of a [torch.Size]. *)
Definition nat_text (n : nat) : string :=
  NilZero.string_of_uint (Nat.to_uint n).

Definition size_text (s : shape) : string :=
  match s with
  | Dim0 => "torch.Size([])"
  | Dim1 m => "torch.Size([" ++ nat_text m ++ "])"
  | Dim2 n c => "torch.Size([" ++ nat_text n ++ ", " ++ nat_text c ++ "])"
  end.

(** Broadcasting, as torch does it: the shapes are aligned at the last
    dimension, a missing dimension counts as 1, and two sizes go together
    when they are equal or one of them is 1. *)
Definition dims (s : shape) : nat * nat :=
  match s with
  | Dim0 => (1, 1)
  | Dim1 m => (1, m)
  | Dim2 n c => (n, c)
  end%nat.

Definition broadcast_dim (a b : nat) : option nat :=
  if Nat.eqb a b then Some a
  else if Nat.eqb a 1 then Some b
  else if Nat.eqb b 1 then Some a
  else None.

(** The entries of a tensor expanded to [n] rows and [c] columns: along a
    dimension of size 1 the one entry is repeated. *)
Definition expand (t : tensor) (n c : nat) : list R :=
  let '(r, k) := dims (t_shape t) in
  flat_map
    (fun i =>
       map (fun j =>
              nth ((if Nat.eqb r 1 then 0 else i) * k
                   + (if Nat.eqb k 1 then 0 else j))%nat
                  (t_entries t) 0)
           (seq 0 c))
    (seq 0 n).

(** ** Sparse tensors *)

Record coord : Type := Coord { c_batch : Z; c_x : Z; c_y : Z; c_z : Z }.

Definition coord_eqb (a b : coord) : bool :=
  (c_batch a =? c_batch b)%Z && (c_x a =? c_x b)%Z
  && (c_y a =? c_y b)%Z && (c_z a =? c_z b)%Z.

(** [coords[:, idx]] on one row; a row has the four columns 0..3. *)
Definition col (idx : nat) (c : coord) : Z :=
  match idx with
  | 0%nat => c_batch c
  | 1%nat => c_x c
  | 2%nat => c_y c
  | _ => c_z c
  end.

(** [.type(torch.float)] on an integer: the nearest number with a
    significand of 24 bits, a tie going to the even significand.  Up to
    2^24 in magnitude every integer is kept; beyond, the low bits are
    rounded away.  (Coordinates are 32-bit integers, far inside the range of
    a 32-bit float.) *)
Definition float32_of_int (z : Z) : Z :=
  let a := Z.abs z in
  let e := (Z.log2 a - 23)%Z in
  if (e <=? 0)%Z then z
  else
    let q := (a / 2 ^ e)%Z in
    let r := (a mod 2 ^ e)%Z in
    let h := (2 ^ (e - 1))%Z in
    let q' := if (h <? r)%Z || ((r =? h)%Z && Z.odd q) then (q + 1)%Z else q in
    (Z.sgn z * (q' * 2 ^ e))%Z.

(** One row of [coords.type(torch.float)]; the float columns hold integers
    and stay in [Z]. *)
Definition type_float (c : coord) : coord :=
  Coord (float32_of_int (c_batch c)) (float32_of_int (c_x c))
        (float32_of_int (c_y c)) (float32_of_int (c_z c)).

(** The coordinates the cast leaves as they are. *)
Definition float_exact (c : coord) : Prop := type_float c = c.

(** A sparse tensor: one row per voxel, its coordinate and its feature
    vector, so that [C] and [F] correspond row by row. *)
Record SparseTensor : Type := {
  rows : list (coord * list R);
  nchannels : nat
}.

Definition C (s : SparseTensor) : list coord := map fst (rows s).
Definition F (s : SparseTensor) : list (list R) := map snd (rows s).

(** The collaborator's lookup: one feature vector per queried coordinate, the
    zero vector where the coordinate is absent. *)
Definition features_at (s : SparseTensor) (c : coord) : list R :=
  match find (fun r => coord_eqb (fst r) c) (rows s) with
  | Some r => snd r
  | None => repeat 0 (nchannels s)
  end.

Definition features_at_coordinates (s : SparseTensor) (cs : list coord)
  : list (list R) :=
  map (features_at s) cs.

(** The shape invariant of a sparse tensor: every row has [nchannels]
    features, and there is at least one channel. *)
Definition well_formed (s : SparseTensor) : Prop :=
  (0 < nchannels s)%nat
  /\ Forall (fun r => List.length (snd r) = nchannels s) (rows s).

(** [.squeeze()] followed by an elementwise, fully reduced operation sees the
    entries of the tensor in row order. *)
Definition squeeze (fs : list (list R)) : list R := List.concat fs.

(** [s.features_at_coordinates(coords).squeeze()] as a tensor: the lookup
    returns one row per queried coordinate and one column per feature
    channel of [s]. *)
Definition squeezed_features (s : SparseTensor) (coords : list coord) : tensor :=
  Tensor (squeezed_shape (List.length coords) (nchannels s))
         (squeeze (features_at_coordinates s coords)).

(** [t[t[:, 0] == i_batch]] *)
Definition batch_rows (i_batch : Z) (cs : list coord) : list coord :=
  mask_select cs (map (fun c => (col 0 c =? i_batch)%Z) cs).

(** ** Criteria (torch.nn losses) *)

Inductive metric : Type := L1 | MSE | BCEWithLogits.
Inductive reduction : Type := Mean | Sum.

Record criterion : Type := Crit { crit_metric : metric; crit_reduction : reduction }.

(** [nn.L1Loss()], [nn.L1Loss(reduction="sum")] and so on. *)
Definition L1Loss (r : reduction) : criterion := Crit L1 r.
Definition MSELoss (r : reduction) : criterion := Crit MSE r.
Definition BCEWithLogitsLoss (r : reduction) : criterion := Crit BCEWithLogits r.

Definition pointwise (m : metric) (x t : R) : R :=
  match m with
  | L1 => Rabs (x - t)
  | MSE => (x - t) * (x - t)
  | BCEWithLogits => (1 - t) * x + ln (1 + exp (- x))
  end.

(** The metric entry by entry over two tensors of one shape, given by their
    entries, and the reduction.  The mean over zero entries is nan. *)
Definition reduce_crit (c : criterion) (pred target : list R) : result R :=
  let terms := map (fun p => pointwise (crit_metric c) (fst p) (snd p))
                   (combine pred target) in
  match crit_reduction c with
  | Sum => Ok (py_sum terms)
  | Mean => tensor_div_int (py_sum terms) (List.length terms)
  end.

(** ["Target size ({}) must be the same as input size ({})"] *)
Definition size_msg (pred target : shape) : string :=
  ("Target size (" ++ size_text target ++ ") must be the same as input size ("
     ++ size_text pred ++ ")")%string.

(** Applying a criterion to a prediction and a target.  On two tensors of
    one shape the entries are paired in order.  On two shapes that differ,
    binary cross-entropy with logits raises its ValueError; the L1 and the
    squared-error loss broadcast the two tensors against each other (with a
    warning) and raise RuntimeError when the shapes do not go together. *)
Definition apply_crit (c : criterion) (pred target : tensor) : result R :=
  if shape_eqb (t_shape pred) (t_shape target) then
    reduce_crit c (t_entries pred) (t_entries target)
  else
    match crit_metric c with
    | BCEWithLogits =>
        Raise (ValueError (size_msg (t_shape pred) (t_shape target)))
    | _ =>
        match broadcast_dim (fst (dims (t_shape pred)))
                            (fst (dims (t_shape target))),
              broadcast_dim (snd (dims (t_shape pred)))
                            (snd (dims (t_shape target))) with
        | Some n, Some k =>
            reduce_crit c (expand pred n k) (expand target n k)
        | _, _ => Raise RuntimeError
        end
    end.

(** ** Configuration *)

(** The configuration namedtuple.  A weight field may be absent ([None]
    here), and [adc_threshold] may be absent, present with the Python value
    [None], or a number. *)
Record config : Type := {
  loss_func : string;
  adc_threshold : option (option R);
  loss_infill_zero_weight : option R;
  loss_infill_nonzero_weight : option R;
  loss_active_zero_weight : option R;
  loss_active_nonzero_weight : option R;
  loss_infill_weight : option R;
  loss_active_weight : option R;
  loss_infill_sum_weight : option R;
  loss_x_gaps_adc_weight : option R;
  loss_x_gaps_npixel_weight : option R;
  loss_z_gaps_adc_weight : option R;
  loss_z_gaps_npixel_weight : option R;
  loss_x_planes_adc_weight : option R;
  loss_x_planes_npixel_weight : option R;
  loss_z_planes_adc_weight : option R;
  loss_z_planes_npixel_weight : option R;
  loss_infill_chamfer_weight : option R
}.

(** [conf.adc_threshold]; the strategies below have a field of that name. *)
Definition conf_adc_threshold (conf : config) : option (option R) :=
  adc_threshold conf.

(** [getattr(conf, field, default)] *)
Definition getattr (field : option R) (default : R) : R :=
  match field with
  | Some w => w
  | None => default
  end.

(** The batch dictionary: the gap markers of every sample along x and z. *)
Record batch_data : Type := {
  mask_x : list (list Z);
  mask_z : list (list Z)
}.

(** [l[i]] *)
Definition py_index {A : Type} (l : list A) (i : nat) : result A :=
  match nth_error l i with
  | Some a => Ok a
  | None => Raise IndexError
  end.

(** [set(l)]: the distinct elements.  A Python set iterates in an order of
    its own, some arrangement of these elements.  Gap mode only tests
    membership in the set; plane mode averages over its markers, which no
    arrangement changes.  So one order is fixed here. *)
Definition py_set (l : list Z) : list Z := nodup Z.eq_dec l.

(** The breakdown dictionary, in insertion order: [d[name] = v]. *)
Fixpoint dict_set (d : list (string * R)) (name : string) (v : R)
  : list (string * R) :=
  match d with
  | [] => [(name, v)]
  | (k, w) :: t =>
      if String.eqb k name then (k, v) :: t else (k, w) :: dict_set t name v
  end.

Fixpoint dict_get (d : list (string * R)) (name : string) : option R :=
  match d with
  | [] => None
  | (k, w) :: t => if String.eqb k name then Some w else dict_get t name
  end.

Definition keys (d : list (string * R)) : list string := map fst d.

(** The running total and breakdown at the end of [calc_loss]:
    [if lam: loss = sum(ls) / batch_size; loss_tot += lam * loss;
     losses[name] = loss]. *)
Definition add_term (lam : R) (name : string) (ls : list R) (batch_size : nat)
  (st : R * list (string * R)) : result (R * list (string * R)) :=
  if truthy lam then
    loss <- py_sum_div ls batch_size ;;
    Ok (fst st + lam * loss, dict_set (snd st) name loss)
  else Ok st.

(** [if lam: ls.append(v)] inside the batch loop. *)
Definition append_when (lam : R) (ls : list R) (v : result R)
  : result (list R) :=
  if truthy lam then x <- v ;; Ok (ls ++ [x]) else Ok ls.

(** What the batch loop leaves in a list that started as [l0]: with a
    non-zero scale factor, the losses [f i] of the samples in order; else
    nothing. *)
Definition filled (lam : R) (f : Z -> result R) (batches : list Z)
  (l0 l : list R) : Prop :=
  if truthy lam then exists vs, mapM f batches = Ok vs /\ l = l0 ++ vs
  else l = l0.

(** What a loop over [n] groups leaves in a list of losses that started as
    [l0]: one loss per group, unless the term is skipped. *)
Definition grown (skip : bool) (n : nat) (l0 l : list R) : Prop :=
  List.length l = (List.length l0 + (if skip then 0 else n))%nat.

(** The last block of [calc_loss] as a loop over its sub-terms, each given by
    name, scale factor and list of per-sample losses. *)
Definition add_terms (batch_size : nat) (ts : list (string * R * list R))
  (st : R * list (string * R)) : result (R * list (string * R)) :=
  foldM (fun st tm => add_term (snd (fst tm)) (fst (fst tm)) (snd tm)
                        batch_size st) st ts.

(** The sub-terms with a non-zero scale factor. *)
Definition enabled (ts : list (string * R * list R))
  : list (string * R * list R) :=
  filter (fun tm => truthy (snd (fst tm))) ts.

(** The message of the errors on the loss-function name:
    ["loss_func={} not valid".format(name)]. *)
Definition not_valid_msg (name : string) : string :=
  ("loss_func=" ++ name ++ " not valid")%string.

Close Scope R_scope.

(** ** PixelWise *)

Module PixelWise.

Open Scope R_scope.

Record t : Type := {
  crit : criterion;
  crit_sumreduction : criterion;
  lambda_loss_infill_zero : R;
  lambda_loss_infill_nonzero : R;
  lambda_loss_active_zero : R;
  lambda_loss_active_nonzero : R;
  lambda_loss_infill : R;
  lambda_loss_active : R;
  lambda_loss_infill_sum : R
}.

(** PixelWise.__init__.  A non-empty [override_opts] first builds the
    configuration with the overridden fields; the constructor then proceeds
    on it as on any configuration, so [conf] stands for the configuration
    after the overrides. *)
Definition __init__ (conf : config) : result t :=
  crits <-
    (if String.eqb (loss_func conf) "PixelWise_L1Loss" then
       Ok (L1Loss Mean, L1Loss Sum)
     else if String.eqb (loss_func conf) "PixelWise_MSELoss" then
       Ok (MSELoss Mean, MSELoss Sum)
     else if String.eqb (loss_func conf) "PixelWise_BCEWithLogitsLoss" then
       Ok (BCEWithLogitsLoss Mean, BCEWithLogitsLoss Sum)
     else Raise (NotImplementedError (not_valid_msg (loss_func conf)))) ;;
  Ok {| crit := fst crits;
        crit_sumreduction := snd crits;
        lambda_loss_infill_zero := getattr (loss_infill_zero_weight conf) 0;
        lambda_loss_infill_nonzero := getattr (loss_infill_nonzero_weight conf) 0;
        lambda_loss_active_zero := getattr (loss_active_zero_weight conf) 0;
        lambda_loss_active_nonzero := getattr (loss_active_nonzero_weight conf) 0;
        lambda_loss_infill := getattr (loss_infill_weight conf) 0;
        lambda_loss_active := getattr (loss_active_weight conf) 0;
        lambda_loss_infill_sum := getattr (loss_infill_sum_weight conf) 0 |}.

Definition get_names_scalefactors (self : t) : list (string * R) :=
  [ ("infill_zero"%string, lambda_loss_infill_zero self);
    ("infill_nonzero"%string, lambda_loss_infill_nonzero self);
    ("active_zero"%string, lambda_loss_active_zero self);
    ("active_nonzero"%string, lambda_loss_active_nonzero self);
    ("infill"%string, lambda_loss_infill self);
    ("active"%string, lambda_loss_active self);
    ("infill_sum"%string, lambda_loss_infill_sum self) ].

(** The six coordinate selections, in the order the source returns them. *)
Record selection : Type := {
  infill_coords : list coord;
  active_coords : list coord;
  infill_coords_zero : list coord;
  infill_coords_nonzero : list coord;
  active_coords_zero : list coord;
  active_coords_nonzero : list coord
}.

Definition _get_infill_active_coords (s_in s_target : SparseTensor) : selection :=
  let s_in_infill_mask := map (fun f => Reqb (last f 0) 1) (F s_in) in
  let infill_coords := map type_float (mask_select (C s_in) s_in_infill_mask) in
  let active_coords :=
    map type_float (mask_select (C s_in) (map negb s_in_infill_mask)) in
  let infill_coords_zero_mask :=
    map (fun f => Reqb (hd 0 f) 0) (features_at_coordinates s_target infill_coords) in
  let infill_coords_zero := mask_select infill_coords infill_coords_zero_mask in
  let infill_coords_nonzero :=
    mask_select infill_coords (map negb infill_coords_zero_mask) in
  let active_coords_zero_mask :=
    map (fun f => Reqb (hd 0 f) 0) (features_at_coordinates s_target active_coords) in
  let active_coords_zero := mask_select active_coords active_coords_zero_mask in
  let active_coords_nonzero :=
    mask_select active_coords (map negb active_coords_zero_mask) in
  {| infill_coords := infill_coords;
     active_coords := active_coords;
     infill_coords_zero := infill_coords_zero;
     infill_coords_nonzero := infill_coords_nonzero;
     active_coords_zero := active_coords_zero;
     active_coords_nonzero := active_coords_nonzero |}.

Definition _get_loss_at_coords (self : t) (s_pred s_target : SparseTensor)
  (coords : list coord) : result R :=
  match List.length coords with
  | S _ =>
      apply_crit (crit self)
        (squeezed_features s_pred coords) (squeezed_features s_target coords)
  | O =>
      apply_crit (crit_sumreduction self)
        (squeezed_features s_pred coords) (squeezed_features s_target coords)
  end.

Definition _get_summed_loss_at_coords (self : t) (s_pred s_target : SparseTensor)
  (coords : list coord) : result R :=
  match List.length coords with
  | S _ =>
      apply_crit (crit self)
        (scalar (py_sum (squeeze (features_at_coordinates s_pred coords))
                   / INR (List.length coords)))
        (scalar (py_sum (squeeze (features_at_coordinates s_target coords))
                   / INR (List.length coords)))
  | O =>
      apply_crit (crit_sumreduction self)
        (scalar (py_sum (squeeze (features_at_coordinates s_pred coords))))
        (scalar (py_sum (squeeze (features_at_coordinates s_target coords))))
  end.

(** The seven lists filled by the batch loop of [calc_loss]. *)
Record loss_lists : Type := {
  losses_infill_zero : list R;
  losses_infill_nonzero : list R;
  losses_infill : list R;
  losses_infill_sum : list R;
  losses_active_zero : list R;
  losses_active_nonzero : list R;
  losses_active : list R
}.

Definition no_losses : loss_lists :=
  {| losses_infill_zero := []; losses_infill_nonzero := [];
     losses_infill := []; losses_infill_sum := [];
     losses_active_zero := []; losses_active_nonzero := [];
     losses_active := [] |}.

(** One turn of [for i_batch in range(batch_size)]. *)
Definition loop_body (self : t) (s_pred s_target : SparseTensor) (sel : selection)
  (st : loss_lists) (i_batch : Z) : result loss_lists :=
  l_iz <- append_when (lambda_loss_infill_zero self) (losses_infill_zero st)
            (_get_loss_at_coords self s_pred s_target
               (batch_rows i_batch (infill_coords_zero sel))) ;;
  l_inz <- append_when (lambda_loss_infill_nonzero self) (losses_infill_nonzero st)
             (_get_loss_at_coords self s_pred s_target
                (batch_rows i_batch (infill_coords_nonzero sel))) ;;
  l_i <- append_when (lambda_loss_infill self) (losses_infill st)
           (_get_loss_at_coords self s_pred s_target
              (batch_rows i_batch (infill_coords sel))) ;;
  l_is <- append_when (lambda_loss_infill_sum self) (losses_infill_sum st)
            (_get_summed_loss_at_coords self s_pred s_target
               (batch_rows i_batch (infill_coords sel))) ;;
  l_az <- append_when (lambda_loss_active_zero self) (losses_active_zero st)
            (_get_loss_at_coords self s_pred s_target
               (batch_rows i_batch (active_coords_zero sel))) ;;
  l_anz <- append_when (lambda_loss_active_nonzero self) (losses_active_nonzero st)
             (_get_loss_at_coords self s_pred s_target
                (batch_rows i_batch (active_coords_nonzero sel))) ;;
  l_a <- append_when (lambda_loss_active self) (losses_active st)
           (_get_loss_at_coords self s_pred s_target
              (batch_rows i_batch (active_coords sel))) ;;
  Ok {| losses_infill_zero := l_iz; losses_infill_nonzero := l_inz;
        losses_infill := l_i; losses_infill_sum := l_is;
        losses_active_zero := l_az; losses_active_nonzero := l_anz;
        losses_active := l_a |}.

Definition calc_loss (self : t) (s_pred s_in s_target : SparseTensor)
  (data : batch_data) : result (R * list (string * R)) :=
  let batch_size := List.length (mask_x data) in
  let sel := _get_infill_active_coords s_in s_target in
  ls <- foldM (loop_body self s_pred s_target sel) no_losses
          (map Z.of_nat (seq 0 batch_size)) ;;
  st <- add_term (lambda_loss_infill_zero self) "infill_zero"
          (losses_infill_zero ls) batch_size (0, []) ;;
  st <- add_term (lambda_loss_infill_nonzero self) "infill_nonzero"
          (losses_infill_nonzero ls) batch_size st ;;
  st <- add_term (lambda_loss_infill self) "infill"
          (losses_infill ls) batch_size st ;;
  st <- add_term (lambda_loss_infill_sum self) "infill_sum"
          (losses_infill_sum ls) batch_size st ;;
  st <- add_term (lambda_loss_active_zero self) "active_zero"
          (losses_active_zero ls) batch_size st ;;
  st <- add_term (lambda_loss_active_nonzero self) "active_nonzero"
          (losses_active_nonzero ls) batch_size st ;;
  st <- add_term (lambda_loss_active self) "active"
          (losses_active ls) batch_size st ;;
  Ok st.

(** The per-sample loss of a named sub-term, as the specification words it:
    the elementwise loss (the aggregate loss for "infill_sum") over the
    sub-term's coordinate subset, restricted to the sample's batch index. *)
Definition subset_of (sel : selection) (name : string) : list coord :=
  if String.eqb name "infill_zero" then infill_coords_zero sel
  else if String.eqb name "infill_nonzero" then infill_coords_nonzero sel
  else if String.eqb name "active_zero" then active_coords_zero sel
  else if String.eqb name "active_nonzero" then active_coords_nonzero sel
  else if String.eqb name "active" then active_coords sel
  else infill_coords sel.

Definition sample_loss (self : t) (s_pred s_target : SparseTensor)
  (sel : selection) (name : string) (i_batch : Z) : result R :=
  if String.eqb name "infill_sum" then
    _get_summed_loss_at_coords self s_pred s_target
      (batch_rows i_batch (subset_of sel name))
  else
    _get_loss_at_coords self s_pred s_target
      (batch_rows i_batch (subset_of sel name)).

(** The scale factor of a name, and the weighted sum of a breakdown. *)
Definition scale_of (scale : list (string * R)) (name : string) : R :=
  match dict_get scale name with
  | Some lam => lam
  | None => 0
  end.

Definition weighted_total (scale breakdown : list (string * R)) : R :=
  fold_left (fun acc kv => acc + scale_of scale (fst kv) * snd kv) breakdown 0.

(** The sub-terms in the order [calc_loss] adds them: name, scale factor and
    list of per-sample losses. *)
Definition terms (self : t) (ls : loss_lists) : list (string * R * list R) :=
  [ ("infill_zero"%string, lambda_loss_infill_zero self, losses_infill_zero ls);
    ("infill_nonzero"%string, lambda_loss_infill_nonzero self,
      losses_infill_nonzero ls);
    ("infill"%string, lambda_loss_infill self, losses_infill ls);
    ("infill_sum"%string, lambda_loss_infill_sum self, losses_infill_sum ls);
    ("active_zero"%string, lambda_loss_active_zero self, losses_active_zero ls);
    ("active_nonzero"%string, lambda_loss_active_nonzero self,
      losses_active_nonzero ls);
    ("active"%string, lambda_loss_active self, losses_active ls) ].

End PixelWise.

(** ** GapWise *)

Module GapWise.

Import GapWiseRanges.
Open Scope R_scope.

(** The criteria set by one branch of the chain on [conf.loss_func]. *)
Record criteria : Type := {
  crit_adc : criterion;
  crit_adc_sumreduction : criterion;
  crit_npixel : criterion;
  crit_adc_pixelwise : criterion;
  crit_adc_pixelwise_sumreduction : criterion
}.

(** [crits] is [None] when no branch of the chain assigned the criterion
    attributes: reading one of them then raises AttributeError. *)
Record t : Type := {
  crits : option criteria;
  adc_threshold : option R;
  lambda_loss_infill_zero : R;
  lambda_loss_infill_nonzero : R;
  lambda_loss_infill : R;
  lambda_loss_x_gaps_adc : R;
  lambda_loss_x_gaps_npixel : R;
  lambda_loss_z_gaps_adc : R;
  lambda_loss_z_gaps_npixel : R
}.

Definition attr (self : t) (field : criteria -> criterion) : result criterion :=
  match crits self with
  | Some cs => Ok (field cs)
  | None => Raise AttributeError
  end.

(** [thr is None], [thr == 0] *)
Definition is_None (thr : option R) : bool :=
  match thr with None => true | Some _ => false end.
Definition eq_zero (thr : option R) : bool :=
  match thr with None => false | Some v => Reqb v 0 end.

(** GapWise.__init__, [conf] being the configuration after the overrides.
    The test before the raise is [A or B and (C or D)], which Python reads
    as [A or (B and (C or D))]. *)
Definition __init__ (conf : config) : result t :=
  let crits :=
    if String.eqb (loss_func conf) "GapWise_L1Loss" then
      Some {| crit_adc := L1Loss Mean;
              crit_adc_sumreduction := L1Loss Sum;
              crit_npixel := L1Loss Mean;
              crit_adc_pixelwise := L1Loss Mean;
              crit_adc_pixelwise_sumreduction := L1Loss Sum |}
    else if String.eqb (loss_func conf) "GapWise_MSELoss" then
      Some {| crit_adc := MSELoss Mean;
              crit_adc_sumreduction := MSELoss Sum;
              crit_npixel := MSELoss Mean;
              crit_adc_pixelwise := MSELoss Mean;
              crit_adc_pixelwise_sumreduction := MSELoss Sum |}
    else if String.eqb (loss_func conf) "GapWise_L1Loss_MSELossPixelWise" then
      Some {| crit_adc := L1Loss Mean;
              crit_adc_sumreduction := L1Loss Sum;
              crit_npixel := L1Loss Mean;
              crit_adc_pixelwise := MSELoss Mean;
              crit_adc_pixelwise_sumreduction := MSELoss Sum |}
    else None in
  thr <- match conf_adc_threshold conf with
         | Some v => Ok v
         | None => Raise AttributeError
         end ;;
  let self :=
    {| crits := crits;
       adc_threshold := thr;
       lambda_loss_infill_zero := getattr (loss_infill_zero_weight conf) 0;
       lambda_loss_infill_nonzero := getattr (loss_infill_nonzero_weight conf) 0;
       lambda_loss_infill := getattr (loss_infill_weight conf) 0;
       lambda_loss_x_gaps_adc := getattr (loss_x_gaps_adc_weight conf) 0;
       lambda_loss_x_gaps_npixel := getattr (loss_x_gaps_npixel_weight conf) 0;
       lambda_loss_z_gaps_adc := getattr (loss_z_gaps_adc_weight conf) 0;
       lambda_loss_z_gaps_npixel := getattr (loss_z_gaps_npixel_weight conf) 0 |} in
  if is_None (adc_threshold self)
     || (eq_zero (adc_threshold self)
         && (truthy (lambda_loss_x_gaps_npixel self)
             || truthy (lambda_loss_z_gaps_npixel self)))
  then Raise (ValueError
    "Need to have an adc threshold set and >0 for the final pruning layerin order to use npixel losses")
  else Ok self.

Definition get_names_scalefactors (self : t) : list (string * R) :=
  [ ("infill_zero"%string, lambda_loss_infill_zero self);
    ("infill_nonzero"%string, lambda_loss_infill_nonzero self);
    ("infill"%string, lambda_loss_infill self);
    ("x_gaps_adc"%string, lambda_loss_x_gaps_adc self);
    ("x_gaps_npixel"%string, lambda_loss_x_gaps_npixel self);
    ("z_gaps_adc"%string, lambda_loss_z_gaps_adc self);
    ("z_gaps_npixel"%string, lambda_loss_z_gaps_npixel self) ].

Definition _get_infill_coords (s_in s_target : SparseTensor)
  : list coord * list coord * list coord :=
  let s_in_infill_mask := map (fun f => Reqb (last f 0) 1) (F s_in) in
  let infill_coords := map type_float (mask_select (C s_in) s_in_infill_mask) in
  let infill_coords_zero_mask :=
    map (fun f => Reqb (hd 0 f) 0) (features_at_coordinates s_target infill_coords) in
  let infill_coords_zero := mask_select infill_coords infill_coords_zero_mask in
  let infill_coords_nonzero :=
    mask_select infill_coords (map negb infill_coords_zero_mask) in
  (infill_coords, infill_coords_zero, infill_coords_nonzero).

Definition _get_loss_at_coords (self : t) (s_pred s_target : SparseTensor)
  (coords : list coord) : result R :=
  match List.length coords with
  | S _ =>
      c <- attr self crit_adc_pixelwise ;;
      apply_crit c
        (squeezed_features s_pred coords) (squeezed_features s_target coords)
  | O =>
      c <- attr self crit_adc_pixelwise_sumreduction ;;
      apply_crit c
        (squeezed_features s_pred coords) (squeezed_features s_target coords)
  end.

(** The markers the grouping works on:
    [[int(g) for g in torch.unique(infill_coords[:, coord_idx]).tolist()
      if int(g) in gaps]]. *)
Definition active_gap_coords (gaps : list Z) (infill_coords : list coord)
  (coord_idx : nat) : list Z :=
  filter (fun gap_coord => existsb (Z.eqb gap_coord) gaps)
         (sorted_set (map (col coord_idx) infill_coords)).

(** [sum(infill_coords[:, coord_idx] == g for g in range(gap_start, gap_end + 1))],
    row by row: how many [g] of the range the row's axis value equals. *)
Definition gap_mask (infill_coords : list coord) (coord_idx : nat)
  (gap_start gap_end : Z) : list Z :=
  map (fun c =>
         fold_left Z.add
           (map (fun g => if (col coord_idx c =? g)%Z then 1%Z else 0%Z)
                (py_range gap_start (gap_end + 1)))
           0%Z)
      infill_coords.

(** [infill_coords[gap_mask.type(torch.bool)]] *)
Definition gap_coords (infill_coords : list coord) (coord_idx : nat)
  (gap_start gap_end : Z) : list coord :=
  mask_select infill_coords
    (map (fun n => negb (n =? 0)%Z)
         (gap_mask infill_coords coord_idx gap_start gap_end)).

(** The adc term of one range. *)
Definition gap_loss_adc (self : t) (s_pred s_target : SparseTensor)
  (coords : list coord) : result R :=
  c <- attr self crit_adc ;;
  p <- tensor_div_int (py_sum (squeeze (features_at_coordinates s_pred coords)))
         (List.length coords) ;;
  q <- tensor_div_int (py_sum (squeeze (features_at_coordinates s_target coords)))
         (List.length coords) ;;
  apply_crit c (scalar p) (scalar q).

(** [torch.clamp(feats, min=0.0, max=thr).sum() / thr / n]; [thr] is a
    number, or [None], which cannot divide. *)
Definition npixel_count (thr : option R) (feats : list R) (n : nat) : result R :=
  match thr with
  | None => Raise TypeError
  | Some v =>
      a <- tensor_div (py_sum (clamp 0 v feats)) v ;;
      tensor_div_int a n
  end.

(** The npixel term of one range. *)
Definition gap_loss_npixel (self : t) (s_pred s_target : SparseTensor)
  (coords : list coord) : result R :=
  c <- attr self crit_npixel ;;
  p <- npixel_count (adc_threshold self)
         (squeeze (features_at_coordinates s_pred coords)) (List.length coords) ;;
  q <- npixel_count (adc_threshold self)
         (squeeze (features_at_coordinates s_target coords)) (List.length coords) ;;
  apply_crit c (scalar p) (scalar q).

(** One turn of [for gap_start, gap_end in gap_ranges], on the pair
    [(gap_losses_adc, gap_losses_npixel)].  Over an empty range the mask is
    the int 0, which has no [.type]. *)
Definition range_body (self : t) (s_pred s_target : SparseTensor)
  (infill_coords : list coord) (coord_idx : nat) (skip_adc skip_npixel : bool)
  (st : list R * list R) (rng : Z * Z) : result (list R * list R) :=
  let '(gap_start, gap_end) := rng in
  match py_range gap_start (gap_end + 1) with
  | [] => Raise AttributeError
  | _ :: _ =>
      let coords := gap_coords infill_coords coord_idx gap_start gap_end in
      l_adc <- (if skip_adc then Ok (fst st)
                else v <- gap_loss_adc self s_pred s_target coords ;;
                     Ok (fst st ++ [v])) ;;
      l_npixel <- (if skip_npixel then Ok (snd st)
                   else v <- gap_loss_npixel self s_pred s_target coords ;;
                        Ok (snd st ++ [v])) ;;
      Ok (l_adc, l_npixel)
  end.

Definition _get_gap_losses (self : t) (s_pred s_target : SparseTensor)
  (gaps : list Z) (infill_coords : list coord) (coord_idx : nat)
  (skip_adc skip_npixel : bool) : result (R * R) :=
  if skip_adc && skip_npixel then Ok (0, 0)
  else
    let active := active_gap_coords gaps infill_coords coord_idx in
    match active with
    | [] => Ok (0, 0)
    | _ :: _ =>
        let gap_ranges := _get_edge_ranges active in
        ls <- foldM (range_body self s_pred s_target infill_coords coord_idx
                       skip_adc skip_npixel) ([], []) gap_ranges ;;
        gap_loss_adc <- (if skip_adc then Ok 0
                         else py_sum_div (fst ls) (List.length (fst ls))) ;;
        gap_loss_npixel <- (if skip_npixel then Ok 0
                            else py_sum_div (snd ls) (List.length (snd ls))) ;;
        Ok (gap_loss_adc, gap_loss_npixel)
    end.

(** The seven lists filled by the batch loop of [calc_loss]. *)
Record loss_lists : Type := {
  losses_infill_zero : list R;
  losses_infill_nonzero : list R;
  losses_infill : list R;
  losses_x_gap_adc : list R;
  losses_x_gap_npixel : list R;
  losses_z_gap_adc : list R;
  losses_z_gap_npixel : list R
}.

Definition no_losses : loss_lists :=
  {| losses_infill_zero := []; losses_infill_nonzero := [];
     losses_infill := []; losses_x_gap_adc := []; losses_x_gap_npixel := [];
     losses_z_gap_adc := []; losses_z_gap_npixel := [] |}.

(** One turn of [for i_batch in range(batch_size)]. *)
Definition loop_body (self : t) (s_pred s_target : SparseTensor)
  (sel : list coord * list coord * list coord) (data : batch_data)
  (st : loss_lists) (i_batch : nat) : result loss_lists :=
  let '(infill_coords, infill_coords_zero, infill_coords_nonzero) := sel in
  l_iz <- append_when (lambda_loss_infill_zero self) (losses_infill_zero st)
            (_get_loss_at_coords self s_pred s_target
               (batch_rows (Z.of_nat i_batch) infill_coords_zero)) ;;
  l_inz <- append_when (lambda_loss_infill_nonzero self) (losses_infill_nonzero st)
             (_get_loss_at_coords self s_pred s_target
                (batch_rows (Z.of_nat i_batch) infill_coords_nonzero)) ;;
  let batch_infill_coords := batch_rows (Z.of_nat i_batch) infill_coords in
  l_i <- append_when (lambda_loss_infill self) (losses_infill st)
           (_get_loss_at_coords self s_pred s_target batch_infill_coords) ;;
  gaps_x <- py_index (mask_x data) i_batch ;;
  ret_x <- _get_gap_losses self s_pred s_target (py_set gaps_x)
             batch_infill_coords 1
             (negb (truthy (lambda_loss_x_gaps_adc self)))
             (negb (truthy (lambda_loss_x_gaps_npixel self))) ;;
  gaps_z <- py_index (mask_z data) i_batch ;;
  ret_z <- _get_gap_losses self s_pred s_target (py_set gaps_z)
             batch_infill_coords 3
             (negb (truthy (lambda_loss_z_gaps_adc self)))
             (negb (truthy (lambda_loss_z_gaps_npixel self))) ;;
  Ok {| losses_infill_zero := l_iz; losses_infill_nonzero := l_inz;
        losses_infill := l_i;
        losses_x_gap_adc := losses_x_gap_adc st ++ [fst ret_x];
        losses_x_gap_npixel := losses_x_gap_npixel st ++ [snd ret_x];
        losses_z_gap_adc := losses_z_gap_adc st ++ [fst ret_z];
        losses_z_gap_npixel := losses_z_gap_npixel st ++ [snd ret_z] |}.

Definition calc_loss (self : t) (s_pred s_in s_target : SparseTensor)
  (data : batch_data) : result (R * list (string * R)) :=
  let batch_size := List.length (mask_x data) in
  let sel := _get_infill_coords s_in s_target in
  ls <- foldM (loop_body self s_pred s_target sel data) no_losses
          (seq 0 batch_size) ;;
  st <- add_term (lambda_loss_infill_zero self) "infill_zero"
          (losses_infill_zero ls) batch_size (0, []) ;;
  st <- add_term (lambda_loss_infill_nonzero self) "infill_nonzero"
          (losses_infill_nonzero ls) batch_size st ;;
  st <- add_term (lambda_loss_infill self) "infill"
          (losses_infill ls) batch_size st ;;
  st <- add_term (lambda_loss_x_gaps_adc self) "x_gaps_adc"
          (losses_x_gap_adc ls) batch_size st ;;
  st <- add_term (lambda_loss_x_gaps_npixel self) "x_gaps_npixel"
          (losses_x_gap_npixel ls) batch_size st ;;
  st <- add_term (lambda_loss_z_gaps_adc self) "z_gaps_adc"
          (losses_z_gap_adc ls) batch_size st ;;
  st <- add_term (lambda_loss_z_gaps_npixel self) "z_gaps_npixel"
          (losses_z_gap_npixel ls) batch_size st ;;
  Ok st.

End GapWise.

(** ** PlaneWise *)

Module PlaneWise.

Open Scope R_scope.

Record criteria : Type := {
  crit_adc : criterion;
  crit_adc_sumreduction : criterion;
  crit_npixel : criterion
}.

(** [crits] is [None] when [conf.loss_func] is not "PlaneWise_L1Loss": the
    criterion attributes are then never assigned. *)
Record t : Type := {
  crits : option criteria;
  adc_threshold : option R;
  lambda_loss_infill_zero : R;
  lambda_loss_infill_nonzero : R;
  lambda_loss_infill : R;
  lambda_loss_x_planes_adc : R;
  lambda_loss_x_planes_npixel : R;
  lambda_loss_z_planes_adc : R;
  lambda_loss_z_planes_npixel : R
}.

Definition attr (self : t) (field : criteria -> criterion) : result criterion :=
  match crits self with
  | Some cs => Ok (field cs)
  | None => Raise AttributeError
  end.

(** PlaneWise.__init__, [conf] being the configuration after the
    overrides. *)
Definition __init__ (conf : config) : result t :=
  let crits :=
    if String.eqb (loss_func conf) "PlaneWise_L1Loss" then
      Some {| crit_adc := L1Loss Mean;
              crit_adc_sumreduction := L1Loss Sum;
              crit_npixel := L1Loss Mean |}
    else None in
  thr <- match conf_adc_threshold conf with
         | Some v => Ok v
         | None => Raise AttributeError
         end ;;
  let self :=
    {| crits := crits;
       adc_threshold := thr;
       lambda_loss_infill_zero := getattr (loss_infill_zero_weight conf) 0;
       lambda_loss_infill_nonzero := getattr (loss_infill_nonzero_weight conf) 0;
       lambda_loss_infill := getattr (loss_infill_weight conf) 0;
       lambda_loss_x_planes_adc := getattr (loss_x_planes_adc_weight conf) 0;
       lambda_loss_x_planes_npixel := getattr (loss_x_planes_npixel_weight conf) 0;
       lambda_loss_z_planes_adc := getattr (loss_z_planes_adc_weight conf) 0;
       lambda_loss_z_planes_npixel := getattr (loss_z_planes_npixel_weight conf) 0 |} in
  if GapWise.is_None (adc_threshold self)
     && (truthy (lambda_loss_x_planes_npixel self)
         || truthy (lambda_loss_z_planes_npixel self))
  then Raise (ValueError
    "Need to have an adc threshold for the final pruning layerin order to use npixel losses")
  else Ok self.

Definition get_names_scalefactors (self : t) : list (string * R) :=
  [ ("infill_zero"%string, lambda_loss_infill_zero self);
    ("infill_nonzero"%string, lambda_loss_infill_nonzero self);
    ("infill"%string, lambda_loss_infill self);
    ("x_planes_adc"%string, lambda_loss_x_planes_adc self);
    ("x_planes_npixel"%string, lambda_loss_x_planes_npixel self);
    ("z_planes_adc"%string, lambda_loss_z_planes_adc self);
    ("z_planes_npixel"%string, lambda_loss_z_planes_npixel self) ].

(** [infill_coords[infill_coords[:, coord_idx] == gap_coord]] *)
Definition plane_coords (infill_coords : list coord) (coord_idx : nat)
  (gap_coord : Z) : list coord :=
  mask_select infill_coords
    (map (fun c => (col coord_idx c =? gap_coord)%Z) infill_coords).

(** The groups the loop [for gap_coord in gaps] works on: one per marker of
    the set, with the coordinates it selects. *)
Definition plane_groups (gaps : list Z) (infill_coords : list coord)
  (coord_idx : nat) : list (Z * list coord) :=
  map (fun gap_coord => (gap_coord, plane_coords infill_coords coord_idx gap_coord))
      gaps.

Definition plane_loss_adc (self : t) (s_pred s_target : SparseTensor)
  (coords : list coord) : result R :=
  c <- attr self crit_adc ;;
  apply_crit c
    (scalar (py_sum (squeeze (features_at_coordinates s_pred coords))))
    (scalar (py_sum (squeeze (features_at_coordinates s_target coords)))).

(** [torch.clamp(feats, min=0.0, max=thr).sum() / thr] *)
Definition npixel_count (thr : option R) (feats : list R) : result R :=
  match thr with
  | None => Raise TypeError
  | Some v => tensor_div (py_sum (clamp 0 v feats)) v
  end.

Definition plane_loss_npixel (self : t) (s_pred s_target : SparseTensor)
  (coords : list coord) : result R :=
  c <- attr self crit_npixel ;;
  p <- npixel_count (adc_threshold self)
         (squeeze (features_at_coordinates s_pred coords)) ;;
  q <- npixel_count (adc_threshold self)
         (squeeze (features_at_coordinates s_target coords)) ;;
  apply_crit c (scalar p) (scalar q).

(** One turn of [for gap_coord in gaps], on the pair
    [(plane_losses_adc, plane_losses_npixel)]. *)
Definition plane_body (self : t) (s_pred s_target : SparseTensor)
  (skip_adc skip_npixel : bool)
  (st : list R * list R) (group : Z * list coord) : result (list R * list R) :=
  let coords := snd group in
  l_adc <- (if skip_adc then Ok (fst st)
            else v <- plane_loss_adc self s_pred s_target coords ;;
                 Ok (fst st ++ [v])) ;;
  l_npixel <- (if skip_npixel then Ok (snd st)
               else v <- plane_loss_npixel self s_pred s_target coords ;;
                    Ok (snd st ++ [v])) ;;
  Ok (l_adc, l_npixel).

Definition _get_plane_losses (self : t) (s_pred s_target : SparseTensor)
  (gaps : list Z) (infill_coords : list coord) (coord_idx : nat)
  (skip_adc skip_npixel : bool) : result (R * R) :=
  if skip_adc && skip_npixel then Ok (0, 0)
  else
    ls <- foldM (plane_body self s_pred s_target skip_adc skip_npixel) ([], [])
            (plane_groups gaps infill_coords coord_idx) ;;
    plane_loss_adc <- (if skip_adc then Ok 0
                       else py_sum_div (fst ls) (List.length (fst ls))) ;;
    plane_loss_npixel <- (if skip_npixel then Ok 0
                          else py_sum_div (snd ls) (List.length (snd ls))) ;;
    Ok (plane_loss_adc, plane_loss_npixel).

Definition _get_infill_coords (s_in s_target : SparseTensor)
  : list coord * list coord * list coord :=
  let s_in_infill_mask := map (fun f => Reqb (last f 0) 1) (F s_in) in
  let infill_coords := map type_float (mask_select (C s_in) s_in_infill_mask) in
  let infill_coords_zero_mask :=
    map (fun f => Reqb (hd 0 f) 0) (features_at_coordinates s_target infill_coords) in
  let infill_coords_zero := mask_select infill_coords infill_coords_zero_mask in
  let infill_coords_nonzero :=
    mask_select infill_coords (map negb infill_coords_zero_mask) in
  (infill_coords, infill_coords_zero, infill_coords_nonzero).

Definition _get_loss_at_coords (self : t) (s_pred s_target : SparseTensor)
  (coords : list coord) : result R :=
  match List.length coords with
  | S _ =>
      c <- attr self crit_adc ;;
      apply_crit c
        (squeezed_features s_pred coords) (squeezed_features s_target coords)
  | O =>
      c <- attr self crit_adc_sumreduction ;;
      apply_crit c
        (squeezed_features s_pred coords) (squeezed_features s_target coords)
  end.

(** The seven lists filled by the batch loop of [calc_loss]. *)
Record loss_lists : Type := {
  losses_infill_zero : list R;
  losses_infill_nonzero : list R;
  losses_infill : list R;
  losses_x_plane_adc : list R;
  losses_x_plane_npixel : list R;
  losses_z_plane_adc : list R;
  losses_z_plane_npixel : list R
}.

Definition no_losses : loss_lists :=
  {| losses_infill_zero := []; losses_infill_nonzero := [];
     losses_infill := []; losses_x_plane_adc := []; losses_x_plane_npixel := [];
     losses_z_plane_adc := []; losses_z_plane_npixel := [] |}.

(** One turn of [for i_batch in range(batch_size)]. *)
Definition loop_body (self : t) (s_pred s_target : SparseTensor)
  (sel : list coord * list coord * list coord) (data : batch_data)
  (st : loss_lists) (i_batch : nat) : result loss_lists :=
  let '(infill_coords, infill_coords_zero, infill_coords_nonzero) := sel in
  l_iz <- append_when (lambda_loss_infill_zero self) (losses_infill_zero st)
            (_get_loss_at_coords self s_pred s_target
               (batch_rows (Z.of_nat i_batch) infill_coords_zero)) ;;
  l_inz <- append_when (lambda_loss_infill_nonzero self) (losses_infill_nonzero st)
             (_get_loss_at_coords self s_pred s_target
                (batch_rows (Z.of_nat i_batch) infill_coords_nonzero)) ;;
  let batch_infill_coords := batch_rows (Z.of_nat i_batch) infill_coords in
  l_i <- append_when (lambda_loss_infill self) (losses_infill st)
           (_get_loss_at_coords self s_pred s_target batch_infill_coords) ;;
  gaps_x <- py_index (mask_x data) i_batch ;;
  ret_x <- _get_plane_losses self s_pred s_target (py_set gaps_x)
             batch_infill_coords 1
             (negb (truthy (lambda_loss_x_planes_adc self)))
             (negb (truthy (lambda_loss_x_planes_npixel self))) ;;
  gaps_z <- py_index (mask_z data) i_batch ;;
  ret_z <- _get_plane_losses self s_pred s_target (py_set gaps_z)
             batch_infill_coords 3
             (negb (truthy (lambda_loss_z_planes_adc self)))
             (negb (truthy (lambda_loss_z_planes_npixel self))) ;;
  Ok {| losses_infill_zero := l_iz; losses_infill_nonzero := l_inz;
        losses_infill := l_i;
        losses_x_plane_adc := losses_x_plane_adc st ++ [fst ret_x];
        losses_x_plane_npixel := losses_x_plane_npixel st ++ [snd ret_x];
        losses_z_plane_adc := losses_z_plane_adc st ++ [fst ret_z];
        losses_z_plane_npixel := losses_z_plane_npixel st ++ [snd ret_z] |}.

Definition calc_loss (self : t) (s_pred s_in s_target : SparseTensor)
  (data : batch_data) : result (R * list (string * R)) :=
  let batch_size := List.length (mask_x data) in
  let sel := _get_infill_coords s_in s_target in
  ls <- foldM (loop_body self s_pred s_target sel data) no_losses
          (seq 0 batch_size) ;;
  st <- add_term (lambda_loss_infill_zero self) "infill_zero"
          (losses_infill_zero ls) batch_size (0, []) ;;
  st <- add_term (lambda_loss_infill_nonzero self) "infill_nonzero"
          (losses_infill_nonzero ls) batch_size st ;;
  st <- add_term (lambda_loss_infill self) "infill"
          (losses_infill ls) batch_size st ;;
  st <- add_term (lambda_loss_x_planes_adc self) "x_planes_adc"
          (losses_x_plane_adc ls) batch_size st ;;
  st <- add_term (lambda_loss_x_planes_npixel self) "x_planes_npixel"
          (losses_x_plane_npixel ls) batch_size st ;;
  st <- add_term (lambda_loss_z_planes_adc self) "z_planes_adc"
          (losses_z_plane_adc ls) batch_size st ;;
  st <- add_term (lambda_loss_z_planes_npixel self) "z_planes_npixel"
          (losses_z_plane_npixel ls) batch_size st ;;
  Ok st.

End PlaneWise.

(** ** Chamfer *)

Module Chamfer.

Open Scope R_scope.

Record t : Type := { lambda_loss_infill_chamfer : R }.

(** Chamfer.__init__: no test of [conf.loss_func].  The distance object and
    the device it also stores play no part in what follows. *)
Definition __init__ (conf : config) : result t :=
  Ok {| lambda_loss_infill_chamfer := getattr (loss_infill_chamfer_weight conf) 0 |}.

Definition get_names_scalefactors (self : t) : list (string * R) :=
  [ ("infill_chamfer"%string, lambda_loss_infill_chamfer self) ].

End Chamfer.

(** ** The factory *)

Inductive strategy : Type :=
| IsPixelWise (s : PixelWise.t)
| IsGapWise (s : GapWise.t)
| IsPlaneWise (s : PlaneWise.t)
| IsChamfer (s : Chamfer.t).

(** The names the factory dispatches on. *)
Definition factory_names : list string :=
  [ "PixelWise_L1Loss"; "PixelWise_MSELoss"; "PixelWise_BCEWithLogitsLoss";
    "GapWise_L1Loss"; "GapWise_MSELoss"; "GapWise_L1Loss_MSELossPixelWise";
    "PlaneWise_L1Loss"; "Chamfer" ]%string.

Definition pixelwise_names : list string :=
  [ "PixelWise_L1Loss"; "PixelWise_MSELoss"; "PixelWise_BCEWithLogitsLoss" ]%string.

Definition init_loss_func (conf : config) : result strategy :=
  if String.eqb (loss_func conf) "PixelWise_L1Loss"
     || String.eqb (loss_func conf) "PixelWise_MSELoss"
     || String.eqb (loss_func conf) "PixelWise_BCEWithLogitsLoss"
  then loss <- PixelWise.__init__ conf ;; Ok (IsPixelWise loss)
  else if String.eqb (loss_func conf) "GapWise_L1Loss"
          || String.eqb (loss_func conf) "GapWise_MSELoss"
          || String.eqb (loss_func conf) "GapWise_L1Loss_MSELossPixelWise"
  then loss <- GapWise.__init__ conf ;; Ok (IsGapWise loss)
  else if String.eqb (loss_func conf) "PlaneWise_L1Loss"
  then loss <- PlaneWise.__init__ conf ;; Ok (IsPlaneWise loss)
  else if String.eqb (loss_func conf) "Chamfer"
  then loss <- Chamfer.__init__ conf ;;
       Raise (NotImplementedError
         "Don't think Chamfer loss is possible, would need to use point clouds")
  else Raise (ValueError (not_valid_msg (loss_func conf))).

(** ** Sample configurations and batches *)

Module Examples.

Open Scope R_scope.

(** A configuration from the dictionary of its weight fields. *)
Fixpoint weight_of (fields : list (string * R)) (name : string) : option R :=
  match fields with
  | [] => None
  | (k, w) :: t => if String.eqb k name then Some w else weight_of t name
  end.

Definition config_of (name : string) (thr : option (option R))
  (fields : list (string * R)) : config :=
  {| loss_func := name;
     adc_threshold := thr;
     loss_infill_zero_weight := weight_of fields "loss_infill_zero_weight";
     loss_infill_nonzero_weight := weight_of fields "loss_infill_nonzero_weight";
     loss_active_zero_weight := weight_of fields "loss_active_zero_weight";
     loss_active_nonzero_weight := weight_of fields "loss_active_nonzero_weight";
     loss_infill_weight := weight_of fields "loss_infill_weight";
     loss_active_weight := weight_of fields "loss_active_weight";
     loss_infill_sum_weight := weight_of fields "loss_infill_sum_weight";
     loss_x_gaps_adc_weight := weight_of fields "loss_x_gaps_adc_weight";
     loss_x_gaps_npixel_weight := weight_of fields "loss_x_gaps_npixel_weight";
     loss_z_gaps_adc_weight := weight_of fields "loss_z_gaps_adc_weight";
     loss_z_gaps_npixel_weight := weight_of fields "loss_z_gaps_npixel_weight";
     loss_x_planes_adc_weight := weight_of fields "loss_x_planes_adc_weight";
     loss_x_planes_npixel_weight := weight_of fields "loss_x_planes_npixel_weight";
     loss_z_planes_adc_weight := weight_of fields "loss_z_planes_adc_weight";
     loss_z_planes_npixel_weight := weight_of fields "loss_z_planes_npixel_weight";
     loss_infill_chamfer_weight := weight_of fields "loss_infill_chamfer_weight" |}.

(** One sample: three infill-marked voxels, two of them with target value 0
    (one stored as 0, one absent from the target) and one with a non-zero
    target, and two active voxels with non-zero targets. *)
Definition s_in : SparseTensor :=
  {| rows := [ (Coord 0 1 0 0, [0; 1]); (Coord 0 2 0 0, [0; 1]);
               (Coord 0 2 1 0, [0; 1]); (Coord 0 3 0 0, [5; 0]);
               (Coord 0 4 0 0, [7; 0]) ];
     nchannels := 2 |}.

Definition s_target : SparseTensor :=
  {| rows := [ (Coord 0 1 0 0, [0]); (Coord 0 2 1 0, [3]);
               (Coord 0 3 0 0, [5]); (Coord 0 4 0 0, [7]) ];
     nchannels := 1 |}.

Definition s_pred : SparseTensor :=
  {| rows := [ (Coord 0 1 0 0, [1]); (Coord 0 2 0 0, [2]);
               (Coord 0 2 1 0, [4]); (Coord 0 3 0 0, [5]);
               (Coord 0 4 0 0, [6]) ];
     nchannels := 1 |}.

(** An input voxel beyond 2^24 along x, where 32-bit floats are two apart,
    and a target that holds its neighbour. *)
Definition s_in_far : SparseTensor :=
  {| rows := [ (Coord 0 16777217 0 0, [0; 1]) ]; nchannels := 2 |}.

Definition s_target_far : SparseTensor :=
  {| rows := [ (Coord 0 16777216 0 0, [3]) ]; nchannels := 1 |}.

(** A target with two feature channels, which the one-channel prediction
    does not match. *)
Definition s_target_two_channels : SparseTensor :=
  {| rows := [ (Coord 0 1 0 0, [0; 0]); (Coord 0 2 1 0, [3; 1]);
               (Coord 0 3 0 0, [5; 2]); (Coord 0 4 0 0, [7; 0]) ];
     nchannels := 2 |}.

(** The gap markers 1, 2, 5 along x; the sample's infill voxels lie at the
    x values 1 and 2. *)
Definition data : batch_data := {| mask_x := [[1; 2; 5]%Z]; mask_z := [[0]%Z] |}.

(** A sample without plane markers along x. *)
Definition data_no_markers : batch_data := {| mask_x := [[]]; mask_z := [[0]%Z] |}.

Definition pixelwise_conf : config :=
  config_of "PixelWise_L1Loss" None
    [ ("loss_infill_zero_weight"%string, 1);
      ("loss_infill_nonzero_weight"%string, 2);
      ("loss_active_zero_weight"%string, 0);
      ("loss_active_nonzero_weight"%string, 0) ].

Definition pixelwise_bce_conf : config :=
  config_of "PixelWise_BCEWithLogitsLoss" None
    [ ("loss_infill_sum_weight"%string, 1) ].

Definition gapwise_conf : config :=
  config_of "GapWise_L1Loss" (Some (Some 1))
    [ ("loss_x_gaps_adc_weight"%string, 1);
      ("loss_x_gaps_npixel_weight"%string, 1) ].

Definition planewise_conf : config :=
  config_of "PlaneWise_L1Loss" (Some (Some 1))
    [ ("loss_x_planes_adc_weight"%string, 1);
      ("loss_x_planes_npixel_weight"%string, 1) ].

(** Configurations of the threshold test. *)
Definition gapwise_negative_threshold_conf : config :=
  config_of "GapWise_L1Loss" (Some (Some (-1)))
    [ ("loss_x_gaps_npixel_weight"%string, 1) ].

Definition gapwise_none_threshold_conf : config :=
  config_of "GapWise_L1Loss" (Some None)
    [ ("loss_infill_weight"%string, 1);
      ("loss_x_gaps_npixel_weight"%string, 0);
      ("loss_z_gaps_npixel_weight"%string, 0) ].

Definition gapwise_absent_threshold_conf : config :=
  config_of "GapWise_L1Loss" None [ ("loss_infill_weight"%string, 1) ].

Definition planewise_zero_threshold_conf : config :=
  config_of "PlaneWise_L1Loss" (Some (Some 0))
    [ ("loss_x_planes_npixel_weight"%string, 1) ].

(** Configurations whose loss-function name the strategy does not know. *)
Definition gapwise_unknown_name_conf : config :=
  config_of "GapWise_L1Loss_BCELoss" (Some (Some 1))
    [ ("loss_infill_weight"%string, 1) ].

Definition planewise_unknown_name_conf : config :=
  config_of "PlaneWise_MSELoss" (Some (Some 1))
    [ ("loss_infill_weight"%string, 1) ].

(** The strategies these configurations construct. *)
Definition pixelwise_self : PixelWise.t :=
  {| PixelWise.crit := L1Loss Mean;
     PixelWise.crit_sumreduction := L1Loss Sum;
     PixelWise.lambda_loss_infill_zero := 1;
     PixelWise.lambda_loss_infill_nonzero := 2;
     PixelWise.lambda_loss_active_zero := 0;
     PixelWise.lambda_loss_active_nonzero := 0;
     PixelWise.lambda_loss_infill := 0;
     PixelWise.lambda_loss_active := 0;
     PixelWise.lambda_loss_infill_sum := 0 |}.

(** A strategy with the aggregate sub-term only. *)
Definition pixelwise_sum_self : PixelWise.t :=
  {| PixelWise.crit := L1Loss Mean;
     PixelWise.crit_sumreduction := L1Loss Sum;
     PixelWise.lambda_loss_infill_zero := 0;
     PixelWise.lambda_loss_infill_nonzero := 0;
     PixelWise.lambda_loss_active_zero := 0;
     PixelWise.lambda_loss_active_nonzero := 0;
     PixelWise.lambda_loss_infill := 0;
     PixelWise.lambda_loss_active := 0;
     PixelWise.lambda_loss_infill_sum := 1 |}.

Definition gapwise_self : GapWise.t :=
  {| GapWise.crits :=
       Some {| GapWise.crit_adc := L1Loss Mean;
               GapWise.crit_adc_sumreduction := L1Loss Sum;
               GapWise.crit_npixel := L1Loss Mean;
               GapWise.crit_adc_pixelwise := L1Loss Mean;
               GapWise.crit_adc_pixelwise_sumreduction := L1Loss Sum |};
     GapWise.adc_threshold := Some 1;
     GapWise.lambda_loss_infill_zero := 0;
     GapWise.lambda_loss_infill_nonzero := 0;
     GapWise.lambda_loss_infill := 0;
     GapWise.lambda_loss_x_gaps_adc := 1;
     GapWise.lambda_loss_x_gaps_npixel := 1;
     GapWise.lambda_loss_z_gaps_adc := 0;
     GapWise.lambda_loss_z_gaps_npixel := 0 |}.

Definition planewise_self : PlaneWise.t :=
  {| PlaneWise.crits :=
       Some {| PlaneWise.crit_adc := L1Loss Mean;
               PlaneWise.crit_adc_sumreduction := L1Loss Sum;
               PlaneWise.crit_npixel := L1Loss Mean |};
     PlaneWise.adc_threshold := Some 1;
     PlaneWise.lambda_loss_infill_zero := 0;
     PlaneWise.lambda_loss_infill_nonzero := 0;
     PlaneWise.lambda_loss_infill := 0;
     PlaneWise.lambda_loss_x_planes_adc := 1;
     PlaneWise.lambda_loss_x_planes_npixel := 1;
     PlaneWise.lambda_loss_z_planes_adc := 0;
     PlaneWise.lambda_loss_z_planes_npixel := 0 |}.

(** The infill coordinates of the sample. *)
Definition infill : list coord :=
  [Coord 0 1 0 0; Coord 0 2 0 0; Coord 0 2 1 0].

End Examples.

(** ** The markers a list of ranges stands for *)

(** The gap coordinates the loop of [_get_gap_losses] visits, range after
    range: [range(gap_start, gap_end + 1)] for every range in order. *)
Definition visited_gap_coords (gap_ranges : list (Z * Z)) : list Z :=
  flat_map (fun r => py_range (fst r) (snd r + 1)%Z) gap_ranges.

(** ** The sub-terms of GapWise and PlaneWise *)

(** The sub-terms in the order [GapWise.calc_loss] adds them: name, scale
    factor and list of per-sample losses. *)
Definition gapwise_terms (self : GapWise.t) (ls : GapWise.loss_lists)
  : list (string * R * list R) :=
  [ ("infill_zero"%string, GapWise.lambda_loss_infill_zero self,
      GapWise.losses_infill_zero ls);
    ("infill_nonzero"%string, GapWise.lambda_loss_infill_nonzero self,
      GapWise.losses_infill_nonzero ls);
    ("infill"%string, GapWise.lambda_loss_infill self, GapWise.losses_infill ls);
    ("x_gaps_adc"%string, GapWise.lambda_loss_x_gaps_adc self,
      GapWise.losses_x_gap_adc ls);
    ("x_gaps_npixel"%string, GapWise.lambda_loss_x_gaps_npixel self,
      GapWise.losses_x_gap_npixel ls);
    ("z_gaps_adc"%string, GapWise.lambda_loss_z_gaps_adc self,
      GapWise.losses_z_gap_adc ls);
    ("z_gaps_npixel"%string, GapWise.lambda_loss_z_gaps_npixel self,
      GapWise.losses_z_gap_npixel ls) ].

(** The same for [PlaneWise.calc_loss]. *)
Definition planewise_terms (self : PlaneWise.t) (ls : PlaneWise.loss_lists)
  : list (string * R * list R) :=
  [ ("infill_zero"%string, PlaneWise.lambda_loss_infill_zero self,
      PlaneWise.losses_infill_zero ls);
    ("infill_nonzero"%string, PlaneWise.lambda_loss_infill_nonzero self,
      PlaneWise.losses_infill_nonzero ls);
    ("infill"%string, PlaneWise.lambda_loss_infill self,
      PlaneWise.losses_infill ls);
    ("x_planes_adc"%string, PlaneWise.lambda_loss_x_planes_adc self,
      PlaneWise.losses_x_plane_adc ls);
    ("x_planes_npixel"%string, PlaneWise.lambda_loss_x_planes_npixel self,
      PlaneWise.losses_x_plane_npixel ls);
    ("z_planes_adc"%string, PlaneWise.lambda_loss_z_planes_adc self,
      PlaneWise.losses_z_plane_adc ls);
    ("z_planes_npixel"%string, PlaneWise.lambda_loss_z_planes_npixel self,
      PlaneWise.losses_z_plane_npixel ls) ].

(** The per-sample value behind a gap sub-term of [GapWise.calc_loss]: the
    component, adc or npixel, of the pair that [_get_gap_losses] returns on
    the sample's markers along the axis and on its infill coordinates. *)
Definition gap_sample_loss (self : GapWise.t) (s_pred s_target : SparseTensor)
  (infill_coords : list coord) (data : batch_data) (name : string)
  (i_batch : nat) : result R :=
  let batch_infill_coords := batch_rows (Z.of_nat i_batch) infill_coords in
  if String.eqb name "x_gaps_adc" || String.eqb name "x_gaps_npixel" then
    gaps <- py_index (mask_x data) i_batch ;;
    ret <- GapWise._get_gap_losses self s_pred s_target (py_set gaps)
             batch_infill_coords 1
             (negb (truthy (GapWise.lambda_loss_x_gaps_adc self)))
             (negb (truthy (GapWise.lambda_loss_x_gaps_npixel self))) ;;
    Ok (if String.eqb name "x_gaps_adc" then fst ret else snd ret)
  else
    gaps <- py_index (mask_z data) i_batch ;;
    ret <- GapWise._get_gap_losses self s_pred s_target (py_set gaps)
             batch_infill_coords 3
             (negb (truthy (GapWise.lambda_loss_z_gaps_adc self)))
             (negb (truthy (GapWise.lambda_loss_z_gaps_npixel self))) ;;
    Ok (if String.eqb name "z_gaps_adc" then fst ret else snd ret).

(** The same for a plane sub-term of [PlaneWise.calc_loss]. *)
Definition plane_sample_loss (self : PlaneWise.t)
  (s_pred s_target : SparseTensor) (infill_coords : list coord)
  (data : batch_data) (name : string) (i_batch : nat) : result R :=
  let batch_infill_coords := batch_rows (Z.of_nat i_batch) infill_coords in
  if String.eqb name "x_planes_adc" || String.eqb name "x_planes_npixel" then
    gaps <- py_index (mask_x data) i_batch ;;
    ret <- PlaneWise._get_plane_losses self s_pred s_target (py_set gaps)
             batch_infill_coords 1
             (negb (truthy (PlaneWise.lambda_loss_x_planes_adc self)))
             (negb (truthy (PlaneWise.lambda_loss_x_planes_npixel self))) ;;
    Ok (if String.eqb name "x_planes_adc" then fst ret else snd ret)
  else
    gaps <- py_index (mask_z data) i_batch ;;
    ret <- PlaneWise._get_plane_losses self s_pred s_target (py_set gaps)
             batch_infill_coords 3
             (negb (truthy (PlaneWise.lambda_loss_z_planes_adc self)))
             (negb (truthy (PlaneWise.lambda_loss_z_planes_npixel self))) ;;
    Ok (if String.eqb name "z_planes_adc" then fst ret else snd ret).

(** ** The configuration parser (ME/config_parser.py) *)

Module ConfigParser.

Inductive DataPrepType : Type :=
| STANDARD | REFLECTION | REFLECTION_SEPARATE_MASKS | GAP_DISTANCE.

(** The exceptions of [get_config]: its own ValueError, the KeyError of a
    dictionary access, and whatever a collaborator raises (reading a file,
    building the detector, preparing the checkpoint directory). *)
Inductive error : Type :=
| Value_Error (msg : string)
| Key_Error (key : string)
| Collaborator_Error (what : string).

Inductive outcome (A : Type) : Type :=
| Return (a : A)
| Throw (e : error).
Arguments Return {A} a.
Arguments Throw {A} e.

Definition and_then {A B : Type} (m : outcome A) (k : A -> outcome B)
  : outcome B :=
  match m with
  | Return a => k a
  | Throw e => Throw e
  end.

Notation "x <~ m ;; k" := (and_then m (fun x => k))
  (at level 61, m at next level, right associativity).

(** The values of a configuration dictionary.  [Obj] stands for every value
    the parser does not look into: a list or mapping of the file, and the
    objects the collaborators build. *)
Inductive value (obj : Type) : Type :=
| Str (s : string)
| Num (x : R)
| PyNone
| Prep (d : DataPrepType)
| Obj (o : obj).
Arguments Str {obj} s.
Arguments Num {obj} x.
Arguments PyNone {obj}.
Arguments Prep {obj} d.
Arguments Obj {obj} o.

Section GetConfig.

Variable obj : Type.

(** A dictionary with string keys, in insertion order; the keys of a Python
    dictionary are distinct. *)
Definition dict : Type := list (string * value obj).

(** [d[k] = v] *)
Fixpoint set_item (d : dict) (k : string) (v : value obj) : dict :=
  match d with
  | [] => [(k, v)]
  | (k', w) :: t =>
      if String.eqb k' k then (k', v) :: t else (k', w) :: set_item t k v
  end.

(** [d.get(k)] *)
Fixpoint get_item (d : dict) (k : string) : option (value obj) :=
  match d with
  | [] => None
  | (k', w) :: t => if String.eqb k' k then Some w else get_item t k
  end.

(** [k in d] *)
Definition has_key (d : dict) (k : string) : bool :=
  match get_item d k with Some _ => true | None => false end.

(** [d[k]] *)
Definition lookup (d : dict) (k : string) : outcome (value obj) :=
  match get_item d k with
  | Some v => Return v
  | None => Throw (Key_Error k)
  end.

(** [del d[k]] *)
Definition delete (d : dict) (k : string) : outcome dict :=
  if has_key d k
  then Return (filter (fun kv => negb (String.eqb (fst kv) k)) d)
  else Throw (Key_Error k).

Definition defaults : dict :=
  [ ("det_props"%string,
      Str "/home/awilkins/larnd-sim/larnd-sim/larndsim/detector_properties/ndlar-module.yaml");
    ("pixel_layout"%string,
      Str "/home/awilkins/larnd-sim/larnd-sim/larndsim/pixel_layouts/multi_tile_layout-3.0.40.yaml");
    ("device"%string, Str "cuda:0");
    ("max_num_workers"%string, Num 4) ].

Definition mandatory_fields : list string :=
  [ "vmap_path"; "data_path"; "data_prep_type"; "scalefactors";
    "n_feats_in"; "n_feats_out"; "max_dataset_size"; "batch_size";
    "initial_lr"; "loss_func"; "epochs"; "lr_decay_iter";
    "loss_infill_zero_weight"; "loss_infill_nonzero_weight";
    "loss_active_zero_weight"; "loss_active_nonzero_weight";
    "checkpoints_dir"; "name" ]%string.

(** The collaborators: the detector and geometry builders of larpixsoft, the
    reader of the voxel-map file, the preparation of the checkpoint
    directory, [str.format] on a value, and the check of [namedtuple] on the
    field names, which gives the message of its ValueError when a key is not
    a usable field name.  [set_order] is the order in which Python iterates
    over, and prints, a set of strings: it depends on the hashes of the
    process and is some arrangement of the members. *)
Variable set_detector_properties : value obj -> value obj -> outcome obj.
Variable get_geom_map : value obj -> outcome obj.
Variable load_vmap : value obj -> outcome obj.
Variable prep_checkpoint : value obj -> value obj -> string -> outcome unit.
Variable py_format : value obj -> string.
Variable field_names_error : list string -> option string.
Variable set_order : list string -> list string.

(** The text of a set of field names, as [str.format] writes it, the names
    in the order given. *)
Fixpoint set_items_text (names : list string) : string :=
  match names with
  | [] => ""
  | [n] => "'" ++ n ++ "'"
  | n :: t => "'" ++ n ++ "', " ++ set_items_text t
  end.

Definition missing_msg (missing : list string) (config_file : string) : string :=
  ("Missing mandatory fields {" ++ set_items_text missing
     ++ "} in config file at " ++ config_file)%string.

(** The mapping of the [data_prep_type] field. *)
Definition prep_type_of (v : value obj) : option DataPrepType :=
  match v with
  | Str s =>
      if String.eqb s "standard" then Some STANDARD
      else if String.eqb s "reflection" then Some REFLECTION
      else if String.eqb s "reflection_separate_masks"
           then Some REFLECTION_SEPARATE_MASKS
      else if String.eqb s "gap_distance" then Some GAP_DISTANCE
      else None
  | _ => None
  end.

(** [get_config], from the dictionary [file_dict] that [yaml.load] read from
    [config_file].  The missing defaults are set in the order of [defaults];
    the source iterates over a set of them, which changes the order of the
    keys of the dictionary only, not what a key holds. *)
Definition get_config (config_file : string) (file_dict overwrite_dict : dict)
  (prep_checkpoint_dir : bool) : outcome dict :=
  let config_dict :=
    fold_left (fun d kv => set_item d (fst kv) (snd kv)) overwrite_dict
      file_dict in
  let missing_fields :=
    filter (fun f => negb (has_key config_dict f)) mandatory_fields in
  match missing_fields with
  | _ :: _ =>
      Throw (Value_Error (missing_msg (set_order missing_fields) config_file))
  | [] =>
      let config_dict :=
        fold_left (fun d kv => if has_key d (fst kv) then d
                               else set_item d (fst kv) (snd kv))
          defaults config_dict in
      det_props <~ lookup config_dict "det_props" ;;
      pixel_layout <~ lookup config_dict "pixel_layout" ;;
      detector <~ set_detector_properties det_props pixel_layout ;;
      let config_dict := set_item config_dict "detector" (Obj detector) in
      pixel_layout <~ lookup config_dict "pixel_layout" ;;
      geometry <~ get_geom_map pixel_layout ;;
      let config_dict := set_item config_dict "geometry" (Obj geometry) in
      config_dict <~ delete config_dict "det_props" ;;
      config_dict <~ delete config_dict "pixel_layout" ;;
      vmap_path <~ lookup config_dict "vmap_path" ;;
      vmap <~ load_vmap vmap_path ;;
      let config_dict := set_item config_dict "vmap" (Obj vmap) in
      config_dict <~ delete config_dict "vmap_path" ;;
      prep <~ lookup config_dict "data_prep_type" ;;
      config_dict <~
        match prep_type_of prep with
        | Some d => Return (set_item config_dict "data_prep_type" (Prep d))
        | None =>
            Throw (Value_Error
                     ("data_prep_type=" ++ py_format prep ++ " not recognised"))
        end ;;
      _ <~ (if prep_checkpoint_dir then
              checkpoints_dir <~ lookup config_dict "checkpoints_dir" ;;
              name <~ lookup config_dict "name" ;;
              prep_checkpoint checkpoints_dir name config_file
            else Return tt) ;;
      match field_names_error (map fst config_dict) with
      | Some msg => Throw (Value_Error msg)
      | None => Return config_dict
      end
  end.

(** The fields [get_config] itself writes or removes. *)
Definition rewritten_fields : list string :=
  [ "det_props"; "pixel_layout"; "vmap_path"; "detector"; "geometry"; "vmap";
    "data_prep_type" ]%string.

(** Attribute access on the configuration namedtuple, for the fields the
    loss strategies read: a weight is a number or absent, the threshold a
    number, [None] or absent, the name a string.  A dictionary with a value
    of another kind in one of these fields has no counterpart in [config]. *)
Definition weight_field (d : dict) (k : string) : option (option R) :=
  match get_item d k with
  | None => Some None
  | Some (Num x) => Some (Some x)
  | Some _ => None
  end.

Definition threshold_field (d : dict) : option (option (option R)) :=
  match get_item d "adc_threshold" with
  | None => Some None
  | Some PyNone => Some (Some None)
  | Some (Num x) => Some (Some (Some x))
  | Some _ => None
  end.

Definition opt_bind {A B : Type} (m : option A) (k : A -> option B) : option B :=
  match m with Some a => k a | None => None end.

Definition to_config (d : dict) : option config :=
  match get_item d "loss_func" with
  | Some (Str name) =>
      opt_bind (threshold_field d) (fun thr =>
      opt_bind (weight_field d "loss_infill_zero_weight") (fun w1 =>
      opt_bind (weight_field d "loss_infill_nonzero_weight") (fun w2 =>
      opt_bind (weight_field d "loss_active_zero_weight") (fun w3 =>
      opt_bind (weight_field d "loss_active_nonzero_weight") (fun w4 =>
      opt_bind (weight_field d "loss_infill_weight") (fun w5 =>
      opt_bind (weight_field d "loss_active_weight") (fun w6 =>
      opt_bind (weight_field d "loss_infill_sum_weight") (fun w7 =>
      opt_bind (weight_field d "loss_x_gaps_adc_weight") (fun w8 =>
      opt_bind (weight_field d "loss_x_gaps_npixel_weight") (fun w9 =>
      opt_bind (weight_field d "loss_z_gaps_adc_weight") (fun w10 =>
      opt_bind (weight_field d "loss_z_gaps_npixel_weight") (fun w11 =>
      opt_bind (weight_field d "loss_x_planes_adc_weight") (fun w12 =>
      opt_bind (weight_field d "loss_x_planes_npixel_weight") (fun w13 =>
      opt_bind (weight_field d "loss_z_planes_adc_weight") (fun w14 =>
      opt_bind (weight_field d "loss_z_planes_npixel_weight") (fun w15 =>
      opt_bind (weight_field d "loss_infill_chamfer_weight") (fun w16 =>
      Some {| loss_func := name;
              adc_threshold := thr;
              loss_infill_zero_weight := w1;
              loss_infill_nonzero_weight := w2;
              loss_active_zero_weight := w3;
              loss_active_nonzero_weight := w4;
              loss_infill_weight := w5;
              loss_active_weight := w6;
              loss_infill_sum_weight := w7;
              loss_x_gaps_adc_weight := w8;
              loss_x_gaps_npixel_weight := w9;
              loss_z_gaps_adc_weight := w10;
              loss_z_gaps_npixel_weight := w11;
              loss_x_planes_adc_weight := w12;
              loss_x_planes_npixel_weight := w13;
              loss_z_planes_adc_weight := w14;
              loss_z_planes_npixel_weight := w15;
              loss_infill_chamfer_weight := w16 |})))))))))))))))))
  | _ => None
  end.

End GetConfig.

End ConfigParser.

(** ** A sample configuration file *)

Module ParserExamples.

Import ConfigParser.

Definition file_dict : dict unit :=
  [ ("vmap_path"%string, Str "vmap.yml"); ("data_path"%string, Str "data");
    ("data_prep_type"%string, Str "reflection");
    ("scalefactors"%string, Obj tt);
    ("n_feats_in"%string, Num 2); ("n_feats_out"%string, Num 1);
    ("max_dataset_size"%string, Num 0); ("batch_size"%string, Num 1);
    ("initial_lr"%string, Num 1); ("loss_func"%string, Str "GapWise_L1Loss");
    ("epochs"%string, Num 1); ("lr_decay_iter"%string, Num 0);
    ("loss_infill_zero_weight"%string, Num 1);
    ("loss_infill_nonzero_weight"%string, Num 2);
    ("loss_active_zero_weight"%string, Num 0);
    ("loss_active_nonzero_weight"%string, Num 0);
    ("checkpoints_dir"%string, Str "checkpoints");
    ("name"%string, Str "run");
    ("device"%string, Str "cuda:1") ].

Definition overwrite_dict : dict unit :=
  [ ("device"%string, Str "cpu"); ("loss_x_gaps_adc_weight"%string, Num 1) ].

(** Collaborators that succeed, and a voxel-map reader that fails. *)
Definition get_config_ok :=
  @get_config unit (fun _ _ => Return tt) (fun _ => Return tt)
    (fun _ => Return tt) (fun _ _ _ => Return tt) (fun _ => "?"%string)
    (fun _ => None) (@rev string).

Definition get_config_no_vmap :=
  @get_config unit (fun _ _ => Return tt) (fun _ => Return tt)
    (fun _ => Throw (Collaborator_Error "FileNotFoundError"))
    (fun _ _ _ => Return tt) (fun _ => "?"%string) (fun _ => None)
    (@rev string).

End ParserExamples.

(** * Properties *)

(** ** The error monad and masks *)

Lemma mask_select_map {A : Type} (p : A -> bool) (xs : list A) :
  mask_select xs (map p xs) = filter p xs.
Proof.
  induction xs as [|x xs IH]; simpl; [reflexivity|].
  now rewrite IH.
Qed.

Lemma mask_select_map_negb {A : Type} (p : A -> bool) (xs : list A) :
  mask_select xs (map negb (map p xs)) = filter (fun x => negb (p x)) xs.
Proof.
  rewrite map_map. apply mask_select_map.
Qed.

(** ** Tests on tensor values *)

Lemma Reqb_true (x y : R) : x = y -> Reqb x y = true.
Proof. intros H. unfold Reqb. now destruct (Req_dec_T x y). Qed.

Lemma Reqb_false (x y : R) : x <> y -> Reqb x y = false.
Proof. intros H. unfold Reqb. now destruct (Req_dec_T x y). Qed.

Lemma Reqb_eq (x y : R) : Reqb x y = true <-> x = y.
Proof.
  unfold Reqb. destruct (Req_dec_T x y); split; congruence.
Qed.

Lemma truthy_true (w : R) : truthy w = true <-> w <> 0%R.
Proof.
  unfold truthy. rewrite negb_true_iff. unfold Reqb.
  destruct (Req_dec_T w 0); split; congruence.
Qed.

Lemma truthy_false (w : R) : truthy w = false <-> w = 0%R.
Proof.
  unfold truthy. rewrite negb_false_iff. apply Reqb_eq.
Qed.

(** Deciding the tests on concrete values. *)
Ltac Rbool :=
  repeat match goal with
    | |- context [Reqb ?a ?b] =>
        first [ rewrite (@Reqb_true a b) by lra
              | rewrite (@Reqb_false a b) by lra ]
    end.

(** ** Criteria and shapes *)

Lemma shape_eqb_eq (a b : shape) : shape_eqb a b = true <-> a = b.
Proof.
  destruct a as [|m|n c], b as [|m'|n' c']; cbn [shape_eqb];
    try (split; [discriminate|discriminate]); try tauto.
  - rewrite Nat.eqb_eq. split; [now intros ->|now intros [= ->]].
  - rewrite andb_true_iff, !Nat.eqb_eq.
    split; [now intros [-> ->]|now intros [= -> ->]].
Qed.

(** On two tensors of one shape the criterion pairs the entries. *)
Lemma apply_crit_same_shape (c : criterion) (p t : tensor) :
  t_shape p = t_shape t ->
  apply_crit c p t = reduce_crit c (t_entries p) (t_entries t).
Proof.
  intros Hs. unfold apply_crit.
  now rewrite (proj2 (shape_eqb_eq (t_shape p) (t_shape t)) Hs).
Qed.

Lemma apply_crit_scalar (c : criterion) (p q : R) :
  apply_crit c (scalar p) (scalar q) = reduce_crit c [p] [q].
Proof. now apply apply_crit_same_shape. Qed.

(** The features of two sparse tensors with the same number of channels,
    looked up at the same coordinates, have one shape. *)
Lemma apply_crit_features (c : criterion) (s_pred s_target : SparseTensor)
  (coords : list coord) :
  nchannels s_pred = nchannels s_target ->
  apply_crit c (squeezed_features s_pred coords)
    (squeezed_features s_target coords)
  = reduce_crit c (squeeze (features_at_coordinates s_pred coords))
      (squeeze (features_at_coordinates s_target coords)).
Proof.
  intros Hch. apply apply_crit_same_shape.
  unfold squeezed_features. cbn [t_shape]. now rewrite Hch.
Qed.

(** Over no coordinates, features with different numbers of channels have
    shapes that do not go together: (0,) or (0, c) against (0, c'). *)
Lemma apply_crit_no_coords_mismatch (c : criterion)
  (s_pred s_target : SparseTensor) :
  (0 < nchannels s_pred)%nat -> (0 < nchannels s_target)%nat ->
  nchannels s_pred <> nchannels s_target ->
  apply_crit c (squeezed_features s_pred []) (squeezed_features s_target [])
  = Raise (match crit_metric c with
           | BCEWithLogits =>
               ValueError (size_msg (squeezed_shape 0 (nchannels s_pred))
                             (squeezed_shape 0 (nchannels s_target)))
           | _ => RuntimeError
           end).
Proof.
  intros Hp Ht Hne. unfold apply_crit, squeezed_features.
  cbn [t_shape t_entries List.length].
  unfold squeezed_shape. cbn [Nat.eqb].
  destruct (Nat.eqb_spec (nchannels s_pred) 1) as [H1|H1];
    destruct (Nat.eqb_spec (nchannels s_target) 1) as [H2|H2];
    try (exfalso; lia); cbn [shape_eqb dims fst snd].
  - destruct (crit_metric c); try reflexivity;
      unfold broadcast_dim; cbn [Nat.eqb];
      destruct (nchannels s_target) as [|[|k]]; try lia; reflexivity.
  - destruct (crit_metric c); try reflexivity;
      unfold broadcast_dim; cbn [Nat.eqb];
      destruct (nchannels s_pred) as [|[|k]]; try lia; reflexivity.
  - cbn [Nat.eqb andb].
    destruct (Nat.eqb_spec (nchannels s_pred) (nchannels s_target)) as [He|He];
      [contradiction|].
    destruct (crit_metric c); try reflexivity;
      unfold broadcast_dim; cbn [Nat.eqb];
      (destruct (Nat.eqb_spec (nchannels s_pred) (nchannels s_target));
       [contradiction|]);
      (destruct (Nat.eqb_spec (nchannels s_pred) 1); [contradiction|]);
      (destruct (Nat.eqb_spec (nchannels s_target) 1); [contradiction|]);
      reflexivity.
Qed.

(** ** sorted(set(nums)) *)

Section SortedSet.

Open Scope Z_scope.

Lemma insert_uniq_In (x y : Z) (l : list Z) :
  In y (insert_uniq x l) <-> y = x \/ In y l.
Proof.
  induction l as [|z l IH]; simpl.
  - intuition.
  - destruct (x <? z) eqn:Hlt; [simpl; intuition|].
    destruct (x =? z) eqn:Heq.
    + apply Z.eqb_eq in Heq. subst z. simpl. intuition.
    + simpl. rewrite IH. intuition.
Qed.

Lemma sorted_set_In (y : Z) (nums : list Z) :
  In y (sorted_set nums) <-> In y nums.
Proof.
  induction nums as [|x nums IH]; simpl; [tauto|].
  rewrite insert_uniq_In, IH. intuition.
Qed.

Lemma insert_uniq_HdRel (a x : Z) (l : list Z) :
  a < x -> HdRel Z.lt a l -> HdRel Z.lt a (insert_uniq x l).
Proof.
  intros Hax Hl. destruct l as [|z l]; simpl.
  - now constructor.
  - destruct (x <? z); [now constructor|].
    destruct (x =? z); [exact Hl|].
    constructor. now inversion Hl.
Qed.

Lemma insert_uniq_Sorted (x : Z) (l : list Z) :
  Sorted Z.lt l -> Sorted Z.lt (insert_uniq x l).
Proof.
  induction l as [|z l IH]; simpl; intros Hs.
  - repeat constructor.
  - destruct (x <? z) eqn:Hlt.
    + apply Z.ltb_lt in Hlt. constructor; [exact Hs|now constructor].
    + destruct (x =? z) eqn:Heq; [exact Hs|].
      apply Z.ltb_ge in Hlt. apply Z.eqb_neq in Heq.
      inversion Hs as [|? ? Hs' Hhd]; subst.
      constructor; [now apply IH|].
      apply insert_uniq_HdRel; [lia|exact Hhd].
Qed.

Lemma sorted_set_Sorted (nums : list Z) : Sorted Z.lt (sorted_set nums).
Proof.
  induction nums as [|x nums IH]; simpl; [constructor|].
  now apply insert_uniq_Sorted.
Qed.

Lemma sorted_set_nil (nums : list Z) : sorted_set nums = [] -> nums = [].
Proof.
  destruct nums as [|x nums]; [reflexivity|]. intros H.
  assert (Hin : In x (sorted_set (x :: nums))) by (apply sorted_set_In; now left).
  rewrite H in Hin. destruct Hin.
Qed.

Lemma Sorted_lt_all (a : Z) (l : list Z) :
  Sorted Z.lt (a :: l) -> forall v, In v l -> a < v.
Proof.
  intros Hs. apply Sorted_StronglySorted in Hs; [|intros x y z; lia].
  inversion Hs as [|? ? _ Hall]; subst.
  now apply Forall_forall.
Qed.

End SortedSet.

(** ** The range grouper *)

Module GapWiseRangesFacts.

Import GapWiseRanges.
Open Scope Z_scope.

Lemma last_cons (t : list Z) :
  forall x y, last (y :: t) x = last t y.
Proof.
  induction t as [|z t IH]; intros x y; [reflexivity|].
  change (last (y :: z :: t) x) with (last (z :: t) x).
  now rewrite !IH.
Qed.

Lemma skipn_last (x : Z) (t : list Z) :
  skipn (List.length t) (x :: t) = [last t x].
Proof.
  revert x. induction t as [|y t IH]; intros x; [reflexivity|].
  change (skipn (List.length (y :: t)) (x :: y :: t))
    with (skipn (List.length t) (y :: t)).
  now rewrite IH, last_cons.
Qed.

Lemma zip_edges_runs_from (t : list Z) :
  forall s e,
    zip_iter (s :: List.concat (discontinuities (e :: t)) ++ [last t e])
    = runs_from s e t.
Proof.
  induction t as [|x t IH]; intros s e; [reflexivity|].
  unfold discontinuities in *. simpl tl in *. simpl combine. simpl filter.
  cbn [fst snd]. cbn [runs_from].
  rewrite last_cons.
  destruct (e + 1 <? x).
  - cbn [map List.concat app zip_iter]. f_equal. apply IH.
  - apply IH.
Qed.

(** The source's construction and the walk over the markers agree, on every
    list. *)
Lemma zip_edges_maximal_runs (l : list Z) :
  zip_iter (edges l) = maximal_runs l.
Proof.
  destruct l as [|x t]; [reflexivity|].
  unfold edges. cbn [firstn app List.length maximal_runs].
  replace (S (List.length t) - 1)%nat with (List.length t) by lia.
  rewrite skipn_last. apply zip_edges_runs_from.
Qed.

Lemma edge_ranges_runs (nums : list Z) :
  _get_edge_ranges nums = maximal_runs (sorted_set nums).
Proof. apply zip_edges_maximal_runs. Qed.

Lemma runs_from_head (l : list Z) :
  forall s e, exists e' rest, runs_from s e l = (s, e') :: rest.
Proof.
  induction l as [|x l IH]; intros s e; simpl.
  - now exists e, [].
  - destruct (e + 1 <? x).
    + eexists; eexists; reflexivity.
    + apply IH.
Qed.

Lemma runs_from_le (l : list Z) :
  forall s e, s <= e -> Sorted Z.lt (e :: l) ->
    Forall (fun r => fst r <= snd r) (runs_from s e l).
Proof.
  induction l as [|x l IH]; intros s e Hse Hs; simpl.
  - repeat constructor. exact Hse.
  - inversion Hs as [|? ? Hs' Hhd]; subst. inversion Hhd; subst.
    destruct (e + 1 <? x).
    + constructor; [exact Hse|]. apply IH; [lia|exact Hs'].
    + apply IH; [lia|exact Hs'].
Qed.

Lemma runs_from_apart (l : list Z) :
  forall s e, Sorted Z.lt (e :: l) -> Sorted apart (runs_from s e l).
Proof.
  induction l as [|x l IH]; intros s e Hs; simpl.
  - repeat constructor.
  - inversion Hs as [|? ? Hs' Hhd]; subst.
    destruct (e + 1 <? x) eqn:Hlt.
    + constructor; [now apply IH|].
      destruct (runs_from_head l x x) as (e' & rest & ->).
      constructor. unfold apart. simpl. now apply Z.ltb_lt.
    + now apply IH.
Qed.

Lemma runs_from_holds (l : list Z) :
  forall s e, s <= e -> Sorted Z.lt (e :: l) ->
    forall v, holds v (runs_from s e l) <-> (s <= v <= e \/ In v l).
Proof.
  induction l as [|x l IH]; intros s e Hse Hs v; simpl.
  - unfold holds. split.
    + intros (r & [<-|[]] & Hv). now left.
    + intros [Hv|[]]. exists (s, e). split; [now left|exact Hv].
  - inversion Hs as [|? ? Hs' Hhd]; subst. inversion Hhd; subst.
    destruct (e + 1 <? x) eqn:Hlt.
    + specialize (IH x x (Z.le_refl x) Hs' v). unfold holds in *. split.
      * intros (r & [<-|Hr] & Hv); [now left|].
        right. destruct IH as [IH _].
        destruct IH as [Hx|Hin]; [now exists r| |now right].
        left. lia.
      * intros [Hv|[<-|Hin]].
        -- exists (s, e). split; [now left|exact Hv].
        -- destruct IH as [_ IH]. destruct IH as (r & Hr & Hv); [left; lia|].
           exists r. split; [now right|exact Hv].
        -- destruct IH as [_ IH]. destruct IH as (r & Hr & Hv); [now right|].
           exists r. split; [now right|exact Hv].
    + apply Z.ltb_ge in Hlt. rewrite (IH s x ltac:(lia) Hs' v). split.
      * intros [Hv|Hin]; [|now right; right].
        assert (v = x \/ s <= v <= e) as [->|Hv'] by lia;
          [right; now left|now left].
      * intros [Hv|[<-|Hin]]; [left; lia|left; lia|now right].
Qed.

Lemma edge_ranges_is_maximal_runs (nums : list Z) :
  is_maximal_runs nums (_get_edge_ranges nums).
Proof.
  rewrite edge_ranges_runs.
  pose proof (sorted_set_Sorted nums) as Hs.
  pose proof (fun v => sorted_set_In v nums) as Hin.
  destruct (sorted_set nums) as [|x t] eqn:Hl.
  - apply sorted_set_nil in Hl. subst nums.
    split; [constructor|]. split; [constructor|].
    intros v. split; [intros []|intros (r & [] & _)].
  - cbn [maximal_runs]. repeat split.
    + apply runs_from_le; [lia|exact Hs].
    + now apply runs_from_apart.
    + intros Hv. apply runs_from_holds; [lia|exact Hs|].
      apply Hin in Hv. destruct Hv as [<-|Hv]; [left; lia|now right].
    + intros Hv. apply runs_from_holds in Hv; [|lia|exact Hs].
      apply Hin. destruct Hv as [Hv|Hv]; [left; lia|now right].
Qed.

Lemma apart_tail (rs : list (Z * Z)) :
  forall r0, Forall (fun r => fst r <= snd r) rs -> Sorted apart (r0 :: rs) ->
    forall r, In r rs -> snd r0 + 1 < fst r.
Proof.
  induction rs as [|r1 rs IH]; intros r0 Hle Hs r Hr; [destruct Hr|].
  inversion Hs as [|? ? Hs' Hhd]; subst. inversion Hhd as [|? ? Hap]; subst.
  inversion Hle as [|? ? Hle1 Hle']; subst. unfold apart in Hap.
  destruct Hr as [<-|Hr]; [exact Hap|].
  specialize (IH r1 Hle' Hs' r Hr). lia.
Qed.

Lemma holds_tail_above (r0 : Z * Z) (rs : list (Z * Z)) (v : Z) :
  Forall (fun r => fst r <= snd r) rs -> Sorted apart (r0 :: rs) ->
  holds v rs -> snd r0 + 1 < v.
Proof.
  intros Hle Hs (r & Hr & Hv).
  pose proof (apart_tail Hle Hs r Hr). lia.
Qed.

Lemma holds_cons (r0 : Z * Z) (rs : list (Z * Z)) (v : Z) :
  holds v (r0 :: rs) <-> fst r0 <= v <= snd r0 \/ holds v rs.
Proof.
  unfold holds. split.
  - intros (r & [<-|Hr] & Hv); [now left|right; now exists r].
  - intros [Hv|(r & Hr & Hv)]; [exists r0|exists r]; simpl; tauto.
Qed.

(** Two lists of ranges that are both maximal runs of the same markers are
    the same list. *)
Lemma maximal_runs_unique (rs1 : list (Z * Z)) :
  forall rs2,
    Forall (fun r => fst r <= snd r) rs1 -> Sorted apart rs1 ->
    Forall (fun r => fst r <= snd r) rs2 -> Sorted apart rs2 ->
    (forall v, holds v rs1 <-> holds v rs2) ->
    rs1 = rs2.
Proof.
  induction rs1 as [|[a1 b1] t1 IH]; intros rs2 Hle1 Hs1 Hle2 Hs2 Hsame.
  - destruct rs2 as [|[a2 b2] t2]; [reflexivity|].
    inversion Hle2; subst; simpl in *.
    destruct (proj2 (Hsame a2)) as (r & [] & _).
    apply holds_cons. left. simpl. lia.
  - destruct rs2 as [|[a2 b2] t2].
    + inversion Hle1; subst; simpl in *.
      destruct (proj1 (Hsame a1)) as (r & [] & _).
      apply holds_cons. left. simpl. lia.
    + inversion Hle1 as [|? ? Hab1 Hle1']; subst.
      inversion Hle2 as [|? ? Hab2 Hle2']; subst. simpl in Hab1, Hab2.
      pose proof (fun v => @holds_tail_above (a1, b1) t1 v Hle1' Hs1) as Hup1.
      pose proof (fun v => @holds_tail_above (a2, b2) t2 v Hle2' Hs2) as Hup2.
      simpl in Hup1, Hup2.
      assert (Hh : forall v, (a1 <= v <= b1 \/ holds v t1)
                             <-> (a2 <= v <= b2 \/ holds v t2)).
      { intros v. rewrite <- (holds_cons (a1, b1)), <- (holds_cons (a2, b2)).
        apply Hsame. }
      assert (Ha : a1 = a2).
      { destruct (proj1 (Hh a1)) as [H|H]; [left; lia| |apply Hup2 in H];
        destruct (proj2 (Hh a2)) as [H'|H']; try (right; assumption);
        try (left; lia); try (apply Hup1 in H'); lia. }
      subst a2.
      assert (Hb : b1 = b2).
      { destruct (Z.lt_trichotomy b1 b2) as [Hlt|[Heq|Hgt]]; [|exact Heq|].
        - destruct (proj2 (Hh (b1 + 1))) as [H|H]; [left; lia|lia|].
          apply Hup1 in H. lia.
        - destruct (proj1 (Hh (b2 + 1))) as [H|H]; [left; lia|lia|].
          apply Hup2 in H. lia. }
      subst b2. f_equal.
      inversion Hs1; subst. inversion Hs2; subst.
      apply IH; try assumption.
      intros v. split; intros Hv.
      * destruct (proj1 (Hh v)) as [H|H]; [now right| |exact H].
        apply Hup1 in Hv. lia.
      * destruct (proj2 (Hh v)) as [H|H]; [now right| |exact H].
        apply Hup2 in Hv. lia.
Qed.

Lemma is_maximal_runs_unique (nums : list Z) (rs : list (Z * Z)) :
  is_maximal_runs nums rs -> rs = _get_edge_ranges nums.
Proof.
  intros (Hle & Hs & Hcov).
  destruct (edge_ranges_is_maximal_runs nums) as (Hle' & Hs' & Hcov').
  apply maximal_runs_unique; try assumption.
  intros v. now rewrite <- Hcov, <- Hcov'.
Qed.

Lemma edge_ranges_nonempty (nums : list Z) :
  nums <> [] -> _get_edge_ranges nums <> [].
Proof.
  intros Hne Hnil. destruct (edge_ranges_is_maximal_runs nums) as (_ & _ & Hcov).
  rewrite Hnil in Hcov. destruct nums as [|x nums]; [now apply Hne|].
  destruct (proj1 (Hcov x)) as (r & [] & _). now left.
Qed.

Lemma edge_ranges_one_run (nums : list Z) (lo hi : Z) :
  nums <> [] -> (forall v, In v nums <-> lo <= v <= hi) ->
  _get_edge_ranges nums = [(lo, hi)].
Proof.
  intros Hne Hrun. symmetry. apply is_maximal_runs_unique.
  assert (Hlohi : lo <= hi).
  { destruct nums as [|x nums]; [now contradiction Hne|].
    assert (lo <= x <= hi) by (apply Hrun; now left). lia. }
  repeat split.
  - repeat constructor. exact Hlohi.
  - repeat constructor.
  - intros Hv. exists (lo, hi). split; [now left|now apply Hrun].
  - intros (r & [<-|[]] & Hv). now apply Hrun.
Qed.

(** C3: for every non-empty collection of integer markers the range grouper
    returns exactly the maximal contiguous runs of the distinct markers in
    ascending order, as inclusive (start, end) pairs.  The result is
    non-empty; it satisfies [is_maximal_runs], and it is the only list of
    ranges that does; it is what the walk over the ascending distinct markers
    gives when a run is closed between consecutive markers a, b exactly when
    b > a + 1; a single marker m gives [(m, m)]; a collection that is one
    contiguous run lo..hi gives [(lo, hi)]; and the markers 2,3,4,7,8,10 give
    [(2,4); (7,8); (10,10)]. *)
Theorem get_edge_ranges_maximal_runs (nums : list Z) :
  nums <> [] ->
  let ranges := _get_edge_ranges nums in
  ranges <> []
  /\ is_maximal_runs nums ranges
  /\ (forall rs, is_maximal_runs nums rs -> rs = ranges)
  /\ (Sorted Z.lt (sorted_set nums)
      /\ (forall v, In v (sorted_set nums) <-> In v nums)
      /\ ranges = maximal_runs (sorted_set nums))
  /\ (forall m, (forall v, In v nums <-> v = m) -> ranges = [(m, m)])
  /\ (forall lo hi, (forall v, In v nums <-> lo <= v <= hi) ->
        ranges = [(lo, hi)])
  /\ _get_edge_ranges [2; 3; 4; 7; 8; 10] = [(2, 4); (7, 8); (10, 10)].
Proof.
  intros Hne ranges. subst ranges. repeat split.
  - now apply edge_ranges_nonempty.
  - apply edge_ranges_is_maximal_runs.
  - apply edge_ranges_is_maximal_runs.
  - apply edge_ranges_is_maximal_runs.
  - apply edge_ranges_is_maximal_runs.
  - apply is_maximal_runs_unique.
  - apply sorted_set_Sorted.
  - apply sorted_set_In.
  - apply sorted_set_In.
  - apply edge_ranges_runs.
  - intros m Hm. apply edge_ranges_one_run; [exact Hne|].
    intros v. rewrite Hm. lia.
  - intros lo hi Hrun. now apply edge_ranges_one_run.
Qed.

Lemma get_edge_ranges_maximal_runs_witness :
  [2; 3; 4; 7; 8; 10] <> []
  /\ is_maximal_runs [2; 3; 4; 7; 8; 10] [(2, 4); (7, 8); (10, 10)]
  /\ _get_edge_ranges [5] = [(5, 5)]
  /\ _get_edge_ranges [4; 2; 3; 3] = [(2, 4)].
Proof.
  assert (Hne : [2; 3; 4; 7; 8; 10] <> []) by discriminate.
  split; [exact Hne|]. split.
  - exact (proj1 (proj2 (get_edge_ranges_maximal_runs Hne))).
  - split.
    + assert (H5 : [5] <> []) by discriminate.
      apply (proj1 (proj2 (proj2 (proj2 (proj2
               (get_edge_ranges_maximal_runs H5)))))).
      intros v. simpl. intuition.
    + assert (H4 : [4; 2; 3; 3] <> []) by discriminate.
      apply (proj1 (proj2 (proj2 (proj2 (proj2 (proj2
               (get_edge_ranges_maximal_runs H4))))))).
      intros v. simpl. lia.
Defined.

End GapWiseRangesFacts.

(** ** Gap mode: the markers and the coordinates of a range *)

Module GapWiseFacts.

Import GapWiseRanges GapWiseRangesFacts GapWise.
Open Scope Z_scope.

Lemma In_py_range (a b v : Z) : In v (py_range a b) <-> a <= v < b.
Proof.
  unfold py_range. rewrite in_map_iff. split.
  - intros (i & <- & Hi). apply in_seq in Hi. lia.
  - intros Hv. exists (Z.to_nat (v - a)). split; [lia|].
    apply in_seq. lia.
Qed.

Lemma existsb_eqb_In (x : Z) (l : list Z) :
  existsb (Z.eqb x) l = true <-> In x l.
Proof.
  rewrite existsb_exists. split.
  - intros (y & Hy & Heq). apply Z.eqb_eq in Heq. now subst.
  - intros Hx. exists x. split; [exact Hx|apply Z.eqb_refl].
Qed.

Lemma py_set_In (x : Z) (l : list Z) : In x (py_set l) <-> In x l.
Proof. unfold py_set. apply nodup_In. Qed.

(** The markers of the grouping are the gap markers that occur as an axis
    value of the sample's infill coordinates. *)
Lemma active_gap_coords_In (gaps : list Z) (infill_coords : list coord)
  (coord_idx : nat) (m : Z) :
  In m (active_gap_coords gaps infill_coords coord_idx)
  <-> In m gaps /\ exists c, In c infill_coords /\ col coord_idx c = m.
Proof.
  unfold active_gap_coords.
  rewrite filter_In, sorted_set_In, in_map_iff, existsb_eqb_In.
  split.
  - intros ((c & Hc & Hin) & Hg). split; [exact Hg|now exists c].
  - intros (Hg & c & Hin & Hc). split; [now exists c|exact Hg].
Qed.

Lemma filter_Sorted_lt (p : Z -> bool) (l : list Z) :
  Sorted Z.lt l -> Sorted Z.lt (filter p l).
Proof.
  intros Hs. apply Sorted_StronglySorted in Hs; [|intros x y z; lia].
  apply StronglySorted_Sorted.
  induction Hs as [|a l Hs IH Hall]; simpl; [constructor|].
  destruct (p a); [|exact IH].
  constructor; [exact IH|].
  apply Forall_forall. intros x Hx. apply filter_In in Hx.
  rewrite Forall_forall in Hall. now apply Hall.
Qed.

Lemma active_gap_coords_Sorted (gaps : list Z) (infill_coords : list coord)
  (coord_idx : nat) :
  Sorted Z.lt (active_gap_coords gaps infill_coords coord_idx).
Proof. apply filter_Sorted_lt, sorted_set_Sorted. Qed.

(** The count of a row in the mask of a range is not zero exactly when the
    row's axis value is in the range. *)
Lemma mask_count (x : Z) (rng : list Z) :
  forall acc, 0 <= acc ->
    let n := fold_left Z.add
               (map (fun g => if x =? g then 1 else 0) rng) acc in
    acc <= n /\ (n = acc <-> ~ In x rng).
Proof.
  induction rng as [|g rng IH]; intros acc Hacc; simpl.
  - split; [lia|]. tauto.
  - destruct (x =? g) eqn:Heq.
    + apply Z.eqb_eq in Heq. subst g.
      destruct (IH (acc + 1) ltac:(lia)) as [Hle _].
      split; [lia|]. split; [lia|]. intros Hn. exfalso. apply Hn. now left.
    + apply Z.eqb_neq in Heq. rewrite Z.add_0_r.
      destruct (IH acc Hacc) as [Hle Hiff].
      split; [exact Hle|]. rewrite Hiff. intuition.
Qed.

Lemma gap_coords_In (infill_coords : list coord) (coord_idx : nat)
  (gap_start gap_end : Z) (c : coord) :
  In c (gap_coords infill_coords coord_idx gap_start gap_end)
  <-> In c infill_coords /\ gap_start <= col coord_idx c <= gap_end.
Proof.
  unfold gap_coords, gap_mask. rewrite map_map, mask_select_map, filter_In.
  destruct (mask_count (col coord_idx c) (py_range gap_start (gap_end + 1))
              (Z.le_refl 0)) as [_ Hiff].
  cbv zeta in Hiff. rewrite In_py_range in Hiff.
  rewrite negb_true_iff, Z.eqb_neq.
  split; intros [Hin Hc]; (split; [exact Hin|]).
  - destruct (Z_le_dec gap_start (col coord_idx c));
      [destruct (Z_le_dec (col coord_idx c) gap_end); [lia|]|];
      exfalso; apply Hc, Hiff; lia.
  - intros Hz. apply Hiff in Hz. lia.
Qed.

Lemma active_gap_coords_ext (gaps gaps' : list Z) (infill_coords : list coord)
  (coord_idx : nat) :
  (forall c, In c infill_coords ->
     (In (col coord_idx c) gaps <-> In (col coord_idx c) gaps')) ->
  active_gap_coords gaps infill_coords coord_idx
  = active_gap_coords gaps' infill_coords coord_idx.
Proof.
  intros Hsame. unfold active_gap_coords. apply filter_ext_in.
  intros m Hm. apply sorted_set_In, in_map_iff in Hm.
  destruct Hm as (c & <- & Hc). specialize (Hsame c Hc).
  destruct (existsb (Z.eqb (col coord_idx c)) gaps) eqn:H1;
    destruct (existsb (Z.eqb (col coord_idx c)) gaps') eqn:H2;
    try reflexivity.
  - apply existsb_eqb_In, Hsame, existsb_eqb_In in H1. congruence.
  - apply existsb_eqb_In, Hsame, existsb_eqb_In in H2. congruence.
Qed.

(** C4: in gap mode the grouping of a sample works on the markers that are
    both in the sample's gap marker set and among the distinct axis values of
    its infill coordinates: these markers, in ascending order, are what the
    range grouper receives; an integer lies in a produced range exactly when
    it is such a marker; markers of the set that no infill coordinate carries
    change nothing of the result; and with the gap markers 1, 2, 5 and infill
    coordinates at the axis values 1 and 2 only, the one range (1, 2) is
    produced and 5 is in no range. *)
Theorem gap_grouping_is_presence_filtered
  (self : t) (s_pred s_target : SparseTensor)
  (gaps : list Z) (infill_coords : list coord) (coord_idx : nat)
  (skip_adc skip_npixel : bool) :
  let present m := exists c, In c infill_coords /\ col coord_idx c = m in
  let active := active_gap_coords (py_set gaps) infill_coords coord_idx in
  let ranges := _get_edge_ranges active in
  (forall m, In m active <-> In m gaps /\ present m)
  /\ Sorted Z.lt active
  /\ is_maximal_runs active ranges
  /\ (forall v, holds v ranges <-> In v gaps /\ present v)
  /\ (forall gaps',
        (forall m, present m -> (In m gaps <-> In m gaps')) ->
        _get_gap_losses self s_pred s_target (py_set gaps') infill_coords
          coord_idx skip_adc skip_npixel
        = _get_gap_losses self s_pred s_target (py_set gaps) infill_coords
            coord_idx skip_adc skip_npixel)
  /\ (let infill := [Coord 0 1 0 0; Coord 0 2 5 7; Coord 0 1 3 3;
                     Coord 0 2 0 1] in
      active_gap_coords (py_set [1; 2; 5]) infill 1 = [1; 2]
      /\ _get_edge_ranges (active_gap_coords (py_set [1; 2; 5]) infill 1)
         = [(1, 2)]
      /\ ~ holds 5
            (_get_edge_ranges (active_gap_coords (py_set [1; 2; 5]) infill 1))).
Proof.
  intros present active ranges.
  assert (Hact : forall m, In m active <-> In m gaps /\ present m).
  { intros m. unfold active. rewrite active_gap_coords_In, py_set_In.
    reflexivity. }
  pose proof (edge_ranges_is_maximal_runs active) as Hmax.
  split; [exact Hact|]. split; [apply active_gap_coords_Sorted|].
  split; [exact Hmax|]. split; [|split].
  - intros v. destruct Hmax as (_ & _ & Hcov). fold ranges in Hcov.
    rewrite <- Hcov. apply Hact.
  - intros gaps' Hsame. unfold _get_gap_losses.
    rewrite (@active_gap_coords_ext (py_set gaps') (py_set gaps)); [reflexivity|].
    intros c Hc. rewrite !py_set_In. symmetry. apply Hsame. now exists c.
  - cbv zeta. split; [reflexivity|]. split; [reflexivity|].
    change (_get_edge_ranges _) with [(1, 2)].
    intros (r & [<-|[]] & Hv). simpl in Hv. lia.
Qed.

Lemma py_range_nonempty (a b : Z) : a <= b -> py_range a (b + 1) <> [].
Proof.
  intros Hab Hnil. assert (Hin : In a (py_range a (b + 1))).
  { apply In_py_range. lia. }
  rewrite Hnil in Hin. destruct Hin.
Qed.

(** Every range built from the active markers is a proper interval that
    starts at an active marker, hence selects an infill coordinate. *)
Lemma ranges_select_coords (gaps : list Z) (infill_coords : list coord)
  (coord_idx : nat) :
  Forall (fun r =>
            fst r <= snd r
            /\ In (fst r) (active_gap_coords gaps infill_coords coord_idx)
            /\ gap_coords infill_coords coord_idx (fst r) (snd r) <> [])
         (_get_edge_ranges (active_gap_coords gaps infill_coords coord_idx)).
Proof.
  destruct (edge_ranges_is_maximal_runs
              (active_gap_coords gaps infill_coords coord_idx))
    as (Hle & _ & Hcov).
  apply Forall_forall. intros r Hr.
  rewrite Forall_forall in Hle. specialize (Hle r Hr).
  assert (Hact : In (fst r) (active_gap_coords gaps infill_coords coord_idx)).
  { apply Hcov. exists r. split; [exact Hr|lia]. }
  split; [exact Hle|]. split; [exact Hact|].
  apply active_gap_coords_In in Hact. destruct Hact as (_ & c & Hc & Hcol).
  intros Hnil.
  assert (Hin : In c (gap_coords infill_coords coord_idx (fst r) (snd r))).
  { apply gap_coords_In. split; [exact Hc|lia]. }
  rewrite Hnil in Hin. destruct Hin.
Qed.

Lemma apply_crit_scalars (c : criterion) (p q : R) :
  exists v, apply_crit c (scalar p) (scalar q) = Ok v.
Proof.
  unfold apply_crit, scalar, reduce_crit.
  cbn [t_shape t_entries shape_eqb combine map List.length].
  destruct (crit_reduction c); eexists; reflexivity.
Qed.

Lemma tensor_div_int_ok (x : R) (n : nat) :
  n <> 0%nat -> tensor_div_int x n = Ok (x / INR n)%R.
Proof. destruct n; [congruence|reflexivity]. Qed.

Lemma tensor_div_ok (x d : R) : d <> 0%R -> tensor_div x d = Ok (x / d)%R.
Proof.
  intros Hd. unfold tensor_div, Reqb.
  destruct (Req_dec_T d 0); [contradiction|reflexivity].
Qed.

Lemma length_nonzero {A : Type} (l : list A) : l <> [] -> List.length l <> 0%nat.
Proof. destruct l; [congruence|discriminate]. Qed.

Section GapLosses.

Variables (self : t) (cs : criteria) (s_pred s_target : SparseTensor).
Variables (infill_coords : list coord) (coord_idx : nat).
Variables (skip_adc skip_npixel : bool).

Hypothesis crits_set : crits self = Some cs.
Hypothesis threshold_set :
  skip_npixel = false -> exists thr, adc_threshold self = Some thr /\ thr <> 0%R.

Lemma gap_loss_adc_ok (coords : list coord) :
  coords <> [] -> exists v, gap_loss_adc self s_pred s_target coords = Ok v.
Proof.
  intros Hne. apply length_nonzero in Hne.
  unfold gap_loss_adc, attr. rewrite crits_set. cbn [bind].
  rewrite !tensor_div_int_ok by exact Hne. cbn [bind].
  apply apply_crit_scalars.
Qed.

Lemma gap_loss_npixel_ok (coords : list coord) :
  skip_npixel = false -> coords <> [] ->
  exists v, gap_loss_npixel self s_pred s_target coords = Ok v.
Proof.
  intros Hskip Hne. apply length_nonzero in Hne.
  destruct (threshold_set Hskip) as (thr & Hthr & Hnz).
  unfold gap_loss_npixel, npixel_count, attr. rewrite crits_set, Hthr.
  cbn [bind]. rewrite !tensor_div_ok by exact Hnz. cbn [bind].
  rewrite !tensor_div_int_ok by exact Hne. cbn [bind].
  apply apply_crit_scalars.
Qed.

Lemma range_loop_ok (ranges : list (Z * Z)) :
  Forall (fun r => fst r <= snd r
                   /\ gap_coords infill_coords coord_idx (fst r) (snd r) <> [])
         ranges ->
  forall st, exists ls,
    foldM (range_body self s_pred s_target infill_coords coord_idx
             skip_adc skip_npixel) st ranges = Ok ls
    /\ grown skip_adc (List.length ranges) (fst st) (fst ls)
    /\ grown skip_npixel (List.length ranges) (snd st) (snd ls).
Proof.
  unfold grown.
  induction 1 as [|[s e] ranges [Hle Hsel] _ IH]; intros st.
  - exists st. cbn [foldM List.length]. destruct skip_adc, skip_npixel; auto.
  - cbn [foldM range_body fst snd] in *.
    destruct (py_range s (e + 1)) eqn:Hrng;
      [now apply py_range_nonempty in Hrng|].
    assert (Hadc : exists l,
      (if skip_adc then Ok (fst st)
       else v <- gap_loss_adc self s_pred s_target
                   (gap_coords infill_coords coord_idx s e) ;;
            Ok (fst st ++ [v])) = Ok l
      /\ List.length l
         = (List.length (fst st) + (if skip_adc then 0 else 1))%nat).
    { destruct skip_adc.
      - exists (fst st). split; [reflexivity|lia].
      - destruct (gap_loss_adc_ok Hsel) as (v & ->). cbn [bind].
        exists (fst st ++ [v]). split; [reflexivity|].
        rewrite length_app. reflexivity. }
    assert (Hnpx : exists l,
      (if skip_npixel then Ok (snd st)
       else v <- gap_loss_npixel self s_pred s_target
                   (gap_coords infill_coords coord_idx s e) ;;
            Ok (snd st ++ [v])) = Ok l
      /\ List.length l
         = (List.length (snd st) + (if skip_npixel then 0 else 1))%nat).
    { destruct (sumbool_of_bool skip_npixel) as [Hskip|Hskip]; rewrite Hskip.
      - exists (snd st). split; [reflexivity|lia].
      - destruct (gap_loss_npixel_ok Hskip Hsel) as (v & ->). cbn [bind].
        exists (snd st ++ [v]). split; [reflexivity|].
        rewrite length_app. reflexivity. }
    destruct Hadc as (la & -> & Hla). destruct Hnpx as (ln & -> & Hln).
    cbn [bind]. destruct (IH (la, ln)) as (ls & Hls & Ha & Hn).
    exists ls. split; [exact Hls|]. cbn [fst snd] in Ha, Hn.
    cbn [List.length].
    destruct skip_adc, skip_npixel; lia.
Qed.

End GapLosses.

(** C10: when the active gap markers of [_get_gap_losses] are not empty, the
    list of ranges is not empty and every range is a proper interval that
    selects at least one infill coordinate, so no division by the number of
    selected coordinates and no division by the number of per-range losses is
    a division by zero: the loop over the ranges yields one loss per range
    for every term that is not skipped, and the call returns.  (The criteria
    are taken as set and, where the npixel term is computed, the threshold as
    a non-zero number, which are the other two ways the call could fail.) *)
Theorem gap_losses_never_divide_by_zero
  (self : t) (cs : criteria) (s_pred s_target : SparseTensor)
  (gaps : list Z) (infill_coords : list coord) (coord_idx : nat)
  (skip_adc skip_npixel : bool) :
  crits self = Some cs ->
  (skip_npixel = false ->
   exists thr, adc_threshold self = Some thr /\ thr <> 0%R) ->
  let active := active_gap_coords gaps infill_coords coord_idx in
  let ranges := _get_edge_ranges active in
  active <> [] ->
  ranges <> []
  /\ Forall (fun r =>
               fst r <= snd r
               /\ (0 < List.length
                         (gap_coords infill_coords coord_idx (fst r) (snd r)))%nat)
            ranges
  /\ (exists ls,
        foldM (range_body self s_pred s_target infill_coords coord_idx
                 skip_adc skip_npixel) ([], []) ranges = Ok ls
        /\ (skip_adc = false -> List.length (fst ls) = List.length ranges)
        /\ (skip_npixel = false -> List.length (snd ls) = List.length ranges))
  /\ (exists adc npixel,
        _get_gap_losses self s_pred s_target gaps infill_coords coord_idx
          skip_adc skip_npixel = Ok (adc, npixel)).
Proof.
  intros Hcrits Hthr active ranges Hactive.
  assert (Hne : ranges <> []) by now apply edge_ranges_nonempty.
  pose proof (ranges_select_coords gaps infill_coords coord_idx) as Hsel.
  fold active in Hsel. fold ranges in Hsel.
  assert (Hsel' : Forall (fun r => fst r <= snd r
            /\ gap_coords infill_coords coord_idx (fst r) (snd r) <> []) ranges).
  { eapply Forall_impl; [|exact Hsel]. cbv beta. tauto. }
  destruct (@range_loop_ok self cs s_pred s_target infill_coords coord_idx
              skip_adc skip_npixel Hcrits Hthr ranges Hsel' ([], []))
    as (ls & Hls & Ha & Hn).
  unfold grown in Ha, Hn. cbn [fst snd List.length Nat.add] in Ha, Hn.
  split; [exact Hne|]. split; [|split].
  - eapply Forall_impl; [|exact Hsel']. cbv beta. intros r [Hle Hr].
    split; [exact Hle|]. apply length_nonzero in Hr. lia.
  - exists ls. split; [exact Hls|].
    split; intros ->; assumption.
  - unfold _get_gap_losses. fold active. fold ranges.
    destruct (skip_adc && skip_npixel); [now exists 0%R, 0%R|].
    destruct active as [|a rest] eqn:Hact; [now contradiction Hactive|].
    rewrite Hls. cbn [bind].
    apply length_nonzero in Hne.
    assert (Hadc : exists v, (if skip_adc then Ok 0%R
               else py_sum_div (fst ls) (List.length (fst ls))) = Ok v).
    { destruct skip_adc; [now exists 0%R|]. rewrite Ha.
      unfold py_sum_div. destruct (List.length ranges); [congruence|].
      eexists; reflexivity. }
    assert (Hnpx : exists v, (if skip_npixel then Ok 0%R
               else py_sum_div (snd ls) (List.length (snd ls))) = Ok v).
    { destruct skip_npixel; [now exists 0%R|]. rewrite Hn.
      unfold py_sum_div. destruct (List.length ranges); [congruence|].
      eexists; reflexivity. }
    destruct Hadc as (va & ->). destruct Hnpx as (vn & ->). cbn [bind].
    now exists va, vn.
Qed.

(** Every sample adds one entry to each of the four lists of gap losses,
    whatever its markers, so a sample without active markers stays in the
    batch average. *)
Lemma gap_lists_length (self : t) (s_pred s_target : SparseTensor)
  (sel : list coord * list coord * list coord) (data : batch_data)
  (batch : list nat) :
  forall st0 ls,
    foldM (loop_body self s_pred s_target sel data) st0 batch = Ok ls ->
    List.length (losses_x_gap_adc ls)
    = (List.length (losses_x_gap_adc st0) + List.length batch)%nat
    /\ List.length (losses_x_gap_npixel ls)
       = (List.length (losses_x_gap_npixel st0) + List.length batch)%nat
    /\ List.length (losses_z_gap_adc ls)
       = (List.length (losses_z_gap_adc st0) + List.length batch)%nat
    /\ List.length (losses_z_gap_npixel ls)
       = (List.length (losses_z_gap_npixel st0) + List.length batch)%nat.
Proof.
  induction batch as [|i batch IH]; intros st0 ls Hrun.
  - cbn in Hrun. inversion Hrun; subst. cbn. lia.
  - cbn [foldM] in Hrun.
    destruct (loop_body self s_pred s_target sel data st0 i) as [st1|e]
      eqn:Hbody; [cbn [bind] in Hrun|discriminate].
    destruct (IH st1 ls Hrun) as (I1 & I2 & I3 & I4).
    unfold loop_body in Hbody. destruct sel as [[ic icz] icnz].
    repeat match type of Hbody with
      | bind ?m _ = Ok _ => destruct m; [cbn [bind] in Hbody|discriminate Hbody]
      end.
    inversion Hbody; subst st1; clear Hbody.
    cbn [losses_x_gap_adc losses_x_gap_npixel losses_z_gap_adc
         losses_z_gap_npixel] in *.
    rewrite length_app in I1, I2, I3, I4. cbn [List.length] in *. lia.
Qed.

(** The empty case of gap mode: with no active marker both terms of the
    sample are the explicit zero. *)
Lemma gap_losses_without_active_markers
  (self : t) (s_pred s_target : SparseTensor)
  (gaps : list Z) (infill_coords : list coord) (coord_idx : nat)
  (skip_adc skip_npixel : bool) :
  active_gap_coords gaps infill_coords coord_idx = [] ->
  _get_gap_losses self s_pred s_target gaps infill_coords coord_idx
    skip_adc skip_npixel = Ok (0%R, 0%R).
Proof.
  intros Hnil. unfold _get_gap_losses. rewrite Hnil.
  now destruct (skip_adc && skip_npixel).
Qed.

Lemma gapwise_self_constructed :
  GapWise.__init__ Examples.gapwise_conf = Ok Examples.gapwise_self.
Proof.
  unfold GapWise.__init__. cbn. Rbool. reflexivity.
Qed.

Lemma gap_grouping_is_presence_filtered_witness :
  _get_gap_losses Examples.gapwise_self Examples.s_pred Examples.s_target
    (py_set [1; 2]) Examples.infill 1 false false
  = _get_gap_losses Examples.gapwise_self Examples.s_pred Examples.s_target
      (py_set [1; 2; 5]) Examples.infill 1 false false.
Proof.
  apply (proj1 (proj2 (proj2 (proj2 (proj2
    (gap_grouping_is_presence_filtered Examples.gapwise_self
       Examples.s_pred Examples.s_target [1; 2; 5] Examples.infill 1
       false false)))))).
  intros m (c & Hc & <-). simpl in Hc.
  destruct Hc as [<-|[<-|[<-|[]]]]; simpl; intuition lia.
Defined.

Lemma gap_losses_never_divide_by_zero_witness :
  exists adc npixel,
    _get_gap_losses Examples.gapwise_self Examples.s_pred Examples.s_target
      (py_set [1; 2; 5]) Examples.infill 1 false false = Ok (adc, npixel).
Proof.
  refine (proj2 (proj2 (proj2
    (@gap_losses_never_divide_by_zero Examples.gapwise_self _
       Examples.s_pred Examples.s_target (py_set [1; 2; 5]) Examples.infill 1
       false false eq_refl _ _)))).
  - intros _. exists 1%R. split; [reflexivity|lra].
  - vm_compute. discriminate.
Defined.

End GapWiseFacts.

(** ** Plane mode *)

Module PlaneWiseFacts.

Import GapWiseFacts PlaneWise.
Open Scope Z_scope.

Lemma plane_coords_In (infill_coords : list coord) (coord_idx : nat)
  (gap_coord : Z) (c : coord) :
  In c (plane_coords infill_coords coord_idx gap_coord)
  <-> In c infill_coords /\ col coord_idx c = gap_coord.
Proof.
  unfold plane_coords. rewrite mask_select_map, filter_In, Z.eqb_eq.
  reflexivity.
Qed.

(** The coordinates of a plane are those of the one-marker range of gap
    mode. *)
Lemma plane_coords_singleton_range (infill_coords : list coord)
  (coord_idx : nat) (m : Z) :
  plane_coords infill_coords coord_idx m
  = GapWise.gap_coords infill_coords coord_idx m m.
Proof.
  unfold plane_coords, GapWise.gap_coords, GapWise.gap_mask.
  rewrite map_map, !mask_select_map. apply filter_ext. intros c.
  unfold py_range. replace (m + 1 - m) with 1 by lia.
  change (Z.to_nat 1) with 1%nat.
  cbn [seq map fold_left Z.of_nat].
  rewrite Z.add_0_r. now destruct (col coord_idx c =? m).
Qed.

Section PlaneLosses.

Variables (self : t) (cs : criteria) (s_pred s_target : SparseTensor).
Variables (skip_adc skip_npixel : bool).

Hypothesis crits_set : crits self = Some cs.
Hypothesis threshold_set :
  skip_npixel = false -> exists thr, adc_threshold self = Some thr /\ thr <> 0%R.

Lemma plane_loss_adc_ok (coords : list coord) :
  exists v, plane_loss_adc self s_pred s_target coords = Ok v.
Proof.
  unfold plane_loss_adc, attr. rewrite crits_set. cbn [bind].
  apply apply_crit_scalars.
Qed.

Lemma plane_loss_npixel_ok (coords : list coord) :
  skip_npixel = false ->
  exists v, plane_loss_npixel self s_pred s_target coords = Ok v.
Proof.
  intros Hskip. destruct (threshold_set Hskip) as (thr & Hthr & Hnz).
  unfold plane_loss_npixel, npixel_count, attr. rewrite crits_set, Hthr.
  cbn [bind]. rewrite !tensor_div_ok by exact Hnz. cbn [bind].
  apply apply_crit_scalars.
Qed.

Lemma plane_loop_ok (groups : list (Z * list coord)) :
  forall st, exists ls,
    foldM (plane_body self s_pred s_target skip_adc skip_npixel) st groups
    = Ok ls
    /\ grown skip_adc (List.length groups) (fst st) (fst ls)
    /\ grown skip_npixel (List.length groups) (snd st) (snd ls).
Proof.
  unfold grown.
  induction groups as [|g groups IH]; intros st.
  - exists st. cbn [foldM List.length]. destruct skip_adc, skip_npixel; auto.
  - cbn [foldM]. unfold plane_body at 1. cbv zeta.
    assert (Hadc : exists l,
      (if skip_adc then Ok (fst st)
       else v <- plane_loss_adc self s_pred s_target (snd g) ;;
            Ok (fst st ++ [v])) = Ok l
      /\ List.length l
         = (List.length (fst st) + (if skip_adc then 0 else 1))%nat).
    { destruct skip_adc.
      - exists (fst st). split; [reflexivity|lia].
      - destruct (plane_loss_adc_ok (snd g)) as (v & ->). cbn [bind].
        exists (fst st ++ [v]). split; [reflexivity|].
        rewrite length_app. reflexivity. }
    assert (Hnpx : exists l,
      (if skip_npixel then Ok (snd st)
       else v <- plane_loss_npixel self s_pred s_target (snd g) ;;
            Ok (snd st ++ [v])) = Ok l
      /\ List.length l
         = (List.length (snd st) + (if skip_npixel then 0 else 1))%nat).
    { destruct (sumbool_of_bool skip_npixel) as [Hskip|Hskip]; rewrite Hskip.
      - exists (snd st). split; [reflexivity|lia].
      - destruct (plane_loss_npixel_ok (snd g) Hskip) as (v & ->). cbn [bind].
        exists (snd st ++ [v]). split; [reflexivity|].
        rewrite length_app. reflexivity. }
    destruct Hadc as (la & -> & Hla). destruct Hnpx as (ln & -> & Hln).
    cbn [bind]. destruct (IH (la, ln)) as (ls & Hls & Ha & Hn).
    exists ls. split; [exact Hls|]. cbn [fst snd] in Ha, Hn.
    cbn [List.length].
    destruct skip_adc, skip_npixel; lia.
Qed.

End PlaneLosses.

(** The sum of a list does not depend on the order of its entries. *)
Lemma fold_left_Rplus_acc (l : list R) (acc : R) :
  fold_left Rplus l acc = (acc + py_sum l)%R.
Proof.
  unfold py_sum. revert acc. induction l as [|x l IH]; intros acc;
    cbn [fold_left].
  - lra.
  - rewrite IH, (IH (0 + x)%R). lra.
Qed.

Lemma py_sum_Permutation (l l' : list R) :
  Permutation l l' -> py_sum l = py_sum l'.
Proof.
  assert (Hcons : forall x t, py_sum (x :: t) = (x + py_sum t)%R).
  { intros x t. unfold py_sum at 1. cbn [fold_left].
    rewrite fold_left_Rplus_acc. lra. }
  induction 1 as [|x l l' _ IH|x y l|l l' l'' _ IH1 _ IH2].
  - reflexivity.
  - now rewrite !Hcons, IH.
  - rewrite !Hcons. lra.
  - now rewrite IH1.
Qed.

Lemma mapM_values {A B : Type} (f : A -> result B) (g : A -> B) (l : list A) :
  (forall x, In x l -> f x = Ok (g x)) -> mapM f l = Ok (map g l).
Proof.
  induction l as [|x l IH]; intros Hf; [reflexivity|].
  cbn [mapM map]. rewrite Hf by now left. cbn [bind].
  rewrite IH by (intros y Hy; apply Hf; now right). reflexivity.
Qed.

Section PlaneValues.

Variables (self : t) (cs : criteria) (s_pred s_target : SparseTensor).
Variables (infill_coords : list coord) (coord_idx : nat).
Variables (skip_adc skip_npixel : bool).

Hypothesis crits_set : crits self = Some cs.
Hypothesis threshold_set :
  skip_npixel = false -> exists thr, adc_threshold self = Some thr /\ thr <> 0%R.

(** The two losses of the plane of a marker. *)
Let adc_of (m : Z) : R :=
  match plane_loss_adc self s_pred s_target
          (plane_coords infill_coords coord_idx m) with
  | Ok v => v
  | Raise _ => 0%R
  end.

Let npixel_of (m : Z) : R :=
  match plane_loss_npixel self s_pred s_target
          (plane_coords infill_coords coord_idx m) with
  | Ok v => v
  | Raise _ => 0%R
  end.

Lemma plane_loss_adc_value (m : Z) :
  plane_loss_adc self s_pred s_target (plane_coords infill_coords coord_idx m)
  = Ok (adc_of m).
Proof.
  unfold adc_of.
  destruct (@plane_loss_adc_ok self cs s_pred s_target crits_set
              (plane_coords infill_coords coord_idx m)) as [v ->].
  reflexivity.
Qed.

Lemma plane_loss_npixel_value (m : Z) :
  skip_npixel = false ->
  plane_loss_npixel self s_pred s_target
    (plane_coords infill_coords coord_idx m)
  = Ok (npixel_of m).
Proof.
  intros Hskip. unfold npixel_of.
  destruct (@plane_loss_npixel_ok self cs s_pred s_target skip_npixel
              crits_set threshold_set
              (plane_coords infill_coords coord_idx m) Hskip) as [v ->].
  reflexivity.
Qed.

(** The loop visits the markers in the order given and appends the loss of
    every one, whatever the plane of the marker holds. *)
Lemma plane_loop_values (ms : list Z) :
  forall st,
    foldM (plane_body self s_pred s_target skip_adc skip_npixel) st
      (plane_groups ms infill_coords coord_idx)
    = Ok (if skip_adc then fst st else fst st ++ map adc_of ms,
          if skip_npixel then snd st else snd st ++ map npixel_of ms).
Proof.
  induction ms as [|m ms IH]; intros [la ln].
  - cbn [plane_groups map foldM fst snd]. rewrite !app_nil_r.
    now destruct skip_adc, skip_npixel.
  - change (plane_groups (m :: ms) infill_coords coord_idx)
      with ((m, plane_coords infill_coords coord_idx m)
            :: plane_groups ms infill_coords coord_idx).
    cbn [foldM]. unfold plane_body at 1. cbv zeta.
    cbn [fst snd]. rewrite plane_loss_adc_value.
    destruct (sumbool_of_bool skip_npixel) as [Hskip|Hskip].
    + rewrite Hskip in IH |- *.
      destruct skip_adc; cbn [bind]; rewrite IH; cbn [fst snd map];
        rewrite <- ?app_assoc; reflexivity.
    + rewrite (plane_loss_npixel_value m Hskip). rewrite Hskip in IH |- *.
      destruct skip_adc; cbn [bind]; rewrite IH; cbn [fst snd map];
        rewrite <- ?app_assoc; reflexivity.
Qed.

(** The pair [_get_plane_losses] returns over markers that are not none:
    for a term that is not skipped, the mean of the losses of all the
    markers. *)
Lemma plane_losses_value (ms : list Z) :
  ms <> [] ->
  _get_plane_losses self s_pred s_target ms infill_coords coord_idx
    skip_adc skip_npixel
  = Ok ((if skip_adc then 0
         else py_sum (map adc_of ms) / INR (List.length ms))%R,
        (if skip_npixel then 0
         else py_sum (map npixel_of ms) / INR (List.length ms))%R).
Proof.
  intros Hne. unfold _get_plane_losses.
  destruct (skip_adc && skip_npixel) eqn:Hboth.
  - apply andb_true_iff in Hboth. destruct Hboth as [-> ->]. reflexivity.
  - rewrite plane_loop_values. cbn [bind fst snd app].
    assert (Hdiv : forall l : list R,
              List.length l = List.length ms ->
              py_sum_div l (List.length l)
              = Ok (py_sum l / INR (List.length ms))%R).
    { intros l Hl. rewrite Hl. unfold py_sum_div.
      destruct (List.length ms) eqn:Hlen; [|reflexivity].
      destruct ms; [congruence|discriminate]. }
    destruct skip_adc, skip_npixel; try discriminate; cbn [bind];
      rewrite ?Hdiv by apply length_map; reflexivity.
Qed.

End PlaneValues.

(** C5: in plane mode [_get_plane_losses] forms one group per distinct
    marker of the set, the coordinates of the one-marker range
    (marker, marker), whether or not the marker occurs among the sample's
    infill coordinates.  Whatever the order in which the set is iterated:
    the call returns a pair; a term that is not skipped is the sum of one
    loss per marker, the loss over the infill coordinates whose axis value
    is the marker, divided by the number of distinct markers, with no
    condition on the infill coordinates; and the pair does not depend on
    the order. *)
Theorem plane_grouping_one_group_per_marker
  (self : t) (cs : criteria) (s_pred s_target : SparseTensor)
  (gaps order : list Z) (infill_coords : list coord) (coord_idx : nat)
  (skip_adc skip_npixel : bool) :
  crits self = Some cs ->
  (skip_npixel = false ->
   exists thr, adc_threshold self = Some thr /\ thr <> 0%R) ->
  gaps <> [] ->
  Permutation order (py_set gaps) ->
  let n := List.length (py_set gaps) in
  let group m := GapWise.gap_coords infill_coords coord_idx m m in
  (forall m c, In c (group m) <-> In c infill_coords /\ col coord_idx c = m)
  /\ (exists loss_adc loss_npixel,
        _get_plane_losses self s_pred s_target order infill_coords coord_idx
          skip_adc skip_npixel = Ok (loss_adc, loss_npixel)
        /\ (skip_adc = false ->
            exists adcs,
              mapM (fun m => plane_loss_adc self s_pred s_target (group m))
                order = Ok adcs
              /\ List.length adcs = n
              /\ loss_adc = (py_sum adcs / INR n)%R)
        /\ (skip_npixel = false ->
            exists npixels,
              mapM (fun m => plane_loss_npixel self s_pred s_target (group m))
                order = Ok npixels
              /\ List.length npixels = n
              /\ loss_npixel = (py_sum npixels / INR n)%R))
  /\ (forall order',
        Permutation order' order ->
        _get_plane_losses self s_pred s_target order' infill_coords coord_idx
          skip_adc skip_npixel
        = _get_plane_losses self s_pred s_target order infill_coords coord_idx
            skip_adc skip_npixel).
Proof.
  intros Hcrits Hthr Hgaps Hperm n group.
  assert (Hlen : List.length order = n)
    by (unfold n; now apply Permutation_length).
  assert (Hne : order <> []).
  { intros ->. apply Permutation_nil in Hperm.
    destruct gaps as [|g gaps']; [congruence|].
    assert (Hin : In g (py_set (g :: gaps')))
      by (apply py_set_In; now left).
    rewrite Hperm in Hin. destruct Hin. }
  split; [|split].
  - intros m c. unfold group. rewrite <- plane_coords_singleton_range.
    apply plane_coords_In.
  - rewrite (@plane_losses_value self cs s_pred s_target infill_coords
               coord_idx skip_adc skip_npixel Hcrits Hthr order Hne).
    eexists. eexists. split; [reflexivity|]. split.
    + intros ->. eexists. split; [|split].
      * apply mapM_values. intros m _. unfold group.
        rewrite <- plane_coords_singleton_range.
        now apply (@plane_loss_adc_value self cs s_pred s_target).
      * rewrite length_map. exact Hlen.
      * now rewrite Hlen.
    + intros Hskip. rewrite Hskip. eexists. split; [|split].
      * apply mapM_values. intros m _. unfold group.
        rewrite <- plane_coords_singleton_range.
        apply (@plane_loss_npixel_value self cs s_pred s_target infill_coords
                 coord_idx skip_npixel Hcrits Hthr m Hskip).
      * rewrite length_map. exact Hlen.
      * now rewrite Hlen.
  - intros order' Hperm'.
    assert (Hne' : order' <> []).
    { intros ->. apply Permutation_nil in Hperm'. contradiction. }
    rewrite !(@plane_losses_value self cs s_pred s_target infill_coords
                coord_idx skip_adc skip_npixel Hcrits Hthr) by assumption.
    rewrite (Permutation_length Hperm').
    rewrite (py_sum_Permutation (Permutation_map _ Hperm')).
    now rewrite (py_sum_Permutation (Permutation_map _ Hperm')).
Qed.

Lemma planewise_self_constructed :
  PlaneWise.__init__ Examples.planewise_conf = Ok Examples.planewise_self.
Proof.
  unfold PlaneWise.__init__. cbn. Rbool. reflexivity.
Qed.

(** An instance: the markers 5, 9, 12 in the order 9, 12, 5, over infill
    coordinates on none of their planes, still give three losses. *)
Lemma plane_grouping_one_group_per_marker_witness :
  exists loss_adc loss_npixel adcs,
    _get_plane_losses Examples.planewise_self Examples.s_pred
      Examples.s_target [9; 12; 5] Examples.infill 1 false false
    = Ok (loss_adc, loss_npixel)
    /\ mapM (fun m => plane_loss_adc Examples.planewise_self Examples.s_pred
                        Examples.s_target
                        (GapWise.gap_coords Examples.infill 1 m m))
         [9; 12; 5] = Ok adcs
    /\ List.length adcs = 3%nat.
Proof.
  destruct (@plane_grouping_one_group_per_marker Examples.planewise_self _
              Examples.s_pred Examples.s_target [5; 9; 12] [9; 12; 5]
              Examples.infill 1 false false eq_refl)
    as (_ & (loss_adc & loss_npixel & Hret & Hadc & _) & _).
  - intros _. exists 1%R. split; [reflexivity|lra].
  - discriminate.
  - change (py_set [5; 9; 12]) with [5; 9; 12].
    apply Permutation_sym, (Permutation_cons_app [9; 12] []).
    apply Permutation_refl.
  - destruct (Hadc eq_refl) as (adcs & Hmap & Hlen & _).
    exists loss_adc, loss_npixel, adcs. now repeat split.
Defined.

(** C7, the plane-mode half: over an empty marker set, a term that is not
    skipped divides the int 0 of the empty sum by the length 0 of the empty
    list of plane losses, which raises, where gap mode returns the explicit
    zero; a batch holding such a sample makes [calc_loss] raise. *)
Theorem plane_losses_empty_marker_set_raises
  (self : t) (s_pred s_target : SparseTensor)
  (infill_coords : list coord) (coord_idx : nat) :
  _get_plane_losses self s_pred s_target (py_set []) infill_coords coord_idx
    false false = Raise ZeroDivisionError
  /\ _get_plane_losses self s_pred s_target (py_set []) infill_coords coord_idx
       false true = Raise ZeroDivisionError
  /\ _get_plane_losses self s_pred s_target (py_set []) infill_coords coord_idx
       true false = Raise ZeroDivisionError
  /\ calc_loss Examples.planewise_self Examples.s_pred Examples.s_in
       Examples.s_target Examples.data_no_markers = Raise ZeroDivisionError
  /\ GapWise._get_gap_losses Examples.gapwise_self Examples.s_pred
       Examples.s_target (py_set []) infill_coords coord_idx false false
     = Ok (0%R, 0%R).
Proof.
  repeat split; try reflexivity.
  - unfold calc_loss. cbn [Examples.data_no_markers mask_x List.length seq foldM].
    unfold loop_body, _get_infill_coords, append_when.
    cbn [Examples.planewise_self lambda_loss_infill_zero
         lambda_loss_infill_nonzero lambda_loss_infill
         lambda_loss_x_planes_adc lambda_loss_x_planes_npixel].
    unfold truthy. Rbool. reflexivity.
  - apply gap_losses_without_active_markers.
    unfold GapWise.active_gap_coords. cbn [py_set nodup].
    induction (sorted_set (map (col coord_idx) infill_coords)) as [|a l IH];
      [reflexivity|exact IH].
Qed.

End PlaneWiseFacts.

(** ** Construction: names and thresholds *)

Module ConstructionFacts.

Open Scope R_scope.

Ltac name_cases conf :=
  repeat match goal with
    | |- context [String.eqb (loss_func conf) ?s] =>
        let H := fresh "Hname" in
        destruct (String.eqb_spec (loss_func conf) s) as [H|H];
        [exfalso; symmetry in H; tauto|]
    end.

(** The factory raises on every name outside its list, and the message holds
    the name. *)
Lemma init_loss_func_unknown_name (conf : config) :
  ~ In (loss_func conf) factory_names ->
  init_loss_func conf = Raise (ValueError (not_valid_msg (loss_func conf)))
  /\ not_valid_msg (loss_func conf)
     = ("loss_func=" ++ loss_func conf ++ " not valid")%string.
Proof.
  intros Hname. split; [|reflexivity].
  unfold init_loss_func. unfold factory_names in Hname. cbn [In] in Hname.
  name_cases conf. reflexivity.
Qed.

(** PixelWise raises on every name it does not know. *)
Lemma pixelwise_init_unknown_name (conf : config) :
  ~ In (loss_func conf) pixelwise_names ->
  PixelWise.__init__ conf
  = Raise (NotImplementedError (not_valid_msg (loss_func conf))).
Proof.
  intros Hname. unfold PixelWise.__init__.
  unfold pixelwise_names in Hname. cbn [In] in Hname.
  name_cases conf. reflexivity.
Qed.

(** GapWise and PlaneWise have no such test: the name only decides whether
    the criterion attributes are assigned. *)
Lemma gapwise_init_any_name (conf : config) (thr : R) :
  conf_adc_threshold conf = Some (Some thr) -> thr <> 0 ->
  exists self, GapWise.__init__ conf = Ok self.
Proof.
  intros Hthr Hnz. unfold GapWise.__init__. rewrite Hthr. cbn [bind].
  cbn [GapWise.adc_threshold GapWise.is_None GapWise.eq_zero orb].
  rewrite (Reqb_false Hnz). cbn [andb]. eexists. reflexivity.
Qed.

(** What the threshold test of GapWise does, case by case. *)
Lemma gapwise_init_threshold (conf : config) :
  match conf_adc_threshold conf with
  | None => GapWise.__init__ conf = Raise AttributeError
  | Some None => exists msg, GapWise.__init__ conf = Raise (ValueError msg)
  | Some (Some thr) =>
      if Reqb thr 0
         && (truthy (getattr (loss_x_gaps_npixel_weight conf) 0)
             || truthy (getattr (loss_z_gaps_npixel_weight conf) 0))
      then exists msg, GapWise.__init__ conf = Raise (ValueError msg)
      else exists self, GapWise.__init__ conf = Ok self
  end.
Proof.
  unfold GapWise.__init__.
  destruct (conf_adc_threshold conf) as [[thr|]|]; cbn [bind].
  - cbn [GapWise.adc_threshold GapWise.is_None GapWise.eq_zero orb
         GapWise.lambda_loss_x_gaps_npixel GapWise.lambda_loss_z_gaps_npixel].
    destruct (Reqb thr 0 && _); eexists; reflexivity.
  - eexists. reflexivity.
  - reflexivity.
Qed.

(** What the threshold test of PlaneWise does, case by case. *)
Lemma planewise_init_threshold (conf : config) :
  match conf_adc_threshold conf with
  | None => PlaneWise.__init__ conf = Raise AttributeError
  | Some None =>
      if truthy (getattr (loss_x_planes_npixel_weight conf) 0)
         || truthy (getattr (loss_z_planes_npixel_weight conf) 0)
      then exists msg, PlaneWise.__init__ conf = Raise (ValueError msg)
      else exists self, PlaneWise.__init__ conf = Ok self
  | Some (Some thr) => exists self, PlaneWise.__init__ conf = Ok self
  end.
Proof.
  unfold PlaneWise.__init__.
  destruct (conf_adc_threshold conf) as [[thr|]|]; cbn [bind].
  - eexists. reflexivity.
  - cbn [PlaneWise.adc_threshold GapWise.is_None andb
         PlaneWise.lambda_loss_x_planes_npixel
         PlaneWise.lambda_loss_z_planes_npixel].
    destruct (truthy _ || truthy _); eexists; reflexivity.
  - reflexivity.
Qed.

(** A GapWise strategy that was constructed has a threshold, and a non-zero
    one if an npixel weight is enabled; under a name of the GapWise family,
    as the factory passes it, its criteria are set.  These are the conditions
    under which the gap losses are evaluated. *)
Lemma gapwise_init_ready (conf : config) (self : GapWise.t) :
  GapWise.__init__ conf = Ok self ->
  (exists thr, GapWise.adc_threshold self = Some thr
     /\ (truthy (GapWise.lambda_loss_x_gaps_npixel self) = true
         \/ truthy (GapWise.lambda_loss_z_gaps_npixel self) = true ->
         thr <> 0))
  /\ (In (loss_func conf)
         ["GapWise_L1Loss"; "GapWise_MSELoss";
          "GapWise_L1Loss_MSELossPixelWise"]%string ->
      exists cs, GapWise.crits self = Some cs).
Proof.
  unfold GapWise.__init__.
  destruct (conf_adc_threshold conf) as [[thr|]|]; cbn [bind];
    [|discriminate|discriminate].
  cbn [GapWise.adc_threshold GapWise.is_None GapWise.eq_zero orb
       GapWise.lambda_loss_x_gaps_npixel GapWise.lambda_loss_z_gaps_npixel].
  destruct (Reqb thr 0 && _) eqn:Htest; [discriminate|].
  intros Hself. inversion Hself; subst self; clear Hself.
  cbn [GapWise.adc_threshold GapWise.crits
       GapWise.lambda_loss_x_gaps_npixel GapWise.lambda_loss_z_gaps_npixel].
  split.
  - exists thr. split; [reflexivity|]. intros Hw Hz.
    apply andb_false_iff in Htest. destruct Htest as [Ht|Ht].
    + rewrite (Reqb_true Hz) in Ht. discriminate.
    + apply orb_false_iff in Ht. destruct Ht as [Hx Hzz].
      destruct Hw; congruence.
  - cbn [In]. intros [<-|[<-|[<-|[]]]]; cbn; eexists; reflexivity.
Qed.

(** C8 at its failing inputs.  GapWise with an npixel weight of 1 and the
    threshold -1 is constructed, although the message of its own test asks
    for a threshold "set and >0"; GapWise with the threshold None raises the
    threshold error although all npixel weights are 0 (the test reads
    [None or (== 0 and weights)]), and with the field absent it raises
    AttributeError; PlaneWise with an npixel weight of 1 and the threshold 0
    is constructed, where GapWise raises. *)
Theorem threshold_validation_failing_inputs :
  (exists self,
     GapWise.__init__ Examples.gapwise_negative_threshold_conf = Ok self
     /\ GapWise.adc_threshold self = Some (-1)
     /\ GapWise.lambda_loss_x_gaps_npixel self = 1)
  /\ (getattr (loss_x_gaps_npixel_weight Examples.gapwise_none_threshold_conf) 0 = 0
      /\ getattr (loss_z_gaps_npixel_weight Examples.gapwise_none_threshold_conf) 0 = 0
      /\ GapWise.__init__ Examples.gapwise_none_threshold_conf
         = Raise (ValueError
             "Need to have an adc threshold set and >0 for the final pruning layerin order to use npixel losses"))
  /\ GapWise.__init__ Examples.gapwise_absent_threshold_conf = Raise AttributeError
  /\ (exists self,
        PlaneWise.__init__ Examples.planewise_zero_threshold_conf = Ok self
        /\ PlaneWise.adc_threshold self = Some 0
        /\ PlaneWise.lambda_loss_x_planes_npixel self = 1).
Proof.
  split; [|split; [|split]].
  - unfold GapWise.__init__. cbn. Rbool. cbn. eexists.
    split; [reflexivity|]. split; reflexivity.
  - split; [reflexivity|]. split; reflexivity.
  - reflexivity.
  - unfold PlaneWise.__init__. cbn. eexists.
    split; [reflexivity|]. split; reflexivity.
Qed.

(** C9 at its failing inputs.  The factory and PixelWise raise on a name
    they do not know, with the name in the message; GapWise and PlaneWise
    given such a name return a strategy whose criterion attributes were
    never assigned, and the first loss evaluation then fails on the missing
    attribute. *)
Theorem unknown_name_failing_inputs :
  (exists self,
     GapWise.__init__ Examples.gapwise_unknown_name_conf = Ok self
     /\ GapWise.crits self = None
     /\ GapWise._get_loss_at_coords self Examples.s_pred Examples.s_target
          Examples.infill = Raise AttributeError)
  /\ (exists self,
        PlaneWise.__init__ Examples.planewise_unknown_name_conf = Ok self
        /\ PlaneWise.crits self = None
        /\ PlaneWise._get_loss_at_coords self Examples.s_pred Examples.s_target
             Examples.infill = Raise AttributeError)
  /\ init_loss_func Examples.gapwise_unknown_name_conf
     = Raise (ValueError "loss_func=GapWise_L1Loss_BCELoss not valid")
  /\ PixelWise.__init__ Examples.gapwise_unknown_name_conf
     = Raise (NotImplementedError "loss_func=GapWise_L1Loss_BCELoss not valid").
Proof.
  split; [|split; [|split]].
  - unfold GapWise.__init__. cbn. Rbool. cbn. eexists.
    split; [reflexivity|]. split; reflexivity.
  - unfold PlaneWise.__init__. cbn. eexists.
    split; [reflexivity|]. split; reflexivity.
  - reflexivity.
  - reflexivity.
Qed.

End ConstructionFacts.

(** ** Losses over an empty coordinate subset *)

Module EmptySubsetFacts.

Import PixelWise.
Open Scope R_scope.

Lemma pixelwise_init_criteria (conf : config) (self : t) :
  __init__ conf = Ok self ->
  exists m, crit self = Crit m Mean /\ crit_sumreduction self = Crit m Sum.
Proof.
  unfold __init__, L1Loss, MSELoss, BCEWithLogitsLoss. intros H.
  destruct (String.eqb (loss_func conf) "PixelWise_L1Loss");
    [|destruct (String.eqb (loss_func conf) "PixelWise_MSELoss");
      [|destruct (String.eqb (loss_func conf) "PixelWise_BCEWithLogitsLoss")]];
    cbn [bind fst snd] in H; inversion H; subst; cbn [crit crit_sumreduction];
    eexists; split; reflexivity.
Qed.

Lemma pointwise_zero (m : metric) :
  pointwise m 0 0 = match m with BCEWithLogits => ln 2 | _ => 0 end.
Proof.
  destruct m; cbn [pointwise].
  - replace (0 - 0) with 0 by lra. apply Rabs_R0.
  - lra.
  - rewrite Ropp_0, exp_0. replace (1 + 1) with 2 by lra. lra.
Qed.

Lemma ln_2_not_zero : ln 2 <> 0.
Proof. pose proof ln_lt_2. lra. Qed.

(** The elementwise loss over no coordinates: the sum-reduced criterion on
    two tensors without entries. *)
Lemma loss_at_no_coords (self : t) (s_pred s_target : SparseTensor) :
  crit_reduction (crit_sumreduction self) = Sum ->
  nchannels s_pred = nchannels s_target ->
  _get_loss_at_coords self s_pred s_target [] = Ok 0.
Proof.
  intros Hsum Hch. unfold _get_loss_at_coords. cbn [List.length].
  rewrite apply_crit_features by exact Hch. unfold reduce_crit.
  cbn [features_at_coordinates map squeeze List.concat combine].
  now rewrite Hsum.
Qed.

(** The aggregate loss over no coordinates: the sum-reduced criterion on the
    two sums, which are 0-dim tensors of value 0. *)
Lemma summed_loss_at_no_coords (self : t) (s_pred s_target : SparseTensor) :
  crit_reduction (crit_sumreduction self) = Sum ->
  _get_summed_loss_at_coords self s_pred s_target []
  = Ok (match crit_metric (crit_sumreduction self) with
        | BCEWithLogits => ln 2
        | _ => 0
        end).
Proof.
  intros Hsum. unfold _get_summed_loss_at_coords. cbn [List.length].
  rewrite apply_crit_scalar. unfold reduce_crit.
  cbn [List.length features_at_coordinates map squeeze List.concat combine
       fst snd].
  rewrite Hsum. unfold py_sum. cbn [fold_left]. rewrite pointwise_zero.
  f_equal. destruct (crit_metric (crit_sumreduction self)); lra.
Qed.

(** The elementwise losses of GapWise and PlaneWise over no coordinates. *)
Lemma gapwise_loss_at_no_coords (self : GapWise.t) (cs : GapWise.criteria)
  (s_pred s_target : SparseTensor) :
  GapWise.crits self = Some cs ->
  crit_reduction (GapWise.crit_adc_pixelwise_sumreduction cs) = Sum ->
  nchannels s_pred = nchannels s_target ->
  GapWise._get_loss_at_coords self s_pred s_target [] = Ok 0.
Proof.
  intros Hcs Hsum Hch. unfold GapWise._get_loss_at_coords, GapWise.attr.
  rewrite Hcs. cbn [List.length bind].
  rewrite apply_crit_features by exact Hch. unfold reduce_crit.
  cbn [features_at_coordinates map squeeze List.concat combine].
  now rewrite Hsum.
Qed.

Lemma planewise_loss_at_no_coords (self : PlaneWise.t) (cs : PlaneWise.criteria)
  (s_pred s_target : SparseTensor) :
  PlaneWise.crits self = Some cs ->
  crit_reduction (PlaneWise.crit_adc_sumreduction cs) = Sum ->
  nchannels s_pred = nchannels s_target ->
  PlaneWise._get_loss_at_coords self s_pred s_target [] = Ok 0.
Proof.
  intros Hcs Hsum Hch.
  unfold PlaneWise._get_loss_at_coords, PlaneWise.attr.
  rewrite Hcs. cbn [List.length bind].
  rewrite apply_crit_features by exact Hch. unfold reduce_crit.
  cbn [features_at_coordinates map squeeze List.concat combine].
  now rewrite Hsum.
Qed.

(** C6 as stated fails twice.  The aggregate loss of the BCE-with-logits
    strategy over an empty subset is ln 2, not 0.  And the elementwise loss
    over an empty subset raises when the prediction and the target differ in
    their number of feature channels: the two tensors without entries have
    the shapes (0,) and (0, 2), which torch cannot broadcast. *)
Lemma summed_loss_at_no_coords_not_always_zero :
  ~ (forall (conf : config) (self : t) (s_pred s_target : SparseTensor),
       __init__ conf = Ok self ->
       _get_summed_loss_at_coords self s_pred s_target [] = Ok 0)
  /\ ~ (forall (conf : config) (self : t) (s_pred s_target : SparseTensor),
          __init__ conf = Ok self ->
          well_formed s_pred -> well_formed s_target ->
          exists v, _get_loss_at_coords self s_pred s_target [] = Ok v).
Proof.
  split; intros Hall;
    [|destruct (Hall Examples.pixelwise_conf Examples.pixelwise_self
                  Examples.s_pred Examples.s_target_two_channels eq_refl)
        as [v Hv];
      [split; [cbn; lia|repeat constructor]
      |split; [cbn; lia|repeat constructor]
      |unfold _get_loss_at_coords in Hv; cbn [List.length] in Hv;
       rewrite apply_crit_no_coords_mismatch in Hv
         by (cbn; first [lia|discriminate]);
       discriminate Hv]].
  specialize (Hall Examples.pixelwise_bce_conf
                {| crit := BCEWithLogitsLoss Mean;
                   crit_sumreduction := BCEWithLogitsLoss Sum;
                   lambda_loss_infill_zero := 0;
                   lambda_loss_infill_nonzero := 0;
                   lambda_loss_active_zero := 0;
                   lambda_loss_active_nonzero := 0;
                   lambda_loss_infill := 0;
                   lambda_loss_active := 0;
                   lambda_loss_infill_sum := 1 |}
                Examples.s_pred Examples.s_target eq_refl).
  rewrite summed_loss_at_no_coords in Hall by reflexivity.
  cbn [crit_sumreduction crit_metric BCEWithLogitsLoss] in Hall.
  inversion Hall as [Hln]. now apply ln_2_not_zero.
Qed.

(** C6, amended: for a constructed PixelWise strategy and a prediction and
    a target with the same number of feature channels, neither subset loss
    raises or divides over an empty coordinate subset.  The elementwise loss
    applies the sum-reduced criterion to two tensors without entries and is
    0; the aggregate loss applies it to the two sums, both the scalar 0, and
    is 0 for the L1 and squared-error metrics and ln 2 for binary
    cross-entropy with logits. *)
Theorem empty_subset_losses (conf : config) (self : t)
  (s_pred s_target : SparseTensor) :
  __init__ conf = Ok self ->
  nchannels s_pred = nchannels s_target ->
  crit_reduction (crit_sumreduction self) = Sum
  /\ crit_metric (crit_sumreduction self) = crit_metric (crit self)
  /\ _get_loss_at_coords self s_pred s_target [] = Ok 0
  /\ _get_summed_loss_at_coords self s_pred s_target []
     = Ok (match crit_metric (crit self) with
           | BCEWithLogits => ln 2
           | _ => 0
           end)
  /\ (loss_func conf <> "PixelWise_BCEWithLogitsLoss"%string ->
      _get_summed_loss_at_coords self s_pred s_target [] = Ok 0).
Proof.
  intros Hinit Hch.
  destruct (pixelwise_init_criteria conf Hinit) as (m & Hcrit & Hsum).
  assert (Hred : crit_reduction (crit_sumreduction self) = Sum)
    by now rewrite Hsum.
  assert (Hmet : crit_metric (crit_sumreduction self) = crit_metric (crit self))
    by now rewrite Hsum, Hcrit.
  split; [exact Hred|]. split; [exact Hmet|].
  split; [now apply loss_at_no_coords|].
  split; [rewrite <- Hmet; now apply summed_loss_at_no_coords|].
  intros Hname. rewrite summed_loss_at_no_coords by exact Hred.
  rewrite Hmet, Hcrit. cbn [crit_metric].
  destruct m; try reflexivity. exfalso.
  unfold __init__ in Hinit.
  destruct (String.eqb (loss_func conf) "PixelWise_L1Loss");
    [cbn in Hinit; inversion Hinit; subst; discriminate|].
  destruct (String.eqb (loss_func conf) "PixelWise_MSELoss");
    [cbn in Hinit; inversion Hinit; subst; discriminate|].
  destruct (String.eqb_spec (loss_func conf) "PixelWise_BCEWithLogitsLoss");
    [contradiction|discriminate].
Qed.

Lemma pixelwise_self_constructed :
  __init__ Examples.pixelwise_conf = Ok Examples.pixelwise_self.
Proof. reflexivity. Qed.

Lemma empty_subset_losses_witness :
  _get_loss_at_coords Examples.pixelwise_self Examples.s_pred
    Examples.s_target [] = Ok 0
  /\ _get_summed_loss_at_coords Examples.pixelwise_self Examples.s_pred
       Examples.s_target [] = Ok 0.
Proof.
  pose proof (@empty_subset_losses Examples.pixelwise_conf
                Examples.pixelwise_self Examples.s_pred Examples.s_target
                eq_refl eq_refl) as (_ & _ & Hloss & _ & Hsum).
  split; [exact Hloss|]. apply Hsum. discriminate.
Defined.

End EmptySubsetFacts.

(** ** The coordinate selection *)

Module SelectionFacts.

Import PixelWise.
Open Scope R_scope.

Lemma coord_eqb_eq (a b : coord) : coord_eqb a b = true <-> a = b.
Proof.
  unfold coord_eqb. rewrite !andb_true_iff, !Z.eqb_eq.
  destruct a, b; cbn [c_batch c_x c_y c_z]. split.
  - intros [[[-> ->] ->] ->]. reflexivity.
  - intros H. inversion H. auto.
Qed.

(** The lookup reads 0 in the first channel of a coordinate the tensor does
    not hold. *)
Lemma features_at_absent (s : SparseTensor) (c : coord) :
  ~ In c (C s) -> features_at s c = repeat 0 (nchannels s).
Proof.
  intros Habs. unfold features_at.
  destruct (find (fun r => coord_eqb (fst r) c) (rows s)) as [r|] eqn:Hfind;
    [|reflexivity].
  apply find_some in Hfind. destruct Hfind as [Hr Heq].
  apply coord_eqb_eq in Heq. exfalso. apply Habs. subst c.
  unfold C. now apply in_map.
Qed.

Lemma hd_repeat_zero (n : nat) : hd 0 (repeat 0 n) = 0.
Proof. destruct n; reflexivity. Qed.

Lemma mask_select_rows {A B : Type} (p : B -> bool) (rs : list (A * B)) :
  mask_select (map fst rs) (map p (map snd rs))
  = map fst (filter (fun r => p (snd r)) rs).
Proof.
  induction rs as [|r rs IH]; [reflexivity|].
  cbn [map mask_select filter]. rewrite IH. now destruct (p (snd r)).
Qed.

Lemma filter_split_Permutation {A : Type} (p : A -> bool) (l : list A) :
  Permutation (filter p l ++ filter (fun x => negb (p x)) l) l.
Proof.
  induction l as [|x l IH]; [constructor|].
  cbn [filter]. destruct (p x); cbn [negb app].
  - now constructor.
  - symmetry. apply Permutation_cons_app. now symmetry.
Qed.

Lemma NoDup_fst_unique {A B : Type} (l : list (A * B)) (a : A) (b1 b2 : B) :
  NoDup (map fst l) -> In (a, b1) l -> In (a, b2) l -> b1 = b2.
Proof.
  induction l as [|[a' b'] l IH]; intros Hnd H1 H2; [destruct H1|].
  cbn [map fst] in Hnd. inversion Hnd as [|? ? Hnotin Hnd']; subst.
  destruct H1 as [H1|H1], H2 as [H2|H2].
  - congruence.
  - inversion H1; subst. exfalso. apply Hnotin.
    change a with (fst (a, b2)). now apply in_map.
  - inversion H2; subst. exfalso. apply Hnotin.
    change a with (fst (a, b1)). now apply in_map.
  - now apply IH.
Qed.

(** Every integer of at most 24 bits is a 32-bit float. *)
Lemma float32_of_small_int (z : Z) :
  (Z.abs z < 2 ^ 24)%Z -> float32_of_int z = z.
Proof.
  intros Hz. unfold float32_of_int.
  destruct (Z.eq_dec z 0) as [->|Hnz]; [reflexivity|].
  assert (Hlog : (Z.log2 (Z.abs z) < 24)%Z)
    by (apply Z.log2_lt_pow2; lia).
  destruct (Z.leb_spec (Z.log2 (Z.abs z) - 23) 0); [reflexivity|lia].
Qed.

Lemma small_float_exact (c : coord) :
  (Z.abs (c_batch c) < 2 ^ 24)%Z -> (Z.abs (c_x c) < 2 ^ 24)%Z ->
  (Z.abs (c_y c) < 2 ^ 24)%Z -> (Z.abs (c_z c) < 2 ^ 24)%Z ->
  float_exact c.
Proof.
  intros Hb Hx Hy Hz. unfold float_exact, type_float.
  rewrite !float32_of_small_int by assumption. now destruct c.
Qed.

Lemma type_float_exact (l : list coord) :
  Forall float_exact l -> map type_float l = l.
Proof.
  induction 1 as [|c l Hc _ IH]; [reflexivity|].
  cbn [map]. now rewrite Hc, IH.
Qed.

Lemma mask_select_Forall {A : Type} (P : A -> Prop) (l : list A)
  (mask : list bool) :
  Forall P l -> Forall P (mask_select l mask).
Proof.
  intros Hl. revert mask. induction Hl as [|x l Hx _ IH]; intros mask;
    [constructor|].
  destruct mask as [|b mask]; [constructor|]. cbn [mask_select].
  destruct b; [constructor; [exact Hx|apply IH]|apply IH].
Qed.

Section Selection.

Variables s_in s_target : SparseTensor.

Let sel := _get_infill_active_coords s_in s_target.
Let is_infill (r : coord * list R) : bool := Reqb (last (snd r) 0) 1.
Let target_zero (c : coord) : bool := Reqb (hd 0 (features_at s_target c)) 0.

(** The cast keeps the coordinates of the input. *)
Hypothesis exact_coords : Forall float_exact (C s_in).

Lemma sel_infill :
  infill_coords sel = map fst (filter is_infill (rows s_in)).
Proof.
  unfold sel, _get_infill_active_coords. cbn [infill_coords].
  rewrite type_float_exact by (apply mask_select_Forall, exact_coords).
  apply (mask_select_rows (fun f => Reqb (last f 0) 1)).
Qed.

Lemma sel_active :
  active_coords sel
  = map fst (filter (fun r => negb (is_infill r)) (rows s_in)).
Proof.
  unfold sel, _get_infill_active_coords. cbn [active_coords].
  rewrite type_float_exact by (apply mask_select_Forall, exact_coords).
  unfold F. rewrite (map_map _ negb).
  apply (mask_select_rows (fun f => negb (Reqb (last f 0) 1))).
Qed.

Lemma sel_zero_masks :
  infill_coords_zero sel = filter target_zero (infill_coords sel)
  /\ infill_coords_nonzero sel
     = filter (fun c => negb (target_zero c)) (infill_coords sel)
  /\ active_coords_zero sel = filter target_zero (active_coords sel)
  /\ active_coords_nonzero sel
     = filter (fun c => negb (target_zero c)) (active_coords sel).
Proof.
  assert (Hzero : forall l : list coord,
            mask_select l
              (map (fun f => Reqb (hd 0 f) 0) (map (features_at s_target) l))
            = filter target_zero l).
  { intros l. rewrite map_map. apply (mask_select_map target_zero). }
  assert (Hnonzero : forall l : list coord,
            mask_select l
              (map negb
                 (map (fun f => Reqb (hd 0 f) 0)
                    (map (features_at s_target) l)))
            = filter (fun c => negb (target_zero c)) l).
  { intros l. rewrite !map_map.
    apply (mask_select_map (fun c => negb (target_zero c))). }
  unfold sel, _get_infill_active_coords, features_at_coordinates.
  cbn [infill_coords active_coords infill_coords_zero infill_coords_nonzero
       active_coords_zero active_coords_nonzero].
  repeat split; first [apply Hzero | apply Hnonzero].
Qed.

Lemma In_infill (c : coord) :
  In c (infill_coords sel)
  <-> exists f, In (c, f) (rows s_in) /\ last f 0 = 1.
Proof.
  rewrite sel_infill, in_map_iff. split.
  - intros ([c' f] & <- & Hr). apply filter_In in Hr. destruct Hr as [Hr Hf].
    exists f. split; [exact Hr|]. now apply Reqb_eq.
  - intros (f & Hr & Hf). exists (c, f). split; [reflexivity|].
    apply filter_In. split; [exact Hr|]. now apply Reqb_eq.
Qed.

Lemma In_active (c : coord) :
  In c (active_coords sel)
  <-> exists f, In (c, f) (rows s_in) /\ last f 0 <> 1.
Proof.
  rewrite sel_active, in_map_iff. split.
  - intros ([c' f] & <- & Hr). apply filter_In in Hr. destruct Hr as [Hr Hf].
    exists f. split; [exact Hr|].
    apply negb_true_iff in Hf. intros Heq.
    apply Reqb_eq in Heq. unfold is_infill in Hf. cbn [snd] in Hf. congruence.
  - intros (f & Hr & Hf). exists (c, f). split; [reflexivity|].
    apply filter_In. split; [exact Hr|].
    apply negb_true_iff. now apply Reqb_false.
Qed.

Lemma target_zero_true (c : coord) :
  target_zero c = true <-> hd 0 (features_at s_target c) = 0.
Proof. apply Reqb_eq. Qed.

Lemma target_zero_false (c : coord) :
  negb (target_zero c) = true <-> hd 0 (features_at s_target c) <> 0.
Proof.
  rewrite negb_true_iff. unfold target_zero, Reqb.
  destruct (Req_dec_T _ 0); split; congruence.
Qed.

Lemma selection_Permutation :
  Permutation
    (infill_coords_zero sel ++ infill_coords_nonzero sel
       ++ active_coords_zero sel ++ active_coords_nonzero sel)
    (C s_in).
Proof.
  destruct sel_zero_masks as (-> & -> & -> & ->).
  rewrite app_assoc.
  transitivity (infill_coords sel ++ active_coords sel).
  - apply Permutation_app; apply filter_split_Permutation.
  - rewrite sel_infill, sel_active, <- map_app. unfold C.
    apply Permutation_map, filter_split_Permutation.
Qed.

End Selection.

(** C2, amended: for an input whose trailing feature channel is binary,
    whose coordinate rows are distinct (as the data model has them) and
    whose coordinates the cast to 32-bit floats keeps (as it keeps every
    integer below 2^24 in magnitude), the selection is a disjoint,
    exhaustive partition.  A coordinate is infill when its trailing input
    channel is 1 and active when it is 0, zero or non-zero by the first
    target channel looked up at it, a coordinate absent from the target
    reading 0; every input coordinate lies in exactly one of infill-zero,
    infill-nonzero, active-zero, active-nonzero, and these hold nothing
    else; infill is the union of infill-zero and infill-nonzero and active
    the union of active-zero and active-nonzero. *)
Theorem coordinate_selection_partition (s_in s_target : SparseTensor) :
  Forall (fun r => last (snd r) 0 = 0 \/ last (snd r) 0 = 1) (rows s_in) ->
  NoDup (C s_in) ->
  Forall float_exact (C s_in) ->
  let sel := _get_infill_active_coords s_in s_target in
  let flag c v := exists f, In (c, f) (rows s_in) /\ last f 0 = v in
  let target0 c := hd 0 (features_at s_target c) in
  (forall c, In c (infill_coords_zero sel) <-> flag c 1 /\ target0 c = 0)
  /\ (forall c, In c (infill_coords_nonzero sel) <-> flag c 1 /\ target0 c <> 0)
  /\ (forall c, In c (active_coords_zero sel) <-> flag c 0 /\ target0 c = 0)
  /\ (forall c, In c (active_coords_nonzero sel) <-> flag c 0 /\ target0 c <> 0)
  /\ (forall c, ~ In c (C s_target) -> target0 c = 0)
  /\ (forall c, In c (C s_in) ->
        exactly_one4 (In c (infill_coords_zero sel))
                     (In c (infill_coords_nonzero sel))
                     (In c (active_coords_zero sel))
                     (In c (active_coords_nonzero sel)))
  /\ Permutation
       (infill_coords_zero sel ++ infill_coords_nonzero sel
          ++ active_coords_zero sel ++ active_coords_nonzero sel)
       (C s_in)
  /\ (forall c, In c (infill_coords sel)
                <-> In c (infill_coords_zero sel)
                    \/ In c (infill_coords_nonzero sel))
  /\ (forall c, In c (active_coords sel)
                <-> In c (active_coords_zero sel)
                    \/ In c (active_coords_nonzero sel)).
Proof.
  intros Hbin Hnd Hexact sel flag target0.
  destruct (sel_zero_masks s_in s_target) as (Hiz & Hinz & Haz & Hanz).
  fold sel in Hiz, Hinz, Haz, Hanz.
  assert (Hinfill : forall c, In c (infill_coords sel) <-> flag c 1)
    by (apply In_infill; exact Hexact).
  assert (Hactive : forall c, In c (active_coords sel) <-> flag c 0).
  { intros c. unfold sel. rewrite In_active by exact Hexact. unfold flag.
    rewrite Forall_forall in Hbin. split.
    - intros (f & Hr & Hf). exists f. split; [exact Hr|].
      destruct (Hbin _ Hr) as [H0|H1]; [exact H0|contradiction].
    - intros (f & Hr & Hf). exists f. split; [exact Hr|]. rewrite Hf. lra. }
  assert (H1 : forall c, In c (infill_coords_zero sel)
                         <-> flag c 1 /\ target0 c = 0).
  { intros c. rewrite Hiz, filter_In, target_zero_true, Hinfill. reflexivity. }
  assert (H2 : forall c, In c (infill_coords_nonzero sel)
                         <-> flag c 1 /\ target0 c <> 0).
  { intros c. rewrite Hinz, filter_In, target_zero_false, Hinfill. reflexivity. }
  assert (H3 : forall c, In c (active_coords_zero sel)
                         <-> flag c 0 /\ target0 c = 0).
  { intros c. rewrite Haz, filter_In, target_zero_true, Hactive. reflexivity. }
  assert (H4 : forall c, In c (active_coords_nonzero sel)
                         <-> flag c 0 /\ target0 c <> 0).
  { intros c. rewrite Hanz, filter_In, target_zero_false, Hactive. reflexivity. }
  assert (Hexcl : forall c, flag c 1 -> flag c 0 -> False).
  { intros c (f1 & Hr1 & Hf1) (f0 & Hr0 & Hf0).
    assert (f1 = f0) by (eapply NoDup_fst_unique; eauto).
    subst f0. lra. }
  assert (Hsome : forall c, In c (C s_in) -> flag c 1 \/ flag c 0).
  { intros c Hc. unfold C in Hc. apply in_map_iff in Hc.
    destruct Hc as ([c' f] & <- & Hr). rewrite Forall_forall in Hbin.
    destruct (Hbin _ Hr) as [H0|H1'];
      [right|left]; exists f; split; assumption. }
  repeat match goal with |- _ /\ _ => split end;
    try assumption.
  - intros c Habs. unfold target0. rewrite features_at_absent by exact Habs.
    apply hd_repeat_zero.
  - intros c Hc. unfold exactly_one4. rewrite H1, H2, H3, H4.
    specialize (Hexcl c).
    destruct (Hsome c Hc) as [Hf|Hf];
      destruct (Req_dec_T (target0 c) 0) as [Ht|Ht]; tauto.
  - now apply selection_Permutation.
  - intros c. rewrite H1, H2, Hinfill.
    destruct (Req_dec_T (target0 c) 0); tauto.
  - intros c. rewrite H3, H4, Hactive.
    destruct (Req_dec_T (target0 c) 0); tauto.
Qed.

Lemma coordinate_selection_partition_witness :
  let sel := _get_infill_active_coords Examples.s_in Examples.s_target in
  exactly_one4 (In (Coord 0 2 0 0) (infill_coords_zero sel))
               (In (Coord 0 2 0 0) (infill_coords_nonzero sel))
               (In (Coord 0 2 0 0) (active_coords_zero sel))
               (In (Coord 0 2 0 0) (active_coords_nonzero sel)).
Proof.
  refine (proj1 (proj2 (proj2 (proj2 (proj2 (proj2
    (@coordinate_selection_partition Examples.s_in Examples.s_target _ _ _))))))
    (Coord 0 2 0 0) _).
  - repeat constructor; cbn [snd last]; lra.
  - unfold C. cbn [Examples.s_in rows map fst].
    repeat constructor; cbn [In]; intuition discriminate.
  - unfold C. cbn [Examples.s_in rows map fst].
    repeat constructor; apply small_float_exact; cbn; lia.
  - unfold C. cbn [Examples.s_in rows map fst In]. tauto.
Defined.

(** Beyond 2^24 the cast moves a coordinate: the voxel at x = 16777217 is
    looked up, and listed, at x = 16777216. *)
Lemma far_selection :
  _get_infill_active_coords Examples.s_in_far Examples.s_target_far
  = {| infill_coords := [Coord 0 16777216 0 0];
       active_coords := [];
       infill_coords_zero := [];
       infill_coords_nonzero := [Coord 0 16777216 0 0];
       active_coords_zero := [];
       active_coords_nonzero := [] |}.
Proof.
  assert (Hc : type_float (Coord 0 16777217 0 0) = Coord 0 16777216 0 0)
    by reflexivity.
  unfold _get_infill_active_coords, Examples.s_in_far, C, F.
  cbn [rows map fst snd last]. Rbool.
  cbn [map negb mask_select]. rewrite Hc.
  unfold features_at_coordinates, features_at, Examples.s_target_far.
  cbn. Rbool. reflexivity.
Qed.

(** C2 as stated fails: with binary flags and distinct rows, the input
    coordinate at x = 16777217 is in none of the four classes, which hold
    the coordinate the cast rounded it to; and it counts as non-zero,
    although the target does not hold it. *)
Lemma selection_rounds_far_coordinates :
  ~ (forall s_in s_target : SparseTensor,
       Forall (fun r => last (snd r) 0 = 0 \/ last (snd r) 0 = 1) (rows s_in) ->
       NoDup (C s_in) ->
       let sel := _get_infill_active_coords s_in s_target in
       forall c, In c (C s_in) ->
         exactly_one4 (In c (infill_coords_zero sel))
                      (In c (infill_coords_nonzero sel))
                      (In c (active_coords_zero sel))
                      (In c (active_coords_nonzero sel))).
Proof.
  intros Hall.
  specialize (Hall Examples.s_in_far Examples.s_target_far).
  cbv zeta in Hall. rewrite far_selection in Hall.
  cbn [infill_coords_zero infill_coords_nonzero active_coords_zero
       active_coords_nonzero] in Hall.
  assert (Hbin : Forall (fun r : coord * list R =>
                           last (snd r) 0 = 0 \/ last (snd r) 0 = 1)
                        (rows Examples.s_in_far))
    by (repeat constructor; cbn [snd last]; lra).
  assert (Hnd : NoDup (C Examples.s_in_far))
    by (repeat constructor; cbn [In]; tauto).
  specialize (Hall Hbin Hnd (Coord 0 16777217 0 0) (or_introl eq_refl)).
  unfold exactly_one4 in Hall. cbn [In] in Hall.
  assert (Hne : Coord 0 16777216 0 0 <> Coord 0 16777217 0 0)
    by discriminate.
  tauto.
Qed.

(** The sample's selection: the three infill voxels split two and one, the
    two active voxels are both non-zero. *)
Lemma sample_selection :
  _get_infill_active_coords Examples.s_in Examples.s_target
  = {| infill_coords := [Coord 0 1 0 0; Coord 0 2 0 0; Coord 0 2 1 0];
       active_coords := [Coord 0 3 0 0; Coord 0 4 0 0];
       infill_coords_zero := [Coord 0 1 0 0; Coord 0 2 0 0];
       infill_coords_nonzero := [Coord 0 2 1 0];
       active_coords_zero := [];
       active_coords_nonzero := [Coord 0 3 0 0; Coord 0 4 0 0] |}.
Proof.
  unfold _get_infill_active_coords. cbn. Rbool. cbn. Rbool. reflexivity.
Qed.

End SelectionFacts.

(** ** The breakdown and the total of calc_loss *)

Module CalcLossFacts.

Open Scope R_scope.

Lemma dict_set_fresh (d : list (string * R)) (name : string) (v : R) :
  ~ In name (keys d) -> dict_set d name v = d ++ [(name, v)].
Proof.
  induction d as [|[k w] d IH]; intros Hfresh; [reflexivity|].
  cbn [dict_set app]. cbn [keys map fst In] in Hfresh.
  destruct (String.eqb_spec k name) as [Heq|Hne]; [tauto|].
  rewrite IH; [reflexivity|]. unfold keys. tauto.
Qed.

Lemma py_sum_div_Ok (ls : list R) (n : nat) (v : R) :
  py_sum_div ls n = Ok v -> n <> 0%nat /\ v = py_sum ls / INR n.
Proof.
  unfold py_sum_div. destruct n; [destruct ls; discriminate|].
  intros H. inversion H. split; [discriminate|reflexivity].
Qed.

Section AddTerms.

Variable batch_size : nat.

Let value (tm : string * R * list R) : string * R :=
  (fst (fst tm), py_sum (snd tm) / INR batch_size).

Lemma add_terms_result (ts : list (string * R * list R)) :
  forall tot0 d0 tot d,
    NoDup (map (fun tm => fst (fst tm)) ts) ->
    (forall tm, In tm ts -> ~ In (fst (fst tm)) (keys d0)) ->
    add_terms batch_size ts (tot0, d0) = Ok (tot, d) ->
    d = d0 ++ map value (enabled ts)
    /\ tot = fold_left (fun acc tm => acc + snd (fst tm) * snd (value tm))
               (enabled ts) tot0
    /\ (enabled ts <> [] -> batch_size <> 0%nat).
Proof.
  unfold add_terms.
  induction ts as [|[[name lam] ls] ts IH]; intros tot0 d0 tot d Hnd Hfresh Hrun.
  - cbn in Hrun. inversion Hrun; subst. cbn. rewrite app_nil_r. tauto.
  - cbn [foldM fst snd] in Hrun. unfold add_term at 1 in Hrun.
    cbn [map fst] in Hnd. inversion Hnd as [|? ? Hnotin Hnd']; subst.
    unfold enabled. cbn [filter fst snd]. fold (enabled ts).
    destruct (truthy lam) eqn:Hlam.
    + destruct (py_sum_div ls batch_size) as [loss|e] eqn:Hdiv;
        [|discriminate].
      cbn [bind fst snd] in Hrun.
      apply py_sum_div_Ok in Hdiv. destruct Hdiv as [Hbs ->].
      rewrite dict_set_fresh in Hrun
        by (apply (Hfresh (name, lam, ls)); now left).
      apply IH in Hrun; [|exact Hnd'|].
      * destruct Hrun as (-> & -> & _).
        cbn [map fold_left]. rewrite <- app_assoc. cbn [app].
        split; [reflexivity|]. split; [reflexivity|]. intros _. exact Hbs.
      * intros tm Htm. unfold keys. rewrite map_app, in_app_iff.
        cbn [map fst In]. intros [Hin|[Heq|[]]].
        -- apply (Hfresh tm); [now right|exact Hin].
        -- apply Hnotin. rewrite Heq.
           now apply (in_map (fun tm => fst (fst tm))).
    + apply IH in Hrun; [exact Hrun|exact Hnd'|].
      intros tm Htm. apply Hfresh. now right.
Qed.

Lemma add_terms_ok (ts : list (string * R * list R)) :
  batch_size <> 0%nat ->
  forall st, exists st', add_terms batch_size ts st = Ok st'.
Proof.
  intros Hbs. unfold add_terms.
  induction ts as [|[[name lam] ls] ts IH]; intros st.
  - now exists st.
  - cbn [foldM fst snd]. unfold add_term at 1.
    destruct (truthy lam); [|cbn [bind]; apply IH].
    unfold py_sum_div. destruct batch_size; [congruence|].
    cbn [bind]. apply IH.
Qed.

Lemma add_terms_none_enabled (ts : list (string * R * list R)) :
  enabled ts = [] -> forall st, add_terms batch_size ts st = Ok st.
Proof.
  unfold add_terms, enabled.
  induction ts as [|[[name lam] ls] ts IH]; intros Hnone st; [reflexivity|].
  cbn [filter fst snd] in Hnone. cbn [foldM fst snd]. unfold add_term at 1.
  destruct (truthy lam); [discriminate|]. cbn [bind]. now apply IH.
Qed.

End AddTerms.

Lemma filled_nil (lam : R) (f : Z -> result R) (l : list R) :
  filled lam f [] l l.
Proof.
  unfold filled. destruct (truthy lam); [|reflexivity].
  exists []. split; [reflexivity|now rewrite app_nil_r].
Qed.

Lemma filled_cons (lam : R) (f : Z -> result R) (i : Z) (t : list Z)
  (l0 l1 l : list R) :
  append_when lam l0 (f i) = Ok l1 -> filled lam f t l1 l ->
  filled lam f (i :: t) l0 l.
Proof.
  unfold append_when, filled. destruct (truthy lam).
  - destruct (f i) as [x|e] eqn:Hfi; [|discriminate]. cbn [bind].
    intros Hl1 (vs & Hvs & ->). inversion Hl1; subst.
    exists (x :: vs). cbn [mapM]. rewrite Hfi, Hvs. cbn [bind].
    split; [reflexivity|]. now rewrite <- app_assoc.
  - intros Hl1 ->. now inversion Hl1.
Qed.

Ltac invert_binds H :=
  repeat match type of H with
    | bind ?m _ = Ok _ =>
        let E := fresh "Hstep" in
        destruct m eqn:E; [cbn [bind] in H|discriminate H]
    end.

Section PixelWiseLoop.

Import PixelWise.

Variables (self : t) (s_pred s_target : SparseTensor) (sel : selection).

Let loss (name : string) : Z -> result R :=
  sample_loss self s_pred s_target sel name.

(** The batch loop fills, for every sub-term with a non-zero scale factor,
    the sub-term's list with its per-sample losses in batch order. *)
Lemma loop_filled (batches : list Z) :
  forall st0 ls,
    foldM (loop_body self s_pred s_target sel) st0 batches = Ok ls ->
    filled (lambda_loss_infill_zero self) (loss "infill_zero") batches
      (losses_infill_zero st0) (losses_infill_zero ls)
    /\ filled (lambda_loss_infill_nonzero self) (loss "infill_nonzero") batches
         (losses_infill_nonzero st0) (losses_infill_nonzero ls)
    /\ filled (lambda_loss_infill self) (loss "infill") batches
         (losses_infill st0) (losses_infill ls)
    /\ filled (lambda_loss_infill_sum self) (loss "infill_sum") batches
         (losses_infill_sum st0) (losses_infill_sum ls)
    /\ filled (lambda_loss_active_zero self) (loss "active_zero") batches
         (losses_active_zero st0) (losses_active_zero ls)
    /\ filled (lambda_loss_active_nonzero self) (loss "active_nonzero") batches
         (losses_active_nonzero st0) (losses_active_nonzero ls)
    /\ filled (lambda_loss_active self) (loss "active") batches
         (losses_active st0) (losses_active ls).
Proof.
  induction batches as [|i t IH]; intros st0 ls Hrun.
  - cbn in Hrun. inversion Hrun; subst. repeat split; apply filled_nil.
  - cbn [foldM] in Hrun.
    destruct (loop_body self s_pred s_target sel st0 i) as [st1|e] eqn:Hbody;
      [cbn [bind] in Hrun|discriminate].
    specialize (IH st1 ls Hrun).
    destruct IH as (I1 & I2 & I3 & I4 & I5 & I6 & I7).
    unfold loop_body in Hbody. invert_binds Hbody.
    inversion Hbody; subst st1; clear Hbody.
    cbn [losses_infill_zero losses_infill_nonzero losses_infill
         losses_infill_sum losses_active_zero losses_active_nonzero
         losses_active] in *.
    repeat split; eapply filled_cons; eassumption.
Qed.

End PixelWiseLoop.

Lemma features_at_nonempty (s : SparseTensor) (c : coord) :
  well_formed s -> features_at s c <> [].
Proof.
  intros [Hch Hrows]. unfold features_at.
  destruct (find (fun r => coord_eqb (fst r) c) (rows s)) as [r|] eqn:Hfind.
  - apply find_some in Hfind. destruct Hfind as [Hr _].
    rewrite Forall_forall in Hrows. specialize (Hrows r Hr).
    destruct (snd r); [cbn in Hrows; lia|discriminate].
  - destruct (nchannels s); [lia|discriminate].
Qed.

Lemma mapM_ok {A B : Type} (f : A -> result B) (l : list A) :
  (forall x, exists y, f x = Ok y) -> exists ys, mapM f l = Ok ys.
Proof.
  intros Hf. induction l as [|x l [ys IH]]; [now exists []|].
  destruct (Hf x) as [y Hy]. exists (y :: ys). cbn [mapM].
  now rewrite Hy, IH.
Qed.

(** A criterion returns on the features of two well-formed tensors with the
    same number of channels, unless it is a mean over no coordinates. *)
Lemma crit_features_ok (c : criterion) (s_pred s_target : SparseTensor)
  (coords : list coord) :
  well_formed s_pred -> well_formed s_target ->
  nchannels s_pred = nchannels s_target ->
  (coords = [] -> crit_reduction c = Sum) ->
  exists v,
    apply_crit c (squeezed_features s_pred coords)
      (squeezed_features s_target coords) = Ok v.
Proof.
  intros Hwp Hwt Hch Hempty. rewrite apply_crit_features by exact Hch.
  unfold reduce_crit. destruct coords as [|c0 cs].
  - rewrite Hempty by reflexivity. eexists; reflexivity.
  - destruct (crit_reduction c); [|eexists; reflexivity].
    cbn [features_at_coordinates map squeeze List.concat].
    pose proof (features_at_nonempty c0 Hwp) as Hp.
    pose proof (features_at_nonempty c0 Hwt) as Ht.
    destruct (features_at s_pred c0); [congruence|].
    destruct (features_at s_target c0); [congruence|].
    cbn [app combine map List.length tensor_div_int].
    eexists; reflexivity.
Qed.

Section PixelWiseReturns.

Import PixelWise.

Variables (self : t) (s_pred s_target : SparseTensor).

Hypothesis pred_wf : well_formed s_pred.
Hypothesis target_wf : well_formed s_target.
Hypothesis same_channels : nchannels s_pred = nchannels s_target.
Hypothesis sum_variant : crit_reduction (crit_sumreduction self) = Sum.

Lemma loss_at_coords_ok (coords : list coord) :
  exists v, _get_loss_at_coords self s_pred s_target coords = Ok v.
Proof.
  unfold _get_loss_at_coords.
  destruct coords as [|c cs]; cbn [List.length];
    apply crit_features_ok; try assumption; try discriminate.
  intros _. exact sum_variant.
Qed.

Lemma summed_loss_at_coords_ok (coords : list coord) :
  exists v, _get_summed_loss_at_coords self s_pred s_target coords = Ok v.
Proof.
  unfold _get_summed_loss_at_coords.
  destruct (List.length coords); apply GapWiseFacts.apply_crit_scalars.
Qed.

Lemma append_when_ok (lam : R) (l : list R) (v : result R) :
  (exists x, v = Ok x) -> exists l', append_when lam l v = Ok l'.
Proof.
  intros [x ->]. unfold append_when. destruct (truthy lam); eexists; reflexivity.
Qed.

Lemma loop_ok (sel : selection) (batches : list Z) :
  forall st0, exists ls,
    foldM (loop_body self s_pred s_target sel) st0 batches = Ok ls.
Proof.
  induction batches as [|i t IH]; intros st0; [now exists st0|].
  cbn [foldM]. unfold loop_body at 1.
  repeat match goal with
    | |- context [append_when ?lam ?l ?v] =>
        let Hx := fresh "Hx" in
        let l' := fresh "l" in
        destruct (@append_when_ok lam l v) as [l' Hx];
        [first [apply loss_at_coords_ok | apply summed_loss_at_coords_ok]|];
        rewrite Hx; cbn [bind]
    end.
  apply IH.
Qed.

End PixelWiseReturns.

(** The batch loop evaluates the loss of a sub-term only under a non-zero
    scale factor: it goes through as soon as the per-sample losses of those
    sub-terms return, whatever the others would do. *)
Lemma append_when_enabled_ok (lam : R) (l : list R) (v : result R) :
  (lam <> 0 -> exists x, v = Ok x) -> exists l', append_when lam l v = Ok l'.
Proof.
  intros Hv. unfold append_when. destruct (truthy lam) eqn:Hlam.
  - apply truthy_true in Hlam. destruct (Hv Hlam) as [x ->].
    eexists; reflexivity.
  - eexists; reflexivity.
Qed.

Lemma loop_ok_enabled (self : PixelWise.t) (s_pred s_target : SparseTensor)
  (sel : PixelWise.selection) (batches : list Z) :
  (forall name lam,
     In (name, lam) (PixelWise.get_names_scalefactors self) -> lam <> 0 ->
     forall i, In i batches ->
       exists v, PixelWise.sample_loss self s_pred s_target sel name i = Ok v) ->
  forall st0, exists ls,
    foldM (PixelWise.loop_body self s_pred s_target sel) st0 batches = Ok ls.
Proof.
  induction batches as [|i t IH]; intros Hen st0; [now exists st0|].
  cbn [foldM]. unfold PixelWise.loop_body at 1.
  assert (Hi : forall name lam,
            In (name, lam) (PixelWise.get_names_scalefactors self) ->
            lam <> 0 ->
            exists v,
              PixelWise.sample_loss self s_pred s_target sel name i = Ok v)
    by (intros name lam Hin Hlam; apply (Hen name lam Hin Hlam); now left).
  cbn [PixelWise.get_names_scalefactors In] in Hi.
  repeat match goal with
    | |- context [append_when ?lam ?l ?v] =>
        let Hx := fresh "Hx" in
        let l' := fresh "l" in
        destruct (@append_when_enabled_ok lam l v) as [l' Hx];
        [intros Hlam;
         first [ exact (Hi "infill_zero"%string lam ltac:(tauto) Hlam)
               | exact (Hi "infill_nonzero"%string lam ltac:(tauto) Hlam)
               | exact (Hi "infill"%string lam ltac:(tauto) Hlam)
               | exact (Hi "infill_sum"%string lam ltac:(tauto) Hlam)
               | exact (Hi "active_zero"%string lam ltac:(tauto) Hlam)
               | exact (Hi "active_nonzero"%string lam ltac:(tauto) Hlam)
               | exact (Hi "active"%string lam ltac:(tauto) Hlam) ]|];
        rewrite Hx; cbn [bind]
    end.
  apply IH. intros name lam Hin Hlam j Hj. apply (Hen name lam Hin Hlam).
  now right.
Qed.

Lemma enabled_names_NoDup (ts : list (string * R * list R)) :
  NoDup (map (fun tm => fst (fst tm)) ts) ->
  NoDup (map (fun tm => fst (fst tm)) (enabled ts)).
Proof.
  unfold enabled. intros Hnd.
  induction ts as [|tm ts IH]; [constructor|].
  apply NoDup_cons_iff in Hnd. destruct Hnd as [Hfresh Hrest].
  cbn [filter]. destruct (truthy (snd (fst tm))); [|now apply IH].
  cbn [map]. apply NoDup_cons; [|now apply IH].
  rewrite in_map_iff. intros (tm' & Hname & Hin).
  apply filter_In in Hin. apply Hfresh. rewrite <- Hname.
  apply (in_map (fun tm => fst (fst tm))). tauto.
Qed.

Lemma fold_left_ext_in {A B : Type} (g h : B -> A -> B) (l : list A) :
  (forall acc x, In x l -> g acc x = h acc x) ->
  forall acc, fold_left g l acc = fold_left h l acc.
Proof.
  induction l as [|x l IH]; intros Hext acc; [reflexivity|].
  cbn [fold_left]. rewrite Hext by now left.
  apply IH. intros acc' y Hy. apply Hext. now right.
Qed.

Lemma fold_left_map_acc {A B C : Type} (g : C -> B -> C) (f : A -> B)
  (l : list A) :
  forall acc, fold_left g (map f l) acc = fold_left (fun a x => g a (f x)) l acc.
Proof.
  induction l as [|x l IH]; intros acc; [reflexivity|]. cbn. apply IH.
Qed.

Lemma terms_names_NoDup (self : PixelWise.t) (ls : PixelWise.loss_lists) :
  NoDup (map (fun tm => fst (fst tm)) (PixelWise.terms self ls)).
Proof.
  cbn [PixelWise.terms map fst].
  repeat constructor; cbn [In]; intuition discriminate.
Qed.

Lemma terms_scale (self : PixelWise.t) (ls : PixelWise.loss_lists)
  (name : string) (lam : R) :
  In (name, lam) (PixelWise.get_names_scalefactors self)
  <-> In (name, lam) (map fst (PixelWise.terms self ls)).
Proof.
  cbn [PixelWise.terms PixelWise.get_names_scalefactors map fst In]. tauto.
Qed.

Lemma terms_scale_of (self : PixelWise.t) (ls : PixelWise.loss_lists)
  (tm : string * R * list R) :
  In tm (PixelWise.terms self ls) ->
  PixelWise.scale_of (PixelWise.get_names_scalefactors self) (fst (fst tm))
  = snd (fst tm).
Proof.
  cbn [PixelWise.terms In].
  intros [<-|[<-|[<-|[<-|[<-|[<-|[<-|[]]]]]]]]; reflexivity.
Qed.

Section PixelWiseCalcLoss.

Import PixelWise.

Variables (self : t) (s_pred s_in s_target : SparseTensor) (data : batch_data).

Let batch_size := List.length (mask_x data).
Let sel := _get_infill_active_coords s_in s_target.
Let batches := map Z.of_nat (seq 0 batch_size).
Let value (tm : string * R * list R) : string * R :=
  (fst (fst tm), py_sum (snd tm) / INR batch_size).

(** [calc_loss] is the batch loop followed by the loop over the sub-terms. *)
Lemma calc_loss_unfold :
  calc_loss self s_pred s_in s_target data
  = (ls <- foldM (loop_body self s_pred s_target sel) no_losses batches ;;
     add_terms batch_size (terms self ls) (0, [])).
Proof. reflexivity. Qed.

Lemma calc_loss_result (tot : R) (losses : list (string * R)) :
  calc_loss self s_pred s_in s_target data = Ok (tot, losses) ->
  exists ls,
    foldM (loop_body self s_pred s_target sel) no_losses batches = Ok ls
    /\ losses = map value (enabled (terms self ls))
    /\ tot = fold_left (fun acc tm => acc + snd (fst tm) * snd (value tm))
               (enabled (terms self ls)) 0.
Proof.
  rewrite calc_loss_unfold. intros Hrun.
  destruct (foldM (loop_body self s_pred s_target sel) no_losses batches)
    as [ls|e] eqn:Hloop; [cbn [bind] in Hrun|discriminate].
  exists ls. split; [reflexivity|].
  apply add_terms_result in Hrun.
  - destruct Hrun as (Hd & Ht & _). split; [exact Hd|exact Ht].
  - apply terms_names_NoDup.
  - intros tm _ [].
Qed.

Lemma term_filled (ls : loss_lists) (tm : string * R * list R) :
  foldM (loop_body self s_pred s_target sel) no_losses batches = Ok ls ->
  In tm (terms self ls) ->
  filled (snd (fst tm)) (sample_loss self s_pred s_target sel (fst (fst tm)))
    batches [] (snd tm).
Proof.
  intros Hloop Htm. apply loop_filled in Hloop.
  destruct Hloop as (I1 & I2 & I3 & I4 & I5 & I6 & I7).
  cbn [terms In] in Htm.
  destruct Htm as [<-|[<-|[<-|[<-|[<-|[<-|[<-|[]]]]]]]]; assumption.
Qed.

End PixelWiseCalcLoss.

(** C1: the breakdown and the total of PixelWise [calc_loss].  On
    well-formed tensors, the prediction and the target with the same number
    of feature channels, and a batch that is not empty the call returns.  A sub-term with a zero scale factor
    is never computed: the call returns as soon as the per-sample losses of
    the sub-terms with a non-zero scale factor return, whatever the losses
    of the others would do, and the batch loop leaves the list of a
    zero-weight sub-term empty.  Whenever the call returns: the breakdown
    has a key for a sub-term exactly when the sub-term's scale factor is not
    zero, each key once; the value under a key is the sum over the batch of
    the sub-term's per-sample losses divided by the batch size, not
    multiplied by the scale factor; and the total is the sum over the
    breakdown of scale factor times value.  With the weights
    infill_zero = 1, infill_nonzero = 2 and all others 0 the breakdown is
    exactly the keys infill_zero and infill_nonzero, and the total is
    1 * infill_zero + 2 * infill_nonzero. *)
Theorem calc_loss_breakdown
  (self : PixelWise.t) (s_pred s_in s_target : SparseTensor) (data : batch_data) :
  let batch_size := List.length (mask_x data) in
  let sel := PixelWise._get_infill_active_coords s_in s_target in
  let batches := map Z.of_nat (seq 0 batch_size) in
  let scale := PixelWise.get_names_scalefactors self in
  (well_formed s_pred -> well_formed s_in -> well_formed s_target ->
   nchannels s_pred = nchannels s_target ->
   crit_reduction (PixelWise.crit_sumreduction self) = Sum ->
   batch_size <> 0%nat ->
   exists tot losses,
     PixelWise.calc_loss self s_pred s_in s_target data = Ok (tot, losses))
  /\ (well_formed s_in -> well_formed s_target ->
      batch_size <> 0%nat ->
      (forall name lam,
         In (name, lam) scale -> lam <> 0 ->
         forall i, In i batches ->
           exists v,
             PixelWise.sample_loss self s_pred s_target sel name i = Ok v) ->
      exists tot losses,
        PixelWise.calc_loss self s_pred s_in s_target data = Ok (tot, losses))
  /\ (forall tot losses,
        PixelWise.calc_loss self s_pred s_in s_target data = Ok (tot, losses) ->
        NoDup (keys losses)
        /\ (forall name,
              In name (keys losses)
              <-> exists lam, In (name, lam) scale /\ lam <> 0)
        /\ (forall name v,
              In (name, v) losses ->
              exists ls,
                mapM (PixelWise.sample_loss self s_pred s_target sel name)
                  batches = Ok ls
                /\ v = py_sum ls / INR batch_size)
        /\ (exists lists,
              foldM (PixelWise.loop_body self s_pred s_target sel)
                PixelWise.no_losses batches = Ok lists
              /\ forall name lam l,
                   In (name, lam, l) (PixelWise.terms self lists) ->
                   lam = 0 -> l = [])
        /\ tot = PixelWise.weighted_total scale losses
        /\ (PixelWise.lambda_loss_infill_zero self = 1 ->
            PixelWise.lambda_loss_infill_nonzero self = 2 ->
            PixelWise.lambda_loss_infill self = 0 ->
            PixelWise.lambda_loss_infill_sum self = 0 ->
            PixelWise.lambda_loss_active_zero self = 0 ->
            PixelWise.lambda_loss_active_nonzero self = 0 ->
            PixelWise.lambda_loss_active self = 0 ->
            exists v1 v2,
              losses = [("infill_zero"%string, v1);
                        ("infill_nonzero"%string, v2)]
              /\ tot = 1 * v1 + 2 * v2)).
Proof.
  intros batch_size sel batches scale. split; [|split].
  - intros Hp _ Ht Hch Hsum Hbs. rewrite calc_loss_unfold.
    destruct (@loop_ok self s_pred s_target Hp Ht Hch Hsum sel batches
                PixelWise.no_losses) as [ls Hls].
    unfold sel, batches, batch_size in Hls. rewrite Hls. cbn [bind].
    destruct (@add_terms_ok batch_size (PixelWise.terms self ls) Hbs (0, []))
      as [[tot losses] Hst].
    now exists tot, losses.
  - intros _ _ Hbs Hen. rewrite calc_loss_unfold.
    destruct (@loop_ok_enabled self s_pred s_target sel batches Hen
                PixelWise.no_losses) as [ls Hls].
    unfold sel, batches, batch_size in Hls. rewrite Hls. cbn [bind].
    destruct (@add_terms_ok batch_size (PixelWise.terms self ls) Hbs (0, []))
      as [[tot losses] Hst].
    now exists tot, losses.
  - intros tot losses Hrun.
    apply calc_loss_result in Hrun.
    destruct Hrun as (ls & Hloop & Hlosses & Htot).
    fold batch_size sel batches in Hloop, Hlosses, Htot.
    set (ts := PixelWise.terms self ls) in *.
    set (value := fun tm : string * R * list R =>
                    (fst (fst tm), py_sum (snd tm) / INR batch_size)) in *.
    assert (Hkeys : keys losses = map (fun tm => fst (fst tm)) (enabled ts)).
    { rewrite Hlosses. unfold keys. now rewrite map_map. }
    split; [|split; [|split; [|split; [|split]]]].
    + rewrite Hkeys. apply enabled_names_NoDup, terms_names_NoDup.
    + intros name. rewrite Hkeys, in_map_iff. split.
      * intros ([[n lam] l] & <- & Hin). apply filter_In in Hin.
        destruct Hin as [Hin Hlam]. cbn [fst snd] in *.
        exists lam. split; [|now apply truthy_true].
        apply (terms_scale self ls). change (n, lam) with (fst (n, lam, l)).
        now apply in_map.
      * intros (lam & Hin & Hlam). apply (terms_scale self ls) in Hin.
        apply in_map_iff in Hin. destruct Hin as ([[n lam'] l] & Heq & Hin).
        cbn [fst] in Heq. inversion Heq; subst.
        exists (name, lam, l). split; [reflexivity|].
        apply filter_In. split; [exact Hin|]. now apply truthy_true.
    + intros name v Hin. rewrite Hlosses in Hin. apply in_map_iff in Hin.
      destruct Hin as (tm & Heq & Hin). apply filter_In in Hin.
      destruct Hin as [Hin Hlam].
      pose proof (@term_filled self s_pred s_in s_target data ls tm Hloop Hin)
        as Hfilled.
      unfold filled in Hfilled. rewrite Hlam in Hfilled.
      destruct Hfilled as (vs & Hvs & Hl). cbn [app] in Hl.
      unfold value in Heq. injection Heq as Hname Hv.
      exists vs. split; [now rewrite <- Hname|]. now rewrite <- Hv, Hl.
    + exists ls. split; [exact Hloop|]. intros name lam l Hin Hlam.
      pose proof (@term_filled self s_pred s_in s_target data ls
                    (name, lam, l) Hloop Hin) as Hfilled.
      unfold filled in Hfilled. cbn [fst snd] in Hfilled.
      now rewrite (proj2 (truthy_false lam) Hlam) in Hfilled.
    + rewrite Htot, Hlosses. unfold PixelWise.weighted_total.
      rewrite fold_left_map_acc. apply fold_left_ext_in.
      intros acc tm Hin. apply filter_In in Hin. destruct Hin as [Hin _].
      unfold value, scale. cbn [fst snd]. now rewrite (terms_scale_of Hin).
    + intros H1 H2 H3 H4 H5 H6 H7.
      assert (Hen : enabled ts
                    = [ ("infill_zero"%string, 1,
                          PixelWise.losses_infill_zero ls);
                        ("infill_nonzero"%string, 2,
                          PixelWise.losses_infill_nonzero ls) ]).
      { unfold enabled, ts, PixelWise.terms. cbn [filter fst snd].
        rewrite H1, H2, H3, H4, H5, H6, H7. unfold truthy. Rbool.
        reflexivity. }
      rewrite Hen in Hlosses, Htot. cbn [map fold_left] in Hlosses, Htot.
      unfold value in Hlosses, Htot. cbn [fst snd] in Hlosses, Htot.
      eexists. eexists. split; [exact Hlosses|]. rewrite Htot. lra.
Qed.

(** The end-to-end scenario: one sample, three infill voxels (two with
    target 0, one with a non-zero target), two active voxels, the weights
    infill_zero = 1 and infill_nonzero = 2. *)
Lemma sample_calc_loss :
  PixelWise.calc_loss Examples.pixelwise_self Examples.s_pred Examples.s_in
    Examples.s_target Examples.data
  = Ok (7 / 2, [("infill_zero"%string, 3 / 2); ("infill_nonzero"%string, 1)]).
Proof.
  rewrite calc_loss_unfold. rewrite SelectionFacts.sample_selection.
  cbn [Examples.data mask_x List.length seq map Z.of_nat foldM].
  unfold PixelWise.loop_body, append_when.
  cbn [Examples.pixelwise_self PixelWise.lambda_loss_infill_zero
       PixelWise.lambda_loss_infill_nonzero PixelWise.lambda_loss_infill
       PixelWise.lambda_loss_infill_sum PixelWise.lambda_loss_active_zero
       PixelWise.lambda_loss_active_nonzero PixelWise.lambda_loss_active].
  unfold truthy. Rbool. cbn [negb].
  cbn. unfold py_sum. cbn [fold_left].
  unfold add_term, truthy. Rbool. cbn. unfold py_sum. cbn [fold_left].
  replace (Rabs (1 - 0)) with 1 by (rewrite Rabs_pos_eq; lra).
  replace (Rabs (2 - 0)) with 2 by (rewrite Rabs_pos_eq; lra).
  replace (Rabs (4 - 3)) with 1 by (rewrite Rabs_pos_eq; lra).
  apply f_equal. apply f_equal2; [lra|].
  apply f_equal2; [apply f_equal; lra|].
  apply f_equal2; [apply f_equal; lra|reflexivity].
Qed.

(** An instance: the sample strategy returns, with the total of the
    scenario; and the strategy with the aggregate sub-term only returns on a
    target whose channels do not match the prediction, where every
    elementwise sub-term would raise. *)
Lemma calc_loss_breakdown_witness :
  (exists tot losses,
     PixelWise.calc_loss Examples.pixelwise_self Examples.s_pred Examples.s_in
       Examples.s_target Examples.data = Ok (tot, losses))
  /\ 7 / 2
     = PixelWise.weighted_total
         (PixelWise.get_names_scalefactors Examples.pixelwise_self)
         [("infill_zero"%string, 3 / 2); ("infill_nonzero"%string, 1)]
  /\ (exists tot losses,
        PixelWise.calc_loss Examples.pixelwise_sum_self Examples.s_pred
          Examples.s_in Examples.s_target_two_channels Examples.data
        = Ok (tot, losses)).
Proof.
  pose proof (calc_loss_breakdown Examples.pixelwise_self Examples.s_pred
                Examples.s_in Examples.s_target Examples.data)
    as (Hret & _ & Hsome).
  split; [|split].
  - apply Hret.
    + split; [cbn; lia|]. repeat constructor.
    + split; [cbn; lia|]. repeat constructor.
    + split; [cbn; lia|]. repeat constructor.
    + reflexivity.
    + reflexivity.
    + discriminate.
  - apply (Hsome _ _ sample_calc_loss).
  - refine (proj1 (proj2 (calc_loss_breakdown Examples.pixelwise_sum_self
                            Examples.s_pred Examples.s_in
                            Examples.s_target_two_channels Examples.data))
              _ _ _ _);
      [split; [cbn; lia|repeat constructor]
      |split; [cbn; lia|repeat constructor]
      |discriminate|].
    intros name lam Hin Hlam i _.
    cbn [PixelWise.get_names_scalefactors Examples.pixelwise_sum_self
         PixelWise.lambda_loss_infill_zero PixelWise.lambda_loss_infill_nonzero
         PixelWise.lambda_loss_active_zero PixelWise.lambda_loss_active_nonzero
         PixelWise.lambda_loss_infill PixelWise.lambda_loss_active
         PixelWise.lambda_loss_infill_sum In] in Hin.
    repeat (destruct Hin as [Hin|Hin];
            [injection Hin as <- <-; try (exfalso; apply Hlam; reflexivity)|]);
      [|destruct Hin].
    apply summed_loss_at_coords_ok.
Defined.

End CalcLossFacts.

(** * Further properties of the code *)

(** ** Ranges and the markers they stand for *)

Module RangeCoverage.

Import GapWiseRanges GapWiseRangesFacts GapWiseFacts GapWise.
Open Scope Z_scope.

Lemma py_range_one (a : Z) : py_range a (a + 1) = [a].
Proof.
  unfold py_range. replace (a + 1 - a) with 1 by lia.
  change (Z.to_nat 1) with 1%nat. cbn. now rewrite Z.add_0_r.
Qed.

Lemma py_range_snoc (a b : Z) :
  a <= b -> py_range a (b + 1) = py_range a b ++ [b].
Proof.
  intros Hab. unfold py_range.
  replace (Z.to_nat (b + 1 - a)) with (S (Z.to_nat (b - a))) by lia.
  rewrite seq_S, map_app. cbn [map Nat.add]. do 2 f_equal. lia.
Qed.

Lemma visited_runs_from (l : list Z) :
  forall s e, s <= e -> Sorted Z.lt (e :: l) ->
    visited_gap_coords (runs_from s e l) = py_range s (e + 1) ++ l.
Proof.
  unfold visited_gap_coords.
  induction l as [|x l IH]; intros s e Hse Hs; cbn [runs_from].
  - cbn. now rewrite app_nil_r.
  - inversion Hs as [|? ? Hs' Hhd]; subst. inversion Hhd; subst.
    destruct (e + 1 <? x) eqn:Hlt.
    + cbn [flat_map fst snd]. rewrite (IH x x (Z.le_refl x) Hs').
      now rewrite py_range_one.
    + apply Z.ltb_ge in Hlt. assert (x = e + 1) by lia. subst x.
      rewrite (IH s (e + 1) ltac:(lia) Hs').
      rewrite (@py_range_snoc s (e + 1)) by lia.
      now rewrite <- app_assoc.
Qed.

(** X1: the ranges lose nothing and add nothing: walking every range from
    its start to its end, as the loop of [_get_gap_losses] does, visits the
    distinct markers in ascending order, each once. *)
Theorem visited_gap_coords_are_the_markers (nums : list Z) :
  visited_gap_coords (_get_edge_ranges nums) = sorted_set nums
  /\ (List.length (_get_edge_ranges nums) <= List.length (sorted_set nums))%nat.
Proof.
  rewrite edge_ranges_runs.
  pose proof (sorted_set_Sorted nums) as Hs.
  destruct (sorted_set nums) as [|x t]; [split; [reflexivity|cbn; lia]|].
  cbn [maximal_runs].
  assert (Hvis : visited_gap_coords (runs_from x x t) = x :: t).
  { rewrite visited_runs_from by (lia || exact Hs). now rewrite py_range_one. }
  split; [exact Hvis|].
  rewrite <- Hvis. clear Hvis. unfold visited_gap_coords.
  assert (Hle : Forall (fun r => fst r <= snd r) (runs_from x x t))
    by (apply runs_from_le; [lia|exact Hs]).
  induction Hle as [|r rs Hr _ IH]; [cbn; lia|].
  cbn [flat_map List.length]. rewrite length_app.
  assert (py_range (fst r) (snd r + 1) <> []) by now apply py_range_nonempty.
  destruct (py_range (fst r) (snd r + 1)); [congruence|cbn; lia].
Qed.

(** X2: the ranges depend on the markers as a set only: neither the order
    nor repetitions in the list passed to [_get_edge_ranges] matter. *)
Theorem edge_ranges_of_equal_sets (nums nums' : list Z) :
  (forall v, In v nums <-> In v nums') ->
  _get_edge_ranges nums = _get_edge_ranges nums'.
Proof.
  intros Hsame. apply is_maximal_runs_unique.
  destruct (edge_ranges_is_maximal_runs nums) as (Hle & Hs & Hcov).
  repeat split; try assumption.
  - intros Hv. apply Hcov, Hsame, Hv.
  - intros Hv. apply Hsame, Hcov, Hv.
Qed.

Lemma edge_ranges_of_equal_sets_witness :
  _get_edge_ranges [3; 1; 2; 2; 7] = _get_edge_ranges [7; 1; 2; 3].
Proof.
  apply edge_ranges_of_equal_sets. intros v. cbn [In]. tauto.
Defined.

Lemma range_of_unique (rs : list (Z * Z)) (v : Z) :
  Forall (fun r => fst r <= snd r) rs -> Sorted apart rs ->
  forall r1 r2, In r1 rs -> In r2 rs ->
    fst r1 <= v <= snd r1 -> fst r2 <= v <= snd r2 -> r1 = r2.
Proof.
  induction rs as [|r rs IH]; intros Hle Hs r1 r2 H1 H2 Hv1 Hv2;
    [destruct H1|].
  inversion Hle as [|? ? Hr Hle']; subst.
  pose proof (apart_tail Hle' Hs) as Hup.
  inversion Hs as [|? ? Hs' _]; subst.
  destruct H1 as [<-|H1], H2 as [<-|H2].
  - reflexivity.
  - specialize (Hup r2 H2). lia.
  - specialize (Hup r1 H1). lia.
  - now apply IH.
Qed.

(** X3: the coordinate groups of the ranges partition the infill
    coordinates that lie in a gap: a coordinate is in the group of some range
    exactly when it is an infill coordinate whose axis value is a gap marker,
    and then it is in the group of one range only. *)
Theorem gap_groups_partition (gaps : list Z) (infill_coords : list coord)
  (coord_idx : nat) :
  let ranges :=
    _get_edge_ranges (active_gap_coords gaps infill_coords coord_idx) in
  let group r := gap_coords infill_coords coord_idx (fst r) (snd r) in
  (forall c, (exists r, In r ranges /\ In c (group r))
             <-> In c infill_coords /\ In (col coord_idx c) gaps)
  /\ (forall c r1 r2, In r1 ranges -> In r2 ranges ->
        In c (group r1) -> In c (group r2) -> r1 = r2).
Proof.
  intros ranges group.
  destruct (edge_ranges_is_maximal_runs
              (active_gap_coords gaps infill_coords coord_idx))
    as (Hle & Hs & Hcov).
  fold ranges in Hle, Hs, Hcov. split.
  - intros c. split.
    + intros (r & Hr & Hc). apply gap_coords_In in Hc. destruct Hc as [Hin Hv].
      split; [exact Hin|].
      assert (Hact : In (col coord_idx c)
                        (active_gap_coords gaps infill_coords coord_idx)).
      { apply Hcov. now exists r. }
      now apply active_gap_coords_In in Hact.
    + intros [Hin Hg].
      assert (Hact : In (col coord_idx c)
                        (active_gap_coords gaps infill_coords coord_idx)).
      { apply active_gap_coords_In. split; [exact Hg|now exists c]. }
      apply Hcov in Hact. destruct Hact as (r & Hr & Hv).
      exists r. split; [exact Hr|]. apply gap_coords_In. now split.
  - intros c r1 r2 H1 H2 Hc1 Hc2.
    apply gap_coords_In in Hc1, Hc2.
    apply (@range_of_unique ranges (col coord_idx c)); tauto.
Qed.

Lemma gap_groups_partition_witness :
  exists r,
    In r (_get_edge_ranges
            (active_gap_coords [1; 2; 5] Examples.infill 1))
    /\ In (Coord 0 2 1 0)
          (gap_coords Examples.infill 1 (fst r) (snd r)).
Proof.
  apply (proj1 (gap_groups_partition [1; 2; 5] Examples.infill 1)).
  split; cbn; tauto.
Defined.

End RangeCoverage.

(** ** Edge behaviour and sign of PixelWise.calc_loss *)

Module PixelWiseEdge.

Import CalcLossFacts PixelWise.
Open Scope R_scope.

Lemma scale_zero_fields (self : t) :
  (forall name lam, In (name, lam) (get_names_scalefactors self) -> lam = 0) ->
  lambda_loss_infill_zero self = 0 /\ lambda_loss_infill_nonzero self = 0
  /\ lambda_loss_infill self = 0 /\ lambda_loss_infill_sum self = 0
  /\ lambda_loss_active_zero self = 0 /\ lambda_loss_active_nonzero self = 0
  /\ lambda_loss_active self = 0.
Proof.
  intros Hall. repeat split;
    match goal with
    | |- ?f self = 0 =>
        first [ apply (Hall "infill_zero"%string); cbn; tauto
              | apply (Hall "infill_nonzero"%string); cbn; tauto
              | apply (Hall "infill"%string); cbn; tauto
              | apply (Hall "infill_sum"%string); cbn; tauto
              | apply (Hall "active_zero"%string); cbn; tauto
              | apply (Hall "active_nonzero"%string); cbn; tauto
              | apply (Hall "active"%string); cbn; tauto ]
    end.
Qed.

Lemma truthy_zero : truthy 0 = false.
Proof. now apply truthy_false. Qed.

(** X4: a PixelWise strategy all of whose scale factors are zero evaluates
    no loss: whatever the prediction, on every batch, the empty one
    included, [calc_loss] returns the total 0.0 and the empty breakdown.
    The input and the target have at least one feature channel, so that the
    column reads of [_get_infill_active_coords] are defined. *)
Theorem calc_loss_without_weights (self : t)
  (s_pred s_in s_target : SparseTensor) (data : batch_data) :
  well_formed s_in -> well_formed s_target ->
  (forall name lam, In (name, lam) (get_names_scalefactors self) -> lam = 0) ->
  calc_loss self s_pred s_in s_target data = Ok (0, []).
Proof.
  intros _ _ Hall.
  destruct (scale_zero_fields Hall) as (H1 & H2 & H3 & H4 & H5 & H6 & H7).
  rewrite calc_loss_unfold.
  assert (Hidle : forall sel batches st0,
            foldM (loop_body self s_pred s_target sel) st0 batches = Ok st0).
  { intros sel batches. induction batches as [|i t IH]; intros st0;
      [reflexivity|].
    cbn [foldM]. unfold loop_body at 1, append_when.
    rewrite H1, H2, H3, H4, H5, H6, H7, truthy_zero. cbn [bind].
    destruct st0. cbn [losses_infill_zero losses_infill_nonzero losses_infill
      losses_infill_sum losses_active_zero losses_active_nonzero
      losses_active]. apply IH. }
  rewrite Hidle. cbn [bind]. apply add_terms_none_enabled.
  unfold enabled, terms. cbn [filter fst snd].
  now rewrite H1, H2, H3, H4, H5, H6, H7, truthy_zero.
Qed.

Lemma calc_loss_without_weights_witness :
  calc_loss
    {| crit := MSELoss Mean; crit_sumreduction := MSELoss Sum;
       lambda_loss_infill_zero := 0; lambda_loss_infill_nonzero := 0;
       lambda_loss_active_zero := 0; lambda_loss_active_nonzero := 0;
       lambda_loss_infill := 0; lambda_loss_active := 0;
       lambda_loss_infill_sum := 0 |}
    Examples.s_pred Examples.s_in Examples.s_target
    {| mask_x := []; mask_z := [] |}
  = Ok (0, []).
Proof.
  apply calc_loss_without_weights.
  - split; [cbn; lia|]. repeat constructor.
  - split; [cbn; lia|]. repeat constructor.
  - intros name lam Hin. cbn in Hin.
    repeat (destruct Hin as [Hin|Hin]; [now inversion Hin|]). destruct Hin.
Defined.

Lemma add_terms_empty_batch (ts : list (string * R * list R)) :
  Forall (fun tm => snd tm = []) ts -> enabled ts <> [] ->
  forall st, add_terms 0 ts st = Raise ZeroDivisionError.
Proof.
  unfold add_terms, enabled.
  induction 1 as [|[[name lam] ls] ts Hls _ IH]; intros Hen st;
    [now contradiction Hen|].
  cbn [snd] in Hls. subst ls.
  cbn [filter fst snd] in Hen. cbn [foldM fst snd]. unfold add_term at 1.
  destruct (truthy lam); [reflexivity|]. cbn [bind]. now apply IH.
Qed.

(** X5: on an empty batch a strategy with a non-zero scale factor fails:
    the average of no per-sample losses is the int division 0 / 0.  The
    input and the target have at least one feature channel. *)
Theorem calc_loss_empty_batch_raises (self : t)
  (s_pred s_in s_target : SparseTensor) (data : batch_data) :
  well_formed s_in -> well_formed s_target ->
  mask_x data = [] ->
  (exists name lam, In (name, lam) (get_names_scalefactors self) /\ lam <> 0) ->
  calc_loss self s_pred s_in s_target data = Raise ZeroDivisionError.
Proof.
  intros _ _ Hempty (name & lam & Hin & Hlam).
  rewrite calc_loss_unfold, Hempty. cbn [List.length seq map foldM bind].
  apply add_terms_empty_batch.
  - unfold terms, no_losses. repeat constructor.
  - apply (terms_scale self no_losses) in Hin. apply in_map_iff in Hin.
    destruct Hin as (tm & Htm & Hin).
    assert (Hen : In tm (enabled (terms self no_losses))).
    { apply filter_In. split; [exact Hin|]. rewrite Htm. cbn [snd].
      now apply truthy_true. }
    intros Hnil. rewrite Hnil in Hen. destruct Hen.
Qed.

Lemma calc_loss_empty_batch_raises_witness :
  calc_loss Examples.pixelwise_self Examples.s_pred Examples.s_in
    Examples.s_target {| mask_x := []; mask_z := [] |}
  = Raise ZeroDivisionError.
Proof.
  apply calc_loss_empty_batch_raises.
  - split; [cbn; lia|]. repeat constructor.
  - split; [cbn; lia|]. repeat constructor.
  - reflexivity.
  - exists "infill_nonzero"%string, 2. split; [cbn; tauto|lra].
Defined.

Lemma mapM_Forall {A B : Type} (f : A -> result B) (P : B -> Prop)
  (l : list A) :
  (forall x y, f x = Ok y -> P y) ->
  forall ys, mapM f l = Ok ys -> Forall P ys.
Proof.
  intros Hf. induction l as [|x l IH]; intros ys Hrun.
  - inversion Hrun. constructor.
  - cbn [mapM] in Hrun. destruct (f x) as [y|e] eqn:Hy; [|discriminate].
    cbn [bind] in Hrun. destruct (mapM f l) as [ys'|e]; [|discriminate].
    inversion Hrun; subst. constructor; [now apply (Hf x)|now apply IH].
Qed.

Lemma py_sum_from (l : list R) :
  forall acc, fold_left Rplus l acc = acc + py_sum l.
Proof.
  unfold py_sum. induction l as [|x l IH]; intros acc; cbn [fold_left].
  - lra.
  - rewrite IH, (IH (0 + x)). lra.
Qed.

Lemma py_sum_zeros (l : list R) : Forall (fun x => x = 0) l -> py_sum l = 0.
Proof.
  induction 1 as [|x l Hx _ IH]; [reflexivity|].
  unfold py_sum. cbn [fold_left]. rewrite py_sum_from, IH, Hx. lra.
Qed.

Lemma py_sum_nonneg (l : list R) : Forall (fun x => 0 <= x) l -> 0 <= py_sum l.
Proof.
  induction 1 as [|x l Hx _ IH]; [unfold py_sum; cbn; lra|].
  unfold py_sum. cbn [fold_left]. rewrite py_sum_from. lra.
Qed.

Lemma div_INR_nonneg (x : R) (n : nat) : 0 <= x -> n <> 0%nat -> 0 <= x / INR n.
Proof.
  intros Hx Hn. apply Rmult_le_pos; [exact Hx|].
  left. apply Rinv_0_lt_compat, lt_0_INR. lia.
Qed.

Lemma pointwise_same (m : metric) (x : R) :
  m <> BCEWithLogits -> pointwise m x x = 0.
Proof.
  intros Hm. destruct m; cbn [pointwise]; [| |congruence].
  - replace (x - x) with 0 by lra. apply Rabs_R0.
  - lra.
Qed.

Lemma pointwise_nonneg (m : metric) (x t : R) :
  m <> BCEWithLogits -> 0 <= pointwise m x t.
Proof.
  intros Hm. destruct m; cbn [pointwise]; [| |congruence].
  - apply Rabs_pos.
  - apply (Rle_0_sqr (x - t)).
Qed.

Lemma reduce_crit_same (c : criterion) (l : list R) (v : R) :
  crit_metric c <> BCEWithLogits -> reduce_crit c l l = Ok v -> v = 0.
Proof.
  intros Hm. unfold reduce_crit.
  assert (Hz : py_sum (map (fun p => pointwise (crit_metric c) (fst p) (snd p))
                          (combine l l)) = 0).
  { apply py_sum_zeros. apply Forall_forall. intros y Hy.
    apply in_map_iff in Hy. destruct Hy as ([a b] & <- & Hab).
    assert (a = b).
    { clear - Hab. induction l as [|z l IH]; [destruct Hab|].
      destruct Hab as [Heq|Hab]; [now inversion Heq|now apply IH]. }
    subst b. now apply pointwise_same. }
  rewrite Hz. destruct (crit_reduction c).
  - unfold tensor_div_int. destruct (List.length _); [discriminate|].
    intros H. inversion H. lra.
  - intros H. now inversion H.
Qed.

Lemma apply_crit_same (c : criterion) (t : tensor) (v : R) :
  crit_metric c <> BCEWithLogits -> apply_crit c t t = Ok v -> v = 0.
Proof.
  intros Hm. rewrite apply_crit_same_shape by reflexivity.
  now apply reduce_crit_same.
Qed.

Lemma reduce_crit_nonneg (c : criterion) (p q : list R) (v : R) :
  crit_metric c <> BCEWithLogits -> reduce_crit c p q = Ok v -> 0 <= v.
Proof.
  intros Hm. unfold reduce_crit.
  assert (Hz : 0 <= py_sum (map (fun p => pointwise (crit_metric c) (fst p) (snd p))
                               (combine p q))).
  { apply py_sum_nonneg. apply Forall_forall. intros y Hy.
    apply in_map_iff in Hy. destruct Hy as (ab & <- & _).
    now apply pointwise_nonneg. }
  destruct (crit_reduction c).
  - unfold tensor_div_int. destruct (List.length _) eqn:Hlen; [discriminate|].
    intros H. injection H as <-.
    exact (@div_INR_nonneg _ (S n) Hz ltac:(discriminate)).
  - intros H. now inversion H.
Qed.

(** The L1 and the squared-error loss are not negative, also where the two
    tensors are broadcast. *)
Lemma apply_crit_nonneg (c : criterion) (p q : tensor) (v : R) :
  crit_metric c <> BCEWithLogits -> apply_crit c p q = Ok v -> 0 <= v.
Proof.
  intros Hm. unfold apply_crit.
  destruct (shape_eqb (t_shape p) (t_shape q));
    [now apply reduce_crit_nonneg|].
  destruct (crit_metric c) eqn:Hmet; [| |congruence];
    (destruct (broadcast_dim _ _); [|discriminate]);
    (destruct (broadcast_dim _ _); [|discriminate]);
    apply reduce_crit_nonneg; now rewrite Hmet.
Qed.

Section Values.

Variables (self : t) (s_pred s_in s_target : SparseTensor) (data : batch_data).
Variable P : R -> Prop.

Let batch_size := List.length (mask_x data).
Let sel := _get_infill_active_coords s_in s_target.

Hypothesis sample_P :
  forall name i y,
    sample_loss self s_pred s_target sel name i = Ok y -> P y.

(** What holds of every per-sample loss holds of every entry of the lists
    behind the breakdown of a call that returned. *)
Lemma calc_loss_entries (tot : R) (losses : list (string * R)) :
  calc_loss self s_pred s_in s_target data = Ok (tot, losses) ->
  exists ets,
    losses = map (fun tm => (fst (fst tm), py_sum (snd tm) / INR batch_size)) ets
    /\ tot = fold_left
               (fun acc tm =>
                  acc + snd (fst tm) * (py_sum (snd tm) / INR batch_size))
               ets 0
    /\ (ets <> [] -> batch_size <> 0%nat)
    /\ Forall (fun tm => In (fst tm) (get_names_scalefactors self)
                         /\ Forall P (snd tm)) ets.
Proof.
  rewrite calc_loss_unfold. intros Hrun.
  destruct (foldM _ no_losses _) as [ls|e] eqn:Hloop;
    [cbn [bind] in Hrun|discriminate].
  exists (enabled (terms self ls)).
  apply add_terms_result in Hrun;
    [|apply terms_names_NoDup|intros tm _ []].
  destruct Hrun as (Hd & Ht & Hbs).
  split; [exact Hd|]. split; [exact Ht|]. split; [exact Hbs|].
  apply Forall_forall. intros tm Htm. apply filter_In in Htm.
  destruct Htm as [Htm Hlam]. split.
  { destruct tm as [[name lam] l]. apply (terms_scale self ls).
    change (name, lam) with (fst (name, lam, l)). now apply in_map. }
  pose proof (@term_filled self s_pred s_in s_target data ls tm Hloop Htm)
    as Hfilled.
  unfold filled in Hfilled. rewrite Hlam in Hfilled.
  destruct Hfilled as (vs & Hvs & ->). cbn [app].
  eapply mapM_Forall; [|exact Hvs]. intros i y. apply sample_P.
Qed.

End Values.

(** X6: with the L1 or the squared-error metric, a prediction that is the
    target itself costs nothing: every value of the breakdown and the total
    are 0, whatever the scale factors. *)
Theorem calc_loss_of_the_target (self : t) (s_in s_target : SparseTensor)
  (data : batch_data) (tot : R) (losses : list (string * R)) :
  crit_metric (crit self) <> BCEWithLogits ->
  crit_metric (crit_sumreduction self) <> BCEWithLogits ->
  calc_loss self s_target s_in s_target data = Ok (tot, losses) ->
  tot = 0 /\ Forall (fun kv => snd kv = 0) losses.
Proof.
  intros Hm Hms Hrun.
  apply (@calc_loss_entries self s_target s_in s_target data (fun y => y = 0))
    in Hrun.
  - destruct Hrun as (ets & -> & -> & _ & Hets).
    assert (Hval : Forall (fun tm => py_sum (snd tm)
                             / INR (List.length (mask_x data)) = 0) ets).
    { eapply Forall_impl; [|exact Hets]. cbv beta. intros tm [_ Hz].
      rewrite (py_sum_zeros Hz). lra. }
    split.
    + clear Hets. generalize 0. induction Hval as [|tm ets Htm _ IH];
        intros acc; [reflexivity|].
      cbn [fold_left]. rewrite IH, Htm. lra.
    + apply Forall_forall. intros kv Hkv. apply in_map_iff in Hkv.
      destruct Hkv as (tm & <- & Htm). cbn [snd].
      rewrite Forall_forall in Hval. now apply Hval.
  - intros name i y. unfold sample_loss.
    destruct (String.eqb name "infill_sum").
    + unfold _get_summed_loss_at_coords.
      destruct (List.length _); now apply apply_crit_same.
    + unfold _get_loss_at_coords.
      destruct (List.length _); now apply apply_crit_same.
Qed.

Lemma calc_loss_of_the_target_witness :
  exists tot losses,
    calc_loss Examples.pixelwise_self Examples.s_target Examples.s_in
      Examples.s_target Examples.data = Ok (tot, losses)
    /\ tot = 0.
Proof.
  assert (Hwf : well_formed Examples.s_target)
    by (split; [cbn; lia|repeat constructor]).
  destruct (@loop_ok Examples.pixelwise_self Examples.s_target
              Examples.s_target Hwf Hwf eq_refl eq_refl
              (_get_infill_active_coords Examples.s_in Examples.s_target)
              (map Z.of_nat (seq 0 1)) no_losses) as [ls Hls].
  destruct (@add_terms_ok 1 (terms Examples.pixelwise_self ls)
              ltac:(discriminate) (0, [])) as [[tot losses] Hst].
  assert (Hrun : calc_loss Examples.pixelwise_self Examples.s_target
                   Examples.s_in Examples.s_target Examples.data
                 = Ok (tot, losses)).
  { rewrite calc_loss_unfold.
    change (List.length (mask_x Examples.data)) with 1%nat.
    rewrite Hls. exact Hst. }
  exists tot, losses. split; [exact Hrun|].
  refine (proj1 (@calc_loss_of_the_target Examples.pixelwise_self Examples.s_in
                   Examples.s_target Examples.data tot losses _ _ Hrun));
    discriminate.
Defined.

Lemma fold_left_sum_nonneg {A : Type} (g : A -> R) (l : list A) :
  Forall (fun x => 0 <= g x) l ->
  forall acc, 0 <= acc -> 0 <= fold_left (fun a x => a + g x) l acc.
Proof.
  induction 1 as [|x l Hx _ IH]; intros acc Hacc; [exact Hacc|].
  cbn [fold_left]. apply IH. lra.
Qed.

(** X7: with the L1 or the squared-error metric no value of the breakdown is
    negative, and with scale factors that are not negative neither is the
    total. *)
Theorem calc_loss_nonnegative (self : t) (s_pred s_in s_target : SparseTensor)
  (data : batch_data) (tot : R) (losses : list (string * R)) :
  crit_metric (crit self) <> BCEWithLogits ->
  crit_metric (crit_sumreduction self) <> BCEWithLogits ->
  calc_loss self s_pred s_in s_target data = Ok (tot, losses) ->
  Forall (fun kv => 0 <= snd kv) losses
  /\ ((forall name lam, In (name, lam) (get_names_scalefactors self) ->
        0 <= lam) ->
      0 <= tot).
Proof.
  intros Hm Hms Hrun.
  apply (@calc_loss_entries self s_pred s_in s_target data (fun y => 0 <= y))
    in Hrun.
  - destruct Hrun as (ets & -> & -> & Hbs & Hets).
    assert (Hval : Forall (fun tm => 0 <= py_sum (snd tm)
                             / INR (List.length (mask_x data))) ets).
    { apply Forall_forall. intros tm Htm.
      rewrite Forall_forall in Hets. destruct (Hets tm Htm) as [_ Hz].
      apply div_INR_nonneg; [now apply py_sum_nonneg|].
      apply Hbs. intros Hnil. rewrite Hnil in Htm. destruct Htm. }
    split.
    + apply Forall_forall. intros kv Hkv. apply in_map_iff in Hkv.
      destruct Hkv as (tm & <- & Htm). cbn [snd].
      rewrite Forall_forall in Hval. now apply Hval.
    + intros Hscale.
      apply (fold_left_sum_nonneg
               (fun tm => snd (fst tm)
                          * (py_sum (snd tm) / INR (List.length (mask_x data)))));
        [|lra].
      apply Forall_forall. intros tm Htm.
      rewrite Forall_forall in Hval, Hets.
      apply Rmult_le_pos; [|now apply Hval].
      destruct (Hets tm Htm) as [Hin _]. destruct tm as [[name lam] l].
      cbn [fst snd] in *. now apply (Hscale name).
  - intros name i y. unfold sample_loss.
    destruct (String.eqb name "infill_sum").
    + unfold _get_summed_loss_at_coords.
      destruct (List.length _); now apply apply_crit_nonneg.
    + unfold _get_loss_at_coords.
      destruct (List.length _); now apply apply_crit_nonneg.
Qed.

Lemma calc_loss_nonnegative_witness :
  0 <= 7 / 2.
Proof.
  refine (proj2 (@calc_loss_nonnegative Examples.pixelwise_self Examples.s_pred
                   Examples.s_in Examples.s_target Examples.data (7 / 2) _
                   _ _ sample_calc_loss) _); try discriminate.
  intros name lam Hin. cbn in Hin.
  repeat (destruct Hin as [Hin|Hin]; [inversion Hin; lra|]). destruct Hin.
Defined.

End PixelWiseEdge.

(** ** What the factory returns *)

Module FactoryFacts.

Open Scope R_scope.

Lemma gapwise_init_criteria (conf : config) (self : GapWise.t) :
  GapWise.__init__ conf = Ok self ->
  GapWise.crits self
  = (if String.eqb (loss_func conf) "GapWise_L1Loss" then
       Some {| GapWise.crit_adc := L1Loss Mean;
               GapWise.crit_adc_sumreduction := L1Loss Sum;
               GapWise.crit_npixel := L1Loss Mean;
               GapWise.crit_adc_pixelwise := L1Loss Mean;
               GapWise.crit_adc_pixelwise_sumreduction := L1Loss Sum |}
     else if String.eqb (loss_func conf) "GapWise_MSELoss" then
       Some {| GapWise.crit_adc := MSELoss Mean;
               GapWise.crit_adc_sumreduction := MSELoss Sum;
               GapWise.crit_npixel := MSELoss Mean;
               GapWise.crit_adc_pixelwise := MSELoss Mean;
               GapWise.crit_adc_pixelwise_sumreduction := MSELoss Sum |}
     else if String.eqb (loss_func conf) "GapWise_L1Loss_MSELossPixelWise" then
       Some {| GapWise.crit_adc := L1Loss Mean;
               GapWise.crit_adc_sumreduction := L1Loss Sum;
               GapWise.crit_npixel := L1Loss Mean;
               GapWise.crit_adc_pixelwise := MSELoss Mean;
               GapWise.crit_adc_pixelwise_sumreduction := MSELoss Sum |}
     else None)
  /\ exists thr, GapWise.adc_threshold self = Some thr.
Proof.
  unfold GapWise.__init__.
  destruct (conf_adc_threshold conf) as [[thr|]|]; cbn [bind];
    [|discriminate|discriminate].
  cbn [GapWise.adc_threshold GapWise.is_None orb].
  destruct (GapWise.eq_zero (Some thr) && _); [discriminate|].
  intros H. inversion H; subst self; clear H.
  cbn [GapWise.crits GapWise.adc_threshold]. split; [reflexivity|now exists thr].
Qed.

Lemma planewise_init_criteria (conf : config) (self : PlaneWise.t) :
  PlaneWise.__init__ conf = Ok self ->
  PlaneWise.crits self
  = (if String.eqb (loss_func conf) "PlaneWise_L1Loss" then
       Some {| PlaneWise.crit_adc := L1Loss Mean;
               PlaneWise.crit_adc_sumreduction := L1Loss Sum;
               PlaneWise.crit_npixel := L1Loss Mean |}
     else None).
Proof.
  unfold PlaneWise.__init__.
  destruct (conf_adc_threshold conf) as [thr|]; cbn [bind]; [|discriminate].
  destruct (GapWise.is_None _ && _); [discriminate|].
  intros H. inversion H; subst self; clear H. reflexivity.
Qed.

(** X8: a strategy the factory returns is of the family its name selects
    and has its criteria assigned, and it is never a Chamfer strategy: under
    the name "Chamfer" the factory raises, after constructing one. *)
Theorem init_loss_func_returns (conf : config) (s : strategy) :
  init_loss_func conf = Ok s ->
  match s with
  | IsPixelWise self =>
      In (loss_func conf) pixelwise_names /\ PixelWise.__init__ conf = Ok self
  | IsGapWise self =>
      In (loss_func conf)
         ["GapWise_L1Loss"; "GapWise_MSELoss";
          "GapWise_L1Loss_MSELossPixelWise"]%string
      /\ GapWise.__init__ conf = Ok self
      /\ (exists cs, GapWise.crits self = Some cs)
      /\ (exists thr, GapWise.adc_threshold self = Some thr)
  | IsPlaneWise self =>
      loss_func conf = "PlaneWise_L1Loss"%string
      /\ PlaneWise.__init__ conf = Ok self
      /\ (exists cs, PlaneWise.crits self = Some cs)
  | IsChamfer _ => False
  end.
Proof.
  unfold init_loss_func, pixelwise_names. intros Hrun.
  destruct (String.eqb_spec (loss_func conf) "PixelWise_L1Loss") as [E1|_];
    [|destruct (String.eqb_spec (loss_func conf) "PixelWise_MSELoss") as [E2|_];
      [|destruct (String.eqb_spec (loss_func conf)
                    "PixelWise_BCEWithLogitsLoss") as [E3|_]]];
    cbn [orb] in Hrun.
  1-3: destruct (PixelWise.__init__ conf) as [self|e]; [|discriminate];
       cbn [bind] in Hrun; inversion Hrun; subst s;
       (split; [cbn [In]; rewrite ?E1, ?E2, ?E3; tauto|reflexivity]).
  destruct (String.eqb_spec (loss_func conf) "GapWise_L1Loss") as [E1|_];
    [|destruct (String.eqb_spec (loss_func conf) "GapWise_MSELoss") as [E2|_];
      [|destruct (String.eqb_spec (loss_func conf)
                    "GapWise_L1Loss_MSELossPixelWise") as [E3|_]]];
    cbn [orb] in Hrun.
  1-3: destruct (GapWise.__init__ conf) as [self|e] eqn:Hinit; [|discriminate];
       cbn [bind] in Hrun; inversion Hrun; subst s;
       destruct (gapwise_init_criteria conf Hinit) as [Hcs Hthr];
       (split; [cbn [In]; rewrite ?E1, ?E2, ?E3; tauto|]);
       (split; [reflexivity|]); (split; [|exact Hthr]);
       rewrite Hcs, ?E1, ?E2, ?E3; cbn; eexists; reflexivity.
  destruct (String.eqb_spec (loss_func conf) "PlaneWise_L1Loss") as [E1|_].
  - destruct (PlaneWise.__init__ conf) as [self|e] eqn:Hinit; [|discriminate].
    cbn [bind] in Hrun. inversion Hrun; subst s.
    split; [exact E1|]. split; [reflexivity|].
    rewrite (planewise_init_criteria conf Hinit), E1. cbn.
    eexists; reflexivity.
  - destruct (String.eqb (loss_func conf) "Chamfer"); discriminate.
Qed.

Lemma init_loss_func_returns_witness :
  In (loss_func Examples.gapwise_conf)
     ["GapWise_L1Loss"; "GapWise_MSELoss";
      "GapWise_L1Loss_MSELossPixelWise"]%string
  /\ GapWise.__init__ Examples.gapwise_conf = Ok Examples.gapwise_self
  /\ (exists cs, GapWise.crits Examples.gapwise_self = Some cs)
  /\ (exists thr, GapWise.adc_threshold Examples.gapwise_self = Some thr).
Proof.
  apply (@init_loss_func_returns Examples.gapwise_conf
           (IsGapWise Examples.gapwise_self)).
  unfold init_loss_func. cbn [Examples.gapwise_conf Examples.config_of loss_func].
  cbn [String.eqb Ascii.eqb Bool.eqb orb].
  now rewrite GapWiseFacts.gapwise_self_constructed.
Defined.

End FactoryFacts.

(** ** Planes that hold no infill coordinate *)

Module PlaneWiseEdge.

Import PlaneWise.
Open Scope R_scope.

Lemma apply_crit_same_scalar (c : criterion) (p : R) :
  crit_metric c <> BCEWithLogits ->
  apply_crit c (scalar p) (scalar p) = Ok 0.
Proof.
  intros Hm. destruct (GapWiseFacts.apply_crit_scalars c p p) as [v Hv].
  rewrite Hv. f_equal. now apply (@PixelWiseEdge.apply_crit_same c (scalar p)).
Qed.

Lemma plane_loss_adc_empty (self : t) (cs : criteria)
  (s_pred s_target : SparseTensor) :
  crits self = Some cs -> crit_metric (crit_adc cs) <> BCEWithLogits ->
  plane_loss_adc self s_pred s_target [] = Ok 0.
Proof.
  intros Hcs Hm. unfold plane_loss_adc, attr. rewrite Hcs. cbn [bind].
  now apply apply_crit_same_scalar.
Qed.

Lemma plane_loss_npixel_empty (self : t) (cs : criteria) (thr : R)
  (s_pred s_target : SparseTensor) :
  crits self = Some cs -> crit_metric (crit_npixel cs) <> BCEWithLogits ->
  adc_threshold self = Some thr -> thr <> 0 ->
  plane_loss_npixel self s_pred s_target [] = Ok 0.
Proof.
  intros Hcs Hm Hthr Hnz. unfold plane_loss_npixel, npixel_count, attr.
  rewrite Hcs, Hthr. cbn [bind features_at_coordinates map squeeze List.concat].
  rewrite !GapWiseFacts.tensor_div_ok by exact Hnz. cbn [bind].
  now apply apply_crit_same_scalar.
Qed.

Lemma repeat_snoc (n : nat) (l : list R) :
  (l ++ [0]) ++ repeat 0 n = l ++ repeat 0 (S n).
Proof. now rewrite <- app_assoc. Qed.

Lemma plane_loop_empty_groups (self : t) (s_pred s_target : SparseTensor)
  (skip_adc skip_npixel : bool) (groups : list (Z * list coord)) :
  (skip_adc = false -> plane_loss_adc self s_pred s_target [] = Ok 0) ->
  (skip_npixel = false -> plane_loss_npixel self s_pred s_target [] = Ok 0) ->
  Forall (fun g => snd g = []) groups ->
  forall st,
    foldM (plane_body self s_pred s_target skip_adc skip_npixel) st groups
    = Ok (fst st ++ (if skip_adc then [] else repeat 0 (List.length groups)),
          snd st ++ (if skip_npixel then []
                     else repeat 0 (List.length groups))).
Proof.
  intros Hadc Hnpx. induction 1 as [|g groups Hg _ IH]; intros st.
  - cbn [foldM List.length repeat]. destruct st, skip_adc, skip_npixel;
      cbn [fst snd]; now rewrite ?app_nil_r.
  - cbn [foldM]. unfold plane_body at 1. cbv zeta. rewrite Hg.
    destruct skip_adc, skip_npixel;
      rewrite ?(Hadc eq_refl), ?(Hnpx eq_refl); cbn [bind]; rewrite IH;
      cbn [fst snd List.length]; now rewrite ?repeat_snoc.
Qed.

Lemma mean_of_zeros (n : nat) :
  n <> 0%nat ->
  py_sum_div (repeat 0 n) (List.length (repeat 0 n)) = Ok 0.
Proof.
  intros Hn. rewrite repeat_length. unfold py_sum_div.
  destruct n; [congruence|]. f_equal.
  rewrite PixelWiseEdge.py_sum_zeros; [lra|].
  apply Forall_forall. intros x Hx. now apply repeat_spec in Hx.
Qed.

(** X9: over a marker set that is not empty but none of whose planes holds
    an infill coordinate of the sample, both plane losses are 0 for the L1
    and squared-error metrics: every plane contributes the loss of two empty
    sums.  (An empty marker set raises instead.) *)
Theorem plane_losses_off_the_planes (self : t) (cs : criteria)
  (s_pred s_target : SparseTensor) (gaps : list Z)
  (infill_coords : list coord) (coord_idx : nat)
  (skip_adc skip_npixel : bool) :
  crits self = Some cs ->
  crit_metric (crit_adc cs) <> BCEWithLogits ->
  crit_metric (crit_npixel cs) <> BCEWithLogits ->
  (skip_npixel = false ->
   exists thr, adc_threshold self = Some thr /\ thr <> 0) ->
  gaps <> [] ->
  (forall c, In c infill_coords -> ~ In (col coord_idx c) gaps) ->
  _get_plane_losses self s_pred s_target (py_set gaps) infill_coords coord_idx
    skip_adc skip_npixel = Ok (0, 0).
Proof.
  intros Hcs Hma Hmn Hthr Hne Hoff. unfold _get_plane_losses.
  destruct (skip_adc && skip_npixel) eqn:Hboth; [reflexivity|].
  assert (Hgroups : Forall (fun g => snd g = [])
                      (plane_groups (py_set gaps) infill_coords coord_idx)).
  { apply Forall_forall. intros g Hg. unfold plane_groups in Hg.
    apply in_map_iff in Hg. destruct Hg as (m & <- & Hm). cbn [snd].
    apply (proj1 (GapWiseFacts.py_set_In m gaps)) in Hm.
    destruct (plane_coords infill_coords coord_idx m) as [|c l] eqn:Hpc;
      [reflexivity|].
    assert (Hc : In c (plane_coords infill_coords coord_idx m))
      by (rewrite Hpc; now left).
    apply PlaneWiseFacts.plane_coords_In in Hc. destruct Hc as [Hc <-].
    exfalso. exact (Hoff c Hc Hm). }
  assert (Hlen : List.length (plane_groups (py_set gaps) infill_coords coord_idx)
                 <> 0%nat).
  { unfold plane_groups. rewrite length_map.
    destruct (py_set gaps) as [|m l] eqn:Hset; [|discriminate].
    destruct gaps as [|g gaps]; [congruence|].
    assert (Hin : In g (py_set (g :: gaps)))
      by (apply GapWiseFacts.py_set_In; now left).
    rewrite Hset in Hin. destruct Hin. }
  rewrite (@plane_loop_empty_groups self s_pred s_target skip_adc skip_npixel);
    [|intros _; now apply (@plane_loss_adc_empty self cs)
     |intros Hs; destruct (Hthr Hs) as (thr & Ht & Hnz);
      now apply (@plane_loss_npixel_empty self cs thr)
     |exact Hgroups].
  cbn [bind fst snd app].
  destruct skip_adc, skip_npixel; try discriminate;
    rewrite ?mean_of_zeros by exact Hlen; reflexivity.
Qed.

Lemma plane_losses_off_the_planes_witness :
  _get_plane_losses Examples.planewise_self Examples.s_pred Examples.s_target
    (py_set [5; 9; 12]%Z) Examples.infill 1 false false = Ok (0, 0).
Proof.
  apply (@plane_losses_off_the_planes Examples.planewise_self _
           Examples.s_pred Examples.s_target [5; 9; 12]%Z Examples.infill 1
           false false eq_refl).
  - discriminate.
  - discriminate.
  - intros _. exists 1. split; [reflexivity|lra].
  - discriminate.
  - intros c Hc. cbn in Hc.
    destruct Hc as [<-|[<-|[<-|[]]]]; cbn; lia.
Defined.

End PlaneWiseEdge.

(** ** The breakdown and the total of GapWise.calc_loss *)

Module GapWiseCalcLoss.

Import CalcLossFacts GapWise.
Open Scope R_scope.

Lemma gapwise_calc_loss_unfold (self : t) (s_pred s_in s_target : SparseTensor)
  (data : batch_data) :
  calc_loss self s_pred s_in s_target data
  = (ls <- foldM (loop_body self s_pred s_target
                    (_get_infill_coords s_in s_target) data)
             no_losses (seq 0 (List.length (mask_x data))) ;;
     add_terms (List.length (mask_x data)) (gapwise_terms self ls) (0, [])).
Proof. reflexivity. Qed.

Lemma gapwise_terms_names_NoDup (self : t) (ls : loss_lists) :
  NoDup (map (fun tm => fst (fst tm)) (gapwise_terms self ls)).
Proof.
  cbn [gapwise_terms map fst].
  repeat constructor; cbn [In]; intuition discriminate.
Qed.

Lemma gapwise_terms_scale (self : t) (ls : loss_lists) (name : string) (lam : R) :
  In (name, lam) (get_names_scalefactors self)
  <-> In (name, lam) (map fst (gapwise_terms self ls)).
Proof.
  cbn [gapwise_terms get_names_scalefactors map fst In]. tauto.
Qed.

Lemma gapwise_terms_scale_of (self : t) (ls : loss_lists) (tm : string * R * list R) :
  In tm (gapwise_terms self ls) ->
  PixelWise.scale_of (get_names_scalefactors self) (fst (fst tm))
  = snd (fst tm).
Proof.
  cbn [gapwise_terms In].
  intros [<-|[<-|[<-|[<-|[<-|[<-|[<-|[]]]]]]]]; reflexivity.
Qed.

Lemma py_index_Ok {A : Type} (l : list A) (i : nat) (a : A) :
  py_index l i = Ok a -> (i < List.length l)%nat.
Proof.
  unfold py_index. destruct (nth_error l i) eqn:Hnth; [|discriminate].
  intros _. apply nth_error_Some. congruence.
Qed.

(** A loop that ran to its end found the markers of every sample along z. *)
Lemma loop_indexes_mask_z (self : t) (s_pred s_target : SparseTensor)
  (sel : list coord * list coord * list coord) (data : batch_data)
  (batch : list nat) :
  forall st0 ls,
    foldM (loop_body self s_pred s_target sel data) st0 batch = Ok ls ->
    Forall (fun i => (i < List.length (mask_z data))%nat) batch.
Proof.
  induction batch as [|i batch IH]; intros st0 ls Hrun; [constructor|].
  cbn [foldM] in Hrun.
  destruct (loop_body self s_pred s_target sel data st0 i) as [st1|e]
    eqn:Hbody; [cbn [bind] in Hrun|discriminate].
  constructor; [|now apply (IH st1 ls)].
  unfold loop_body in Hbody. destruct sel as [[ic icz] icnz].
  invert_binds Hbody.
  match goal with
  | H : py_index (mask_z data) i = Ok _ |- _ => now apply py_index_Ok in H
  end.
Qed.

(** The batch loop appends to each of the four gap lists the sample's
    value, for every sample in order. *)
Lemma gap_lists_filled (self : t) (s_pred s_target : SparseTensor)
  (ic icz icnz : list coord) (data : batch_data) (batch : list nat) :
  forall st0 ls,
    foldM (loop_body self s_pred s_target (ic, icz, icnz) data) st0 batch
    = Ok ls ->
    forall (name : string) (field : loss_lists -> list R),
      In (name, field)
         [ ("x_gaps_adc"%string, losses_x_gap_adc);
           ("x_gaps_npixel"%string, losses_x_gap_npixel);
           ("z_gaps_adc"%string, losses_z_gap_adc);
           ("z_gaps_npixel"%string, losses_z_gap_npixel) ] ->
      exists vs,
        mapM (gap_sample_loss self s_pred s_target ic data name) batch = Ok vs
        /\ field ls = field st0 ++ vs.
Proof.
  induction batch as [|i batch IH]; intros st0 ls Hrun name field Hname.
  - cbn in Hrun. injection Hrun as <-. exists []. split; [reflexivity|].
    now rewrite app_nil_r.
  - cbn [foldM] in Hrun.
    destruct (loop_body self s_pred s_target (ic, icz, icnz) data st0 i)
      as [st1|e] eqn:Hbody; [cbn [bind] in Hrun|discriminate].
    destruct (IH st1 ls Hrun name field Hname) as (vs & Hvs & Hls).
    unfold loop_body in Hbody. invert_binds Hbody.
    injection Hbody as <-.
    cbn [In] in Hname.
    destruct Hname as [Hn|[Hn|[Hn|[Hn|[]]]]]; injection Hn as <- <-;
      cbn [losses_x_gap_adc losses_x_gap_npixel losses_z_gap_adc
           losses_z_gap_npixel] in Hls;
      cbn [mapM]; unfold gap_sample_loss at 1;
      cbn [String.eqb Ascii.eqb Bool.eqb orb andb];
      repeat (match goal with
              | H : ?m = Ok _ |- context [?m] => rewrite H
              end; cbn [bind]);
      eexists; (split; [reflexivity|]); now rewrite Hls, <- app_assoc.
Qed.

(** A sample none of whose infill coordinates lies on a marker of its set
    has the value 0. *)
Lemma gap_sample_loss_without_active_markers (self : t)
  (s_pred s_target : SparseTensor) (ic : list coord) (data : batch_data)
  (i : nat) (gaps : list Z) :
  (nth_error (mask_x data) i = Some gaps ->
   active_gap_coords (py_set gaps) (batch_rows (Z.of_nat i) ic) 1 = [] ->
   gap_sample_loss self s_pred s_target ic data "x_gaps_adc" i = Ok 0
   /\ gap_sample_loss self s_pred s_target ic data "x_gaps_npixel" i = Ok 0)
  /\ (nth_error (mask_z data) i = Some gaps ->
      active_gap_coords (py_set gaps) (batch_rows (Z.of_nat i) ic) 3 = [] ->
      gap_sample_loss self s_pred s_target ic data "z_gaps_adc" i = Ok 0
      /\ gap_sample_loss self s_pred s_target ic data "z_gaps_npixel" i = Ok 0).
Proof.
  split; intros Hnth Hact; unfold gap_sample_loss, py_index;
    cbn [String.eqb Ascii.eqb Bool.eqb orb andb]; rewrite Hnth; cbn [bind];
    unfold _get_gap_losses; rewrite Hact;
    (split; match goal with
            | |- context [if ?b then _ else _] => destruct b
            end; reflexivity).
Qed.

(** X10: whenever GapWise [calc_loss] returns, the breakdown has a key for a
    sub-term exactly when the sub-term's scale factor is not zero, each key
    once; the total is the sum over the breakdown of scale factor times
    value; the value of a gap sub-term is the sum over the samples of the
    batch, in order, of the sample's gap loss along the axis (the adc or the
    npixel component of what [_get_gap_losses] returns on the sample's
    markers and infill coordinates), divided by the batch size; a sample
    without active markers enters that sum with 0; and the batch has gap
    markers along z for every sample it has along x. *)
Theorem gapwise_calc_loss_breakdown (self : t) (s_pred s_in s_target : SparseTensor)
  (data : batch_data) (tot : R) (losses : list (string * R)) :
  calc_loss self s_pred s_in s_target data = Ok (tot, losses) ->
  let batch_size := List.length (mask_x data) in
  let scale := get_names_scalefactors self in
  let infill_coords := fst (fst (_get_infill_coords s_in s_target)) in
  let sample_loss := gap_sample_loss self s_pred s_target infill_coords data in
  NoDup (keys losses)
  /\ (forall name, In name (keys losses)
                   <-> exists lam, In (name, lam) scale /\ lam <> 0)
  /\ tot = PixelWise.weighted_total scale losses
  /\ (forall name v,
        In (name, v) losses ->
        In name ["x_gaps_adc"; "x_gaps_npixel"; "z_gaps_adc";
                 "z_gaps_npixel"]%string ->
        exists entries,
          mapM (sample_loss name) (seq 0 batch_size) = Ok entries
          /\ v = py_sum entries / INR batch_size)
  /\ (forall i gaps,
        nth_error (mask_x data) i = Some gaps ->
        active_gap_coords (py_set gaps)
          (batch_rows (Z.of_nat i) infill_coords) 1 = [] ->
        sample_loss "x_gaps_adc"%string i = Ok 0
        /\ sample_loss "x_gaps_npixel"%string i = Ok 0)
  /\ (forall i gaps,
        nth_error (mask_z data) i = Some gaps ->
        active_gap_coords (py_set gaps)
          (batch_rows (Z.of_nat i) infill_coords) 3 = [] ->
        sample_loss "z_gaps_adc"%string i = Ok 0
        /\ sample_loss "z_gaps_npixel"%string i = Ok 0)
  /\ (batch_size <= List.length (mask_z data))%nat.
Proof.
  intros Hrun batch_size scale infill_coords sample_loss.
  rewrite gapwise_calc_loss_unfold in Hrun.
  destruct (foldM _ no_losses _) as [ls|e] eqn:Hloop;
    [cbn [bind] in Hrun|discriminate].
  fold batch_size in Hrun, Hloop.
  apply add_terms_result in Hrun;
    [|apply gapwise_terms_names_NoDup|intros tm _ []].
  destruct Hrun as (Hlosses & Htot & _). cbn [app] in Hlosses.
  set (ts := gapwise_terms self ls) in *.
  set (value := fun tm : string * R * list R =>
                  (fst (fst tm), py_sum (snd tm) / INR batch_size)) in *.
  assert (Hkeys : keys losses = map (fun tm => fst (fst tm)) (enabled ts)).
  { rewrite Hlosses. unfold keys. now rewrite map_map. }
  split; [|split; [|split; [|split; [|split; [|split]]]]].
  - rewrite Hkeys. apply enabled_names_NoDup, gapwise_terms_names_NoDup.
  - intros name. rewrite Hkeys, in_map_iff. split.
    + intros ([[n lam] l] & <- & Hin). apply filter_In in Hin.
      destruct Hin as [Hin Hlam]. cbn [fst snd] in *.
      exists lam. split; [|now apply truthy_true].
      apply (proj2 (gapwise_terms_scale self ls n lam)).
      change (n, lam) with (fst (n, lam, l)).
      now apply in_map.
    + intros (lam & Hin & Hlam).
      apply (proj1 (gapwise_terms_scale self ls name lam)) in Hin.
      apply in_map_iff in Hin. destruct Hin as ([[n lam'] l] & Heq & Hin).
      cbn [fst] in Heq. inversion Heq; subst.
      exists (name, lam, l). split; [reflexivity|].
      apply filter_In. split; [exact Hin|]. now apply truthy_true.
  - rewrite Htot, Hlosses. unfold PixelWise.weighted_total.
    rewrite fold_left_map_acc. apply fold_left_ext_in.
    intros acc tm Hin. apply filter_In in Hin. destruct Hin as [Hin _].
    unfold value, scale. cbn [fst snd]. now rewrite (gapwise_terms_scale_of Hin).
  - intros name v Hin Hgap. rewrite Hlosses in Hin. apply in_map_iff in Hin.
    destruct Hin as (tm & Heq & Hin). apply filter_In in Hin.
    destruct Hin as [Hin _]. unfold value in Heq. injection Heq as Hname Hv.
    unfold infill_coords, sample_loss in *.
    destruct (_get_infill_coords s_in s_target) as [[ic icz] icnz].
    cbn [fst].
    pose proof (@gap_lists_filled self s_pred s_target ic icz icnz data
                  _ _ _ Hloop) as Hfilled.
    unfold ts in Hin. cbn [gapwise_terms In] in Hin. cbn [In] in Hgap.
    destruct Hin as [<-|[<-|[<-|[<-|[<-|[<-|[<-|[]]]]]]]];
      cbn [fst snd] in *; subst name;
      try (exfalso; repeat (destruct Hgap as [Hgap|Hgap]; [discriminate|]);
           now destruct Hgap);
      match goal with
      | |- context [mapM (gap_sample_loss _ _ _ _ _ ?n)] =>
          match type of Hv with
          | context [py_sum (?f ls)] =>
              destruct (Hfilled n f ltac:(cbn [In]; tauto))
                as (vs & Hvs & Hl)
          end
      end;
      exists vs; (split; [exact Hvs|]); rewrite <- Hv, Hl; reflexivity.
  - intros i gaps.
    apply (proj1 (gap_sample_loss_without_active_markers self s_pred s_target
                    infill_coords data i gaps)).
  - intros i gaps.
    apply (proj2 (gap_sample_loss_without_active_markers self s_pred s_target
                    infill_coords data i gaps)).
  - apply loop_indexes_mask_z in Hloop. rewrite Forall_forall in Hloop.
    destruct batch_size as [|n] eqn:Hbs; [lia|].
    specialize (Hloop n). rewrite in_seq in Hloop. lia.
Qed.

Section Returns.

Variables (self : t) (cs : criteria) (s_pred s_target : SparseTensor).

Hypothesis crits_set : crits self = Some cs.
Hypothesis sum_variant :
  crit_reduction (crit_adc_pixelwise_sumreduction cs) = Sum.
Hypothesis pred_wf : well_formed s_pred.
Hypothesis target_wf : well_formed s_target.
Hypothesis same_channels : nchannels s_pred = nchannels s_target.
Hypothesis threshold_set :
  forall lam, lam = lambda_loss_x_gaps_npixel self
              \/ lam = lambda_loss_z_gaps_npixel self ->
    lam <> 0 -> exists thr, adc_threshold self = Some thr /\ thr <> 0.

Lemma gapwise_loss_at_coords_ok (coords : list coord) :
  exists v, _get_loss_at_coords self s_pred s_target coords = Ok v.
Proof.
  unfold _get_loss_at_coords, attr. rewrite crits_set.
  destruct coords as [|c l]; cbn [List.length bind];
    apply crit_features_ok; try assumption; try discriminate.
  intros _. exact sum_variant.
Qed.

Lemma gap_losses_ok (gaps : list Z) (infill_coords : list coord)
  (coord_idx : nat) (lam_adc lam_npixel : R) :
  lam_npixel = lambda_loss_x_gaps_npixel self
  \/ lam_npixel = lambda_loss_z_gaps_npixel self ->
  exists ret,
    _get_gap_losses self s_pred s_target gaps infill_coords coord_idx
      (negb (truthy lam_adc)) (negb (truthy lam_npixel)) = Ok ret.
Proof.
  intros Hlam. unfold _get_gap_losses.
  destruct (negb (truthy lam_adc) && negb (truthy lam_npixel));
    [eexists; reflexivity|].
  destruct (active_gap_coords gaps infill_coords coord_idx) as [|a rest]
    eqn:Hact; [eexists; reflexivity|].
  assert (Hthr : negb (truthy lam_npixel) = false ->
                 exists thr, adc_threshold self = Some thr /\ thr <> 0).
  { intros Hskip. apply negb_false_iff, truthy_true in Hskip.
    now apply (threshold_set Hlam). }
  pose proof (GapWiseFacts.ranges_select_coords gaps infill_coords coord_idx)
    as Hsel.
  assert (Hne : GapWiseRanges._get_edge_ranges
                  (active_gap_coords gaps infill_coords coord_idx) <> []).
  { apply GapWiseRangesFacts.edge_ranges_nonempty. rewrite Hact. discriminate. }
  rewrite Hact in Hsel, Hne.
  assert (Hsel' : Forall (fun r => (fst r <= snd r)%Z
            /\ gap_coords infill_coords coord_idx (fst r) (snd r) <> [])
            (GapWiseRanges._get_edge_ranges (a :: rest))).
  { eapply Forall_impl; [|exact Hsel]. cbv beta. tauto. }
  destruct (@GapWiseFacts.range_loop_ok self cs s_pred s_target infill_coords
              coord_idx (negb (truthy lam_adc)) (negb (truthy lam_npixel))
              crits_set Hthr _ Hsel' ([], []))
    as (ls & Hls & Ha & Hn).
  rewrite Hls. cbn [bind].
  unfold grown in Ha, Hn. cbn [fst snd List.length Nat.add] in Ha, Hn.
  apply GapWiseFacts.length_nonzero in Hne.
  assert (Hdiv : forall (skip : bool) (l : list R),
            List.length l
            = (if skip then 0%nat
               else List.length (GapWiseRanges._get_edge_ranges (a :: rest))) ->
            exists v, (if skip then Ok 0
                       else py_sum_div l (List.length l)) = Ok v).
  { intros skip l Hl. destruct skip; [now exists 0|]. rewrite Hl.
    unfold py_sum_div.
    destruct (List.length (GapWiseRanges._get_edge_ranges (a :: rest)));
      [congruence|eexists; reflexivity]. }
  destruct (Hdiv _ _ Ha) as [va ->]. destruct (Hdiv _ _ Hn) as [vn ->].
  cbn [bind]. eexists; reflexivity.
Qed.

Lemma gapwise_loop_ok (sel : list coord * list coord * list coord)
  (data : batch_data) (batch : list nat) :
  Forall (fun i => (i < List.length (mask_x data))%nat
                   /\ (i < List.length (mask_z data))%nat) batch ->
  forall st0, exists ls,
    foldM (loop_body self s_pred s_target sel data) st0 batch = Ok ls.
Proof.
  induction 1 as [|i batch [Hx Hz] _ IH]; intros st0; [now exists st0|].
  cbn [foldM]. unfold loop_body at 1. destruct sel as [[ic icz] icnz].
  repeat match goal with
    | |- context [append_when ?lam ?l ?v] =>
        let Hx := fresh "Hx" in
        let l' := fresh "l" in
        destruct (@append_when_ok lam l v) as [l' Hx];
        [apply gapwise_loss_at_coords_ok|];
        rewrite Hx; cbn [bind]
    end.
  unfold py_index.
  destruct (nth_error (mask_x data) i) as [gx|] eqn:Egx;
    [|apply nth_error_None in Egx; lia].
  destruct (nth_error (mask_z data) i) as [gz|] eqn:Egz;
    [|apply nth_error_None in Egz; lia].
  cbn [bind].
  destruct (@gap_losses_ok (py_set gx) (batch_rows (Z.of_nat i) ic) 1
              (lambda_loss_x_gaps_adc self) (lambda_loss_x_gaps_npixel self)
              (or_introl eq_refl)) as [rx ->].
  cbn [bind].
  destruct (@gap_losses_ok (py_set gz) (batch_rows (Z.of_nat i) ic) 3
              (lambda_loss_z_gaps_adc self) (lambda_loss_z_gaps_npixel self)
              (or_intror eq_refl)) as [rz ->].
  cbn [bind]. apply IH.
Qed.

End Returns.

(** X11: a GapWise strategy that the factory returned does not fail on
    well-formed tensors, the prediction and the target with the same number
    of feature channels, and a batch that is not empty and has markers along z for every
    sample: [calc_loss] returns a total and a breakdown, whether or not the
    samples have active gap markers. *)
Theorem gapwise_factory_calc_loss_returns (conf : config) (self : t)
  (s_pred s_in s_target : SparseTensor) (data : batch_data) :
  init_loss_func conf = Ok (IsGapWise self) ->
  well_formed s_pred -> well_formed s_in -> well_formed s_target ->
  nchannels s_pred = nchannels s_target ->
  mask_x data <> [] ->
  (List.length (mask_x data) <= List.length (mask_z data))%nat ->
  exists tot losses,
    calc_loss self s_pred s_in s_target data = Ok (tot, losses).
Proof.
  intros Hfac Hp _ Ht Hch Hne Hz.
  assert (Hinit : GapWise.__init__ conf = Ok self
                  /\ In (loss_func conf)
                        ["GapWise_L1Loss"; "GapWise_MSELoss";
                         "GapWise_L1Loss_MSELossPixelWise"]%string).
  { unfold init_loss_func in Hfac.
    destruct (String.eqb (loss_func conf) "PixelWise_L1Loss"
              || String.eqb (loss_func conf) "PixelWise_MSELoss"
              || String.eqb (loss_func conf) "PixelWise_BCEWithLogitsLoss");
      [destruct (PixelWise.__init__ conf); discriminate|].
    destruct (String.eqb_spec (loss_func conf) "GapWise_L1Loss") as [E1|_];
      [|destruct (String.eqb_spec (loss_func conf) "GapWise_MSELoss") as [E2|_];
        [|destruct (String.eqb_spec (loss_func conf)
                      "GapWise_L1Loss_MSELossPixelWise") as [E3|_]]];
      cbn [orb] in Hfac.
    1-3: destruct (GapWise.__init__ conf) as [self'|e]; [|discriminate];
         cbn [bind] in Hfac; inversion Hfac; subst self'; split;
         [reflexivity|cbn [In]; rewrite ?E1, ?E2, ?E3; tauto].
    destruct (String.eqb (loss_func conf) "PlaneWise_L1Loss");
      [destruct (PlaneWise.__init__ conf); discriminate|].
    destruct (String.eqb (loss_func conf) "Chamfer"); discriminate. }
  destruct Hinit as [Hinit Hname].
  destruct (FactoryFacts.gapwise_init_criteria conf Hinit) as [Hcs _].
  destruct (ConstructionFacts.gapwise_init_ready conf Hinit)
    as [(thr & Hthr & Hnz) _].
  assert (Hcrits : exists cs, crits self = Some cs
            /\ crit_reduction (crit_adc_pixelwise_sumreduction cs) = Sum).
  { rewrite Hcs. cbn [In] in Hname.
    destruct Hname as [<-|[<-|[<-|[]]]]; cbn; eexists; split; reflexivity. }
  destruct Hcrits as (cs & Hcrits & Hsum).
  rewrite gapwise_calc_loss_unfold.
  destruct (@gapwise_loop_ok self cs s_pred s_target Hcrits Hsum Hp Ht Hch) with
    (sel := _get_infill_coords s_in s_target) (data := data)
    (batch := seq 0 (List.length (mask_x data))) (st0 := no_losses)
    as [ls Hls].
  - intros lam Hlam Hl. exists thr. split; [exact Hthr|]. apply Hnz.
    destruct Hlam as [-> | ->]; [left|right]; now apply truthy_true.
  - apply Forall_forall. intros i Hi. apply in_seq in Hi. lia.
  - rewrite Hls. cbn [bind].
    destruct (@add_terms_ok (List.length (mask_x data)) (gapwise_terms self ls))
      with (st := (0, @nil (string * R))) as [[tot losses] Hst].
    + destruct (mask_x data); [congruence|discriminate].
    + now exists tot, losses.
Qed.

Lemma factory_gapwise_sample :
  init_loss_func Examples.gapwise_conf = Ok (IsGapWise Examples.gapwise_self).
Proof.
  unfold init_loss_func.
  cbn [Examples.gapwise_conf Examples.config_of loss_func].
  cbn [String.eqb Ascii.eqb Bool.eqb orb].
  now rewrite GapWiseFacts.gapwise_self_constructed.
Qed.

Lemma gapwise_factory_calc_loss_returns_witness :
  exists tot losses,
    calc_loss Examples.gapwise_self Examples.s_pred Examples.s_in
      Examples.s_target Examples.data = Ok (tot, losses).
Proof.
  apply (@gapwise_factory_calc_loss_returns Examples.gapwise_conf).
  - exact factory_gapwise_sample.
  - split; [cbn; lia|repeat constructor].
  - split; [cbn; lia|repeat constructor].
  - split; [cbn; lia|repeat constructor].
  - reflexivity.
  - discriminate.
  - cbn. lia.
Defined.

Lemma gapwise_calc_loss_breakdown_witness :
  exists tot losses,
    calc_loss Examples.gapwise_self Examples.s_pred Examples.s_in
      Examples.s_target Examples.data = Ok (tot, losses)
    /\ NoDup (keys losses)
    /\ tot = PixelWise.weighted_total
               (get_names_scalefactors Examples.gapwise_self) losses.
Proof.
  destruct (@gapwise_loop_ok Examples.gapwise_self _ Examples.s_pred Examples.s_target
              eq_refl eq_refl) with
    (sel := _get_infill_coords Examples.s_in Examples.s_target)
    (data := Examples.data) (batch := seq 0 1) (st0 := no_losses)
    as [ls Hls].
  - split; [cbn; lia|repeat constructor].
  - split; [cbn; lia|repeat constructor].
  - reflexivity.
  - intros lam _ _. exists 1. split; [reflexivity|lra].
  - repeat constructor.
  - destruct (@add_terms_ok 1 (gapwise_terms Examples.gapwise_self ls))
      with (st := (0, @nil (string * R))) as [[tot losses] Hst];
      [discriminate|].
    assert (Hrun : calc_loss Examples.gapwise_self Examples.s_pred
                     Examples.s_in Examples.s_target Examples.data
                   = Ok (tot, losses)).
    { rewrite gapwise_calc_loss_unfold.
      change (List.length (mask_x Examples.data)) with 1%nat.
      rewrite Hls. exact Hst. }
    exists tot, losses. split; [exact Hrun|].
    pose proof (gapwise_calc_loss_breakdown _ _ _ _ _ Hrun) as (Hnd & _ & Htot & _).
    split; [exact Hnd|exact Htot].
Defined.

End GapWiseCalcLoss.

(** ** The breakdown and the total of PlaneWise.calc_loss *)

Module PlaneWiseCalcLoss.

Import CalcLossFacts PlaneWise.
Open Scope R_scope.

Lemma planewise_calc_loss_unfold (self : t)
  (s_pred s_in s_target : SparseTensor) (data : batch_data) :
  calc_loss self s_pred s_in s_target data
  = (ls <- foldM (loop_body self s_pred s_target
                    (_get_infill_coords s_in s_target) data)
             no_losses (seq 0 (List.length (mask_x data))) ;;
     add_terms (List.length (mask_x data)) (planewise_terms self ls) (0, [])).
Proof. reflexivity. Qed.

Lemma planewise_terms_names_NoDup (self : t) (ls : loss_lists) :
  NoDup (map (fun tm => fst (fst tm)) (planewise_terms self ls)).
Proof.
  cbn [planewise_terms map fst].
  repeat constructor; cbn [In]; intuition discriminate.
Qed.

Lemma planewise_terms_scale (self : t) (ls : loss_lists) (name : string)
  (lam : R) :
  In (name, lam) (get_names_scalefactors self)
  <-> In (name, lam) (map fst (planewise_terms self ls)).
Proof.
  cbn [planewise_terms get_names_scalefactors map fst In]. tauto.
Qed.

Lemma planewise_terms_scale_of (self : t) (ls : loss_lists)
  (tm : string * R * list R) :
  In tm (planewise_terms self ls) ->
  PixelWise.scale_of (get_names_scalefactors self) (fst (fst tm))
  = snd (fst tm).
Proof.
  cbn [planewise_terms In].
  intros [<-|[<-|[<-|[<-|[<-|[<-|[<-|[]]]]]]]]; reflexivity.
Qed.

(** Every sample adds one entry to each of the four lists of plane losses,
    and a loop that ran to its end found the markers of every sample along
    z. *)
Lemma plane_lists_length (self : t) (s_pred s_target : SparseTensor)
  (sel : list coord * list coord * list coord) (data : batch_data)
  (batch : list nat) :
  forall st0 ls,
    foldM (loop_body self s_pred s_target sel data) st0 batch = Ok ls ->
    (List.length (losses_x_plane_adc ls)
     = List.length (losses_x_plane_adc st0) + List.length batch
     /\ List.length (losses_x_plane_npixel ls)
        = List.length (losses_x_plane_npixel st0) + List.length batch
     /\ List.length (losses_z_plane_adc ls)
        = List.length (losses_z_plane_adc st0) + List.length batch
     /\ List.length (losses_z_plane_npixel ls)
        = List.length (losses_z_plane_npixel st0) + List.length batch)%nat
    /\ Forall (fun i => (i < List.length (mask_z data))%nat) batch.
Proof.
  induction batch as [|i batch IH]; intros st0 ls Hrun.
  - cbn in Hrun. inversion Hrun; subst. cbn.
    split; [lia|constructor].
  - cbn [foldM] in Hrun.
    destruct (loop_body self s_pred s_target sel data st0 i) as [st1|e]
      eqn:Hbody; [cbn [bind] in Hrun|discriminate].
    destruct (IH st1 ls Hrun) as ((I1 & I2 & I3 & I4) & Hz).
    unfold loop_body in Hbody. destruct sel as [[ic icz] icnz].
    invert_binds Hbody.
    inversion Hbody; subst st1; clear Hbody.
    cbn [losses_x_plane_adc losses_x_plane_npixel losses_z_plane_adc
         losses_z_plane_npixel] in *.
    rewrite length_app in I1, I2, I3, I4. cbn [List.length] in *.
    split; [lia|]. constructor; [|exact Hz].
    match goal with
    | H : py_index (mask_z data) i = Ok _ |- _ =>
        now apply GapWiseCalcLoss.py_index_Ok in H
    end.
Qed.

(** The batch loop appends to each of the four plane lists the sample's
    value, for every sample in order. *)
Lemma plane_lists_filled (self : t) (s_pred s_target : SparseTensor)
  (ic icz icnz : list coord) (data : batch_data) (batch : list nat) :
  forall st0 ls,
    foldM (loop_body self s_pred s_target (ic, icz, icnz) data) st0 batch
    = Ok ls ->
    forall (name : string) (field : loss_lists -> list R),
      In (name, field)
         [ ("x_planes_adc"%string, losses_x_plane_adc);
           ("x_planes_npixel"%string, losses_x_plane_npixel);
           ("z_planes_adc"%string, losses_z_plane_adc);
           ("z_planes_npixel"%string, losses_z_plane_npixel) ] ->
      exists vs,
        mapM (plane_sample_loss self s_pred s_target ic data name) batch
        = Ok vs
        /\ field ls = field st0 ++ vs.
Proof.
  induction batch as [|i batch IH]; intros st0 ls Hrun name field Hname.
  - cbn in Hrun. injection Hrun as <-. exists []. split; [reflexivity|].
    now rewrite app_nil_r.
  - cbn [foldM] in Hrun.
    destruct (loop_body self s_pred s_target (ic, icz, icnz) data st0 i)
      as [st1|e] eqn:Hbody; [cbn [bind] in Hrun|discriminate].
    destruct (IH st1 ls Hrun name field Hname) as (vs & Hvs & Hls).
    unfold loop_body in Hbody. invert_binds Hbody.
    injection Hbody as <-.
    cbn [In] in Hname.
    destruct Hname as [Hn|[Hn|[Hn|[Hn|[]]]]]; injection Hn as <- <-;
      cbn [losses_x_plane_adc losses_x_plane_npixel losses_z_plane_adc
           losses_z_plane_npixel] in Hls;
      cbn [mapM]; unfold plane_sample_loss at 1;
      cbn [String.eqb Ascii.eqb Bool.eqb orb andb];
      repeat (match goal with
              | H : ?m = Ok _ |- context [?m] => rewrite H
              end; cbn [bind]);
      eexists; (split; [reflexivity|]); now rewrite Hls, <- app_assoc.
Qed.

(** X12: whenever PlaneWise [calc_loss] returns, the breakdown has a key for
    a sub-term exactly when the sub-term's scale factor is not zero, each key
    once; the total is the sum over the breakdown of scale factor times
    value; the value of a plane sub-term is the sum over the samples of the
    batch, in order, of the sample's plane loss along the axis (the adc or
    the npixel component of what [_get_plane_losses] returns on the sample's
    markers and infill coordinates), divided by the batch size; and the
    batch has markers along z for every sample it has along x. *)
Theorem planewise_calc_loss_breakdown (self : t)
  (s_pred s_in s_target : SparseTensor) (data : batch_data)
  (tot : R) (losses : list (string * R)) :
  calc_loss self s_pred s_in s_target data = Ok (tot, losses) ->
  let batch_size := List.length (mask_x data) in
  let scale := get_names_scalefactors self in
  let infill_coords := fst (fst (_get_infill_coords s_in s_target)) in
  let sample_loss := plane_sample_loss self s_pred s_target infill_coords data in
  NoDup (keys losses)
  /\ (forall name, In name (keys losses)
                   <-> exists lam, In (name, lam) scale /\ lam <> 0)
  /\ tot = PixelWise.weighted_total scale losses
  /\ (forall name v,
        In (name, v) losses ->
        In name ["x_planes_adc"; "x_planes_npixel"; "z_planes_adc";
                 "z_planes_npixel"]%string ->
        exists entries,
          mapM (sample_loss name) (seq 0 batch_size) = Ok entries
          /\ v = py_sum entries / INR batch_size)
  /\ (batch_size <= List.length (mask_z data))%nat.
Proof.
  intros Hrun batch_size scale infill_coords sample_loss.
  rewrite planewise_calc_loss_unfold in Hrun.
  destruct (foldM _ no_losses _) as [ls|e] eqn:Hloop;
    [cbn [bind] in Hrun|discriminate].
  fold batch_size in Hrun, Hloop.
  apply add_terms_result in Hrun;
    [|apply planewise_terms_names_NoDup|intros tm _ []].
  destruct Hrun as (Hlosses & Htot & _). cbn [app] in Hlosses.
  set (ts := planewise_terms self ls) in *.
  set (value := fun tm : string * R * list R =>
                  (fst (fst tm), py_sum (snd tm) / INR batch_size)) in *.
  assert (Hkeys : keys losses = map (fun tm => fst (fst tm)) (enabled ts)).
  { rewrite Hlosses. unfold keys. now rewrite map_map. }
  destruct (@plane_lists_length self s_pred s_target _ data _ _ _ Hloop)
    as ((L1 & L2 & L3 & L4) & Hmz).
  split; [|split; [|split; [|split]]].
  - rewrite Hkeys. apply enabled_names_NoDup, planewise_terms_names_NoDup.
  - intros name. rewrite Hkeys, in_map_iff. split.
    + intros ([[n lam] l] & <- & Hin). apply filter_In in Hin.
      destruct Hin as [Hin Hlam]. cbn [fst snd] in *.
      exists lam. split; [|now apply truthy_true].
      apply (proj2 (planewise_terms_scale self ls n lam)).
      change (n, lam) with (fst (n, lam, l)).
      now apply in_map.
    + intros (lam & Hin & Hlam).
      apply (proj1 (planewise_terms_scale self ls name lam)) in Hin.
      apply in_map_iff in Hin. destruct Hin as ([[n lam'] l] & Heq & Hin).
      cbn [fst] in Heq. inversion Heq; subst.
      exists (name, lam, l). split; [reflexivity|].
      apply filter_In. split; [exact Hin|]. now apply truthy_true.
  - rewrite Htot, Hlosses. unfold PixelWise.weighted_total.
    rewrite fold_left_map_acc. apply fold_left_ext_in.
    intros acc tm Hin. apply filter_In in Hin. destruct Hin as [Hin _].
    unfold value, scale. cbn [fst snd].
    now rewrite (planewise_terms_scale_of Hin).
  - intros name v Hin Hplane. rewrite Hlosses in Hin. apply in_map_iff in Hin.
    destruct Hin as (tm & Heq & Hin). apply filter_In in Hin.
    destruct Hin as [Hin _]. unfold value in Heq. injection Heq as Hname Hv.
    clear L1 L2 L3 L4 Hmz.
    unfold infill_coords, sample_loss in *.
    destruct (_get_infill_coords s_in s_target) as [[ic icz] icnz].
    cbn [fst].
    pose proof (@plane_lists_filled self s_pred s_target ic icz icnz data
                  _ _ _ Hloop) as Hfilled.
    unfold ts in Hin. cbn [planewise_terms In] in Hin. cbn [In] in Hplane.
    destruct Hin as [<-|[<-|[<-|[<-|[<-|[<-|[<-|[]]]]]]]];
      cbn [fst snd] in *; subst name;
      try (exfalso; repeat (destruct Hplane as [Hplane|Hplane];
                            [discriminate|]);
           now destruct Hplane);
      match goal with
      | |- context [mapM (plane_sample_loss _ _ _ _ _ ?n)] =>
          match type of Hv with
          | context [py_sum (?f ls)] =>
              destruct (Hfilled n f ltac:(cbn [In]; tauto))
                as (vs & Hvs & Hl)
          end
      end;
      exists vs; (split; [exact Hvs|]); rewrite <- Hv, Hl; reflexivity.
  - rewrite Forall_forall in Hmz.
    destruct batch_size as [|n] eqn:Hbs; [lia|].
    specialize (Hmz n). rewrite in_seq in Hmz. lia.
Qed.

Section PlaneReturns.

Variables (self : t) (cs : criteria) (s_pred s_target : SparseTensor).

Hypothesis crits_set : crits self = Some cs.
Hypothesis sum_variant : crit_reduction (crit_adc_sumreduction cs) = Sum.
Hypothesis pred_wf : well_formed s_pred.
Hypothesis target_wf : well_formed s_target.
Hypothesis same_channels : nchannels s_pred = nchannels s_target.
Hypothesis threshold_set :
  forall lam, lam = lambda_loss_x_planes_npixel self
              \/ lam = lambda_loss_z_planes_npixel self ->
    lam <> 0 -> exists thr, adc_threshold self = Some thr /\ thr <> 0.

Lemma planewise_loss_at_coords_ok (coords : list coord) :
  exists v, _get_loss_at_coords self s_pred s_target coords = Ok v.
Proof.
  unfold _get_loss_at_coords, attr. rewrite crits_set.
  destruct coords as [|c l]; cbn [List.length bind];
    apply crit_features_ok; try assumption; try discriminate.
  intros _. exact sum_variant.
Qed.

Lemma plane_losses_ok (gaps : list Z) (infill_coords : list coord)
  (coord_idx : nat) (lam_adc lam_npixel : R) :
  lam_npixel = lambda_loss_x_planes_npixel self
  \/ lam_npixel = lambda_loss_z_planes_npixel self ->
  (lam_adc <> 0 \/ lam_npixel <> 0 -> gaps <> []) ->
  exists ret,
    _get_plane_losses self s_pred s_target (py_set gaps) infill_coords
      coord_idx (negb (truthy lam_adc)) (negb (truthy lam_npixel)) = Ok ret.
Proof.
  intros Hlam Hgaps. unfold _get_plane_losses.
  destruct (negb (truthy lam_adc) && negb (truthy lam_npixel)) eqn:Hboth;
    [eexists; reflexivity|].
  assert (Hthr : negb (truthy lam_npixel) = false ->
                 exists thr, adc_threshold self = Some thr /\ thr <> 0).
  { intros Hskip. apply negb_false_iff, truthy_true in Hskip.
    now apply (threshold_set Hlam). }
  destruct (@PlaneWiseFacts.plane_loop_ok self cs s_pred s_target
              (negb (truthy lam_adc)) (negb (truthy lam_npixel))
              crits_set Hthr
              (plane_groups (py_set gaps) infill_coords coord_idx) ([], []))
    as (ls & Hls & Ha & Hn).
  rewrite Hls. cbn [bind].
  unfold grown in Ha, Hn. cbn [fst snd List.length Nat.add] in Ha, Hn.
  assert (Hne : List.length (plane_groups (py_set gaps) infill_coords coord_idx)
                <> 0%nat).
  { unfold plane_groups. rewrite length_map.
    assert (Hg : gaps <> []).
    { apply Hgaps. apply andb_false_iff in Hboth.
      destruct Hboth as [H|H]; apply negb_false_iff, truthy_true in H; tauto. }
    destruct (py_set gaps) as [|m l] eqn:Hset; [|discriminate].
    destruct gaps as [|g gaps]; [congruence|].
    assert (Hin : In g (py_set (g :: gaps)))
      by (apply GapWiseFacts.py_set_In; now left).
    rewrite Hset in Hin. destruct Hin. }
  assert (Hdiv : forall (skip : bool) (l : list R),
            List.length l
            = (if skip then 0%nat
               else List.length
                      (plane_groups (py_set gaps) infill_coords coord_idx)) ->
            exists v, (if skip then Ok 0
                       else py_sum_div l (List.length l)) = Ok v).
  { intros skip l Hl. destruct skip; [now exists 0|]. rewrite Hl.
    unfold py_sum_div.
    destruct (List.length (plane_groups (py_set gaps) infill_coords coord_idx));
      [congruence|eexists; reflexivity]. }
  destruct (Hdiv _ _ Ha) as [va ->]. destruct (Hdiv _ _ Hn) as [vn ->].
  cbn [bind]. eexists; reflexivity.
Qed.

Lemma planewise_loop_ok (sel : list coord * list coord * list coord)
  (data : batch_data) (batch : list nat) :
  (lambda_loss_x_planes_adc self <> 0 \/ lambda_loss_x_planes_npixel self <> 0 ->
   Forall (fun g => g <> []) (mask_x data)) ->
  (lambda_loss_z_planes_adc self <> 0 \/ lambda_loss_z_planes_npixel self <> 0 ->
   Forall (fun g => g <> []) (mask_z data)) ->
  Forall (fun i => (i < List.length (mask_x data))%nat
                   /\ (i < List.length (mask_z data))%nat) batch ->
  forall st0, exists ls,
    foldM (loop_body self s_pred s_target sel data) st0 batch = Ok ls.
Proof.
  intros Hmx Hmz.
  induction 1 as [|i batch [Hx Hz] _ IH]; intros st0; [now exists st0|].
  cbn [foldM]. unfold loop_body at 1. destruct sel as [[ic icz] icnz].
  repeat match goal with
    | |- context [append_when ?lam ?l ?v] =>
        let Hx := fresh "Hx" in
        let l' := fresh "l" in
        destruct (@append_when_ok lam l v) as [l' Hx];
        [apply planewise_loss_at_coords_ok|];
        rewrite Hx; cbn [bind]
    end.
  unfold py_index.
  destruct (nth_error (mask_x data) i) as [gx|] eqn:Egx;
    [|apply nth_error_None in Egx; lia].
  destruct (nth_error (mask_z data) i) as [gz|] eqn:Egz;
    [|apply nth_error_None in Egz; lia].
  cbn [bind].
  destruct (@plane_losses_ok gx (batch_rows (Z.of_nat i) ic) 1
              (lambda_loss_x_planes_adc self)
              (lambda_loss_x_planes_npixel self) (or_introl eq_refl))
    as [rx ->].
  { intros Hen. specialize (Hmx Hen). rewrite Forall_forall in Hmx.
    apply Hmx. eapply nth_error_In; eassumption. }
  cbn [bind].
  destruct (@plane_losses_ok gz (batch_rows (Z.of_nat i) ic) 3
              (lambda_loss_z_planes_adc self)
              (lambda_loss_z_planes_npixel self) (or_intror eq_refl))
    as [rz ->].
  { intros Hen. specialize (Hmz Hen). rewrite Forall_forall in Hmz.
    apply Hmz. eapply nth_error_In; eassumption. }
  cbn [bind]. apply IH.
Qed.

End PlaneReturns.

(** X13: a PlaneWise strategy that the factory returned does not fail on
    well-formed tensors, the prediction and the target with the same number
    of feature channels, and a batch that is not empty and has markers along z for every
    sample, provided that the threshold is not 0 where an npixel term is
    enabled and that, along an axis with an enabled plane term, no sample
    has an empty marker set. *)
Theorem planewise_factory_calc_loss_returns (conf : config) (self : t)
  (s_pred s_in s_target : SparseTensor) (data : batch_data) :
  init_loss_func conf = Ok (IsPlaneWise self) ->
  well_formed s_pred -> well_formed s_in -> well_formed s_target ->
  nchannels s_pred = nchannels s_target ->
  mask_x data <> [] ->
  (List.length (mask_x data) <= List.length (mask_z data))%nat ->
  (lambda_loss_x_planes_npixel self <> 0 \/ lambda_loss_z_planes_npixel self <> 0
   -> adc_threshold self <> Some 0) ->
  (lambda_loss_x_planes_adc self <> 0 \/ lambda_loss_x_planes_npixel self <> 0 ->
   Forall (fun g => g <> []) (mask_x data)) ->
  (lambda_loss_z_planes_adc self <> 0 \/ lambda_loss_z_planes_npixel self <> 0 ->
   Forall (fun g => g <> []) (mask_z data)) ->
  exists tot losses,
    calc_loss self s_pred s_in s_target data = Ok (tot, losses).
Proof.
  intros Hfac Hp _ Ht Hch Hne Hz Hthr0 Hmx Hmz.
  assert (Hinit : PlaneWise.__init__ conf = Ok self
                  /\ loss_func conf = "PlaneWise_L1Loss"%string).
  { unfold init_loss_func in Hfac.
    destruct (String.eqb (loss_func conf) "PixelWise_L1Loss"
              || String.eqb (loss_func conf) "PixelWise_MSELoss"
              || String.eqb (loss_func conf) "PixelWise_BCEWithLogitsLoss");
      [destruct (PixelWise.__init__ conf); discriminate|].
    destruct (String.eqb (loss_func conf) "GapWise_L1Loss"
              || String.eqb (loss_func conf) "GapWise_MSELoss"
              || String.eqb (loss_func conf) "GapWise_L1Loss_MSELossPixelWise");
      [destruct (GapWise.__init__ conf); discriminate|].
    destruct (String.eqb_spec (loss_func conf) "PlaneWise_L1Loss") as [E|_].
    - destruct (PlaneWise.__init__ conf) as [self'|e]; [|discriminate].
      cbn [bind] in Hfac. inversion Hfac; subst self'. now split.
    - destruct (String.eqb (loss_func conf) "Chamfer"); discriminate. }
  destruct Hinit as [Hinit Hname].
  pose proof (FactoryFacts.planewise_init_criteria conf Hinit) as Hcs.
  rewrite Hname in Hcs. cbn in Hcs.
  assert (Hthr : forall lam,
            lam = lambda_loss_x_planes_npixel self
            \/ lam = lambda_loss_z_planes_npixel self ->
            lam <> 0 -> exists thr, adc_threshold self = Some thr /\ thr <> 0).
  { intros lam Hlam Hnz.
    assert (Hen : lambda_loss_x_planes_npixel self <> 0
                  \/ lambda_loss_z_planes_npixel self <> 0)
      by (destruct Hlam as [-> | ->]; tauto).
    specialize (Hthr0 Hen).
    unfold PlaneWise.__init__ in Hinit.
    destruct (conf_adc_threshold conf) as [thr|]; cbn [bind] in Hinit;
      [|discriminate].
    destruct (GapWise.is_None _ && _) eqn:Htest; [discriminate|].
    inversion Hinit; subst self; clear Hinit.
    cbn [adc_threshold lambda_loss_x_planes_npixel
         lambda_loss_z_planes_npixel] in *.
    destruct thr as [thr|].
    - exists thr. split; [reflexivity|]. congruence.
    - cbn [GapWise.is_None andb] in Htest. apply orb_false_iff in Htest.
      destruct Htest as [Tx Tz]. apply truthy_false in Tx, Tz. tauto. }
  rewrite planewise_calc_loss_unfold.
  destruct (@planewise_loop_ok self _ s_pred s_target Hcs eq_refl Hp Ht Hch
              Hthr)
    with (sel := _get_infill_coords s_in s_target) (data := data)
         (batch := seq 0 (List.length (mask_x data))) (st0 := no_losses)
    as [ls Hls]; try assumption.
  - apply Forall_forall. intros i Hi. apply in_seq in Hi. lia.
  - rewrite Hls. cbn [bind].
    destruct (@add_terms_ok (List.length (mask_x data))
                (planewise_terms self ls))
      with (st := (0, @nil (string * R))) as [[tot losses] Hst].
    + destruct (mask_x data); [congruence|discriminate].
    + now exists tot, losses.
Qed.

Lemma factory_planewise_sample :
  init_loss_func Examples.planewise_conf
  = Ok (IsPlaneWise Examples.planewise_self).
Proof.
  unfold init_loss_func.
  cbn [Examples.planewise_conf Examples.config_of loss_func].
  cbn [String.eqb Ascii.eqb Bool.eqb orb].
  now rewrite PlaneWiseFacts.planewise_self_constructed.
Qed.

Lemma planewise_factory_calc_loss_returns_witness :
  exists tot losses,
    calc_loss Examples.planewise_self Examples.s_pred Examples.s_in
      Examples.s_target Examples.data = Ok (tot, losses).
Proof.
  apply (@planewise_factory_calc_loss_returns Examples.planewise_conf).
  - exact factory_planewise_sample.
  - split; [cbn; lia|repeat constructor].
  - split; [cbn; lia|repeat constructor].
  - split; [cbn; lia|repeat constructor].
  - reflexivity.
  - discriminate.
  - cbn. lia.
  - intros _ H. inversion H. lra.
  - intros _. repeat constructor. discriminate.
  - intros _. repeat constructor. discriminate.
Defined.

Lemma planewise_calc_loss_breakdown_witness :
  exists tot losses,
    calc_loss Examples.planewise_self Examples.s_pred Examples.s_in
      Examples.s_target Examples.data = Ok (tot, losses)
    /\ NoDup (keys losses)
    /\ tot = PixelWise.weighted_total
               (get_names_scalefactors Examples.planewise_self) losses.
Proof.
  destruct (@planewise_loop_ok Examples.planewise_self _ Examples.s_pred
              Examples.s_target eq_refl eq_refl) with
    (sel := _get_infill_coords Examples.s_in Examples.s_target)
    (data := Examples.data) (batch := seq 0 1) (st0 := no_losses)
    as [ls Hls].
  - split; [cbn; lia|repeat constructor].
  - split; [cbn; lia|repeat constructor].
  - reflexivity.
  - intros lam _ _. exists 1. split; [reflexivity|lra].
  - intros _. repeat constructor. discriminate.
  - intros _. repeat constructor. discriminate.
  - repeat constructor.
  - destruct (@add_terms_ok 1 (planewise_terms Examples.planewise_self ls))
      with (st := (0, @nil (string * R))) as [[tot losses] Hst];
      [discriminate|].
    assert (Hrun : calc_loss Examples.planewise_self Examples.s_pred
                     Examples.s_in Examples.s_target Examples.data
                   = Ok (tot, losses)).
    { rewrite planewise_calc_loss_unfold.
      change (List.length (mask_x Examples.data)) with 1%nat.
      rewrite Hls. exact Hst. }
    exists tot, losses. split; [exact Hrun|].
    pose proof (planewise_calc_loss_breakdown _ _ _ _ _ Hrun)
      as (Hnd & _ & Htot & _).
    split; [exact Hnd|exact Htot].
Defined.

End PlaneWiseCalcLoss.

(** ** The configuration parser *)

Module ConfigParserFacts.

Import ConfigParser.
Open Scope string_scope.

Section Dictionaries.

Variable obj : Type.

Lemma get_set_same (d : dict obj) (k : string) (v : value obj) :
  get_item (set_item d k v) k = Some v.
Proof.
  induction d as [|[k' w] d IH]; cbn [set_item get_item].
  - now rewrite String.eqb_refl.
  - destruct (String.eqb k' k) eqn:E; cbn [get_item]; now rewrite E.
Qed.

Lemma get_set_other (d : dict obj) (k k' : string) (v : value obj) :
  k <> k' -> get_item (set_item d k v) k' = get_item d k'.
Proof.
  intros Hne. induction d as [|[k0 w] d IH]; cbn [set_item get_item].
  - destruct (String.eqb_spec k k'); [contradiction|reflexivity].
  - destruct (String.eqb_spec k0 k) as [->|Hk0]; cbn [get_item].
    + destruct (String.eqb_spec k k'); [contradiction|reflexivity].
    + now rewrite IH.
Qed.

Lemma get_removed_same (d : dict obj) (k : string) :
  get_item (filter (fun kv => negb (String.eqb (fst kv) k)) d) k = None.
Proof.
  induction d as [|[k0 w] d IH]; [reflexivity|]. cbn [filter fst].
  destruct (String.eqb k0 k) eqn:E; cbn [negb get_item]; [exact IH|].
  now rewrite E.
Qed.

Lemma get_removed_other (d : dict obj) (k k' : string) :
  k <> k' ->
  get_item (filter (fun kv => negb (String.eqb (fst kv) k)) d) k'
  = get_item d k'.
Proof.
  intros Hne. induction d as [|[k0 w] d IH]; [reflexivity|]. cbn [filter fst].
  destruct (String.eqb_spec k0 k) as [->|Hk0]; cbn [negb get_item].
  - destruct (String.eqb_spec k k'); [contradiction|exact IH].
  - now rewrite IH.
Qed.

Lemma get_item_absent (d : dict obj) (k : string) :
  ~ In k (map fst d) -> get_item d k = None.
Proof.
  induction d as [|[k0 w] d IH]; intros Habs; [reflexivity|].
  cbn [get_item]. cbn [map fst In] in Habs.
  destruct (String.eqb_spec k0 k); [tauto|]. apply IH. tauto.
Qed.

(** The dictionary after the overrides: an overridden field has the value of
    the override, any other its value in the file. *)
Lemma get_overridden (overwrite_dict : dict obj) :
  NoDup (map fst overwrite_dict) ->
  forall (d : dict obj) (k : string),
    get_item (fold_left (fun d kv => set_item d (fst kv) (snd kv))
                overwrite_dict d) k
    = match get_item overwrite_dict k with
      | Some v => Some v
      | None => get_item d k
      end.
Proof.
  induction overwrite_dict as [|[k0 v0] t IH]; intros Hnd d k; [reflexivity|].
  cbn [map fst] in Hnd. inversion Hnd as [|? ? Hfresh Hnd']; subst.
  cbn [fold_left fst snd get_item]. rewrite (IH Hnd').
  destruct (String.eqb_spec k0 k) as [->|Hne].
  - rewrite (get_item_absent _ _ Hfresh). apply get_set_same.
  - now rewrite get_set_other.
Qed.

Lemma has_key_overridden (overwrite_dict : dict obj) :
  forall (d : dict obj) (k : string),
    has_key (fold_left (fun d kv => set_item d (fst kv) (snd kv))
               overwrite_dict d) k
    = has_key overwrite_dict k || has_key d k.
Proof.
  unfold has_key.
  induction overwrite_dict as [|[k0 v0] t IH]; intros d k; [reflexivity|].
  cbn [fold_left fst snd get_item]. rewrite IH.
  destruct (String.eqb_spec k0 k) as [->|Hne].
  - rewrite get_set_same. now destruct (get_item t k).
  - now rewrite get_set_other.
Qed.

(** The dictionary after the defaults: a default fills a field only where
    the field is absent. *)
Lemma get_defaulted (defs : dict obj) :
  NoDup (map fst defs) ->
  forall (d : dict obj) (k : string),
    get_item (fold_left (fun d kv => if has_key d (fst kv) then d
                                     else set_item d (fst kv) (snd kv))
                defs d) k
    = match get_item d k with
      | Some v => Some v
      | None => get_item defs k
      end.
Proof.
  induction defs as [|[k0 v0] t IH]; intros Hnd d k.
  - cbn. now destruct (get_item d k).
  - cbn [map fst] in Hnd. inversion Hnd as [|? ? Hfresh Hnd']; subst.
    cbn [fold_left fst snd get_item]. rewrite (IH Hnd'). unfold has_key.
    destruct (get_item d k0) as [w0|] eqn:E0;
      destruct (String.eqb_spec k0 k) as [Heq|Hne]; try subst k;
      rewrite ?E0, ?get_set_same, ?get_set_other by assumption;
      try reflexivity.
Qed.

Lemma defaults_NoDup : NoDup (map fst (@defaults obj)).
Proof.
  cbn. repeat constructor; cbn [In]; intuition discriminate.
Qed.

Lemma delete_Return (d d' : dict obj) (k : string) :
  delete d k = Return d' ->
  d' = filter (fun kv => negb (String.eqb (fst kv) k)) d.
Proof. unfold delete. destruct (has_key d k); intros H; now inversion H. Qed.

Lemma lookup_present (d : dict obj) (k : string) (v : value obj) :
  get_item d k = Some v -> lookup d k = Return v.
Proof. unfold lookup. now intros ->. Qed.

Lemma delete_present (d : dict obj) (k : string) (v : value obj) :
  get_item d k = Some v ->
  delete d k = Return (filter (fun kv => negb (String.eqb (fst kv) k)) d).
Proof. unfold delete, has_key. now intros ->. Qed.

Lemma lookup_Return (d : dict obj) (k : string) (v : value obj) :
  lookup d k = Return v -> get_item d k = Some v.
Proof.
  unfold lookup. destruct (get_item d k); intros H; now inversion H.
Qed.

End Dictionaries.

Section Parser.

Variable obj : Type.
Variable set_detector_properties : value obj -> value obj -> outcome obj.
Variable get_geom_map : value obj -> outcome obj.
Variable load_vmap : value obj -> outcome obj.
Variable prep_checkpoint : value obj -> value obj -> string -> outcome unit.
Variable py_format : value obj -> string.
Variable field_names_error : list string -> option string.
Variable set_order : list string -> list string.

Let run :=
  get_config set_detector_properties get_geom_map load_vmap prep_checkpoint
    py_format field_names_error set_order.

Let merged (file_dict overwrite_dict : dict obj) : dict obj :=
  fold_left (fun d kv => set_item d (fst kv) (snd kv)) overwrite_dict file_dict.

Let filled (file_dict overwrite_dict : dict obj) : dict obj :=
  fold_left (fun d kv => if has_key d (fst kv) then d
                         else set_item d (fst kv) (snd kv))
    (@defaults obj) (merged file_dict overwrite_dict).

Let without (k : string) (d : dict obj) : dict obj :=
  filter (fun kv => negb (String.eqb (fst kv) k)) d.

Ltac step H :=
  match type of H with
  | and_then ?m _ = _ =>
      let E := fresh "Estep" in
      destruct m eqn:E; cbn [and_then] in H
  end.

(** The dictionary of a call that returned, operation by operation. *)
Lemma get_config_Return (config_file : string)
  (file_dict overwrite_dict : dict obj) (prep_checkpoint_dir : bool)
  (d : dict obj) :
  run config_file file_dict overwrite_dict prep_checkpoint_dir = Return d ->
  (forall f, In f mandatory_fields ->
             has_key (merged file_dict overwrite_dict) f = true)
  /\ field_names_error (map fst d) = None
  /\ exists det geo vm p,
       d = set_item
             (without "vmap_path"
                (set_item
                   (without "pixel_layout"
                      (without "det_props"
                         (set_item
                            (set_item (filled file_dict overwrite_dict)
                               "detector" (Obj det))
                            "geometry" (Obj geo))))
                   "vmap" (Obj vm)))
             "data_prep_type" (Prep p).
Proof.
  unfold run, get_config. fold (merged file_dict overwrite_dict).
  destruct (filter _ mandatory_fields) as [|f0 fs] eqn:Hmiss; [|discriminate].
  fold (filled file_dict overwrite_dict). intros H.
  split.
  { intros f Hf. destruct (has_key (merged file_dict overwrite_dict) f) eqn:E;
      [reflexivity|].
    assert (Hin : In f (filter (fun f => negb (has_key
                     (merged file_dict overwrite_dict) f)) mandatory_fields)).
    { apply filter_In. split; [exact Hf|now rewrite E]. }
    rewrite Hmiss in Hin. destruct Hin. }
  repeat (step H; [|discriminate]).
  repeat match goal with
    | E : delete _ _ = Return _ |- _ => apply delete_Return in E
    | E : match prep_type_of ?v with _ => _ end = Return _ |- _ =>
        destruct (prep_type_of v); [|discriminate E];
        injection E as E
    end.
  destruct (field_names_error _) eqn:Hnames; [discriminate|].
  injection H as H. subst. split; [exact Hnames|].
  do 4 eexists. reflexivity.
Qed.

Ltac dict_get :=
  unfold without;
  repeat first
    [ rewrite get_set_same
    | rewrite get_set_other by (discriminate || congruence)
    | rewrite get_removed_same
    | rewrite get_removed_other by (discriminate || congruence) ].

(** X14: a mandatory field that neither the file nor the overrides hold
    makes [get_config] raise its ValueError before any collaborator is
    called and whatever else the file holds; the message names every
    missing field once, in the order in which the set of the missing fields
    is printed, whichever that is. *)
Theorem get_config_missing_mandatory_field (config_file : string)
  (file_dict overwrite_dict : dict obj) (prep_checkpoint_dir : bool) :
  let missing :=
    filter (fun f => negb (has_key overwrite_dict f || has_key file_dict f))
      mandatory_fields in
  missing <> [] ->
  Permutation (set_order missing) missing ->
  exists names,
    Permutation names missing
    /\ run config_file file_dict overwrite_dict prep_checkpoint_dir
       = Throw (Value_Error (missing_msg names config_file)).
Proof.
  intros missing Hmiss Hperm. exists (set_order missing).
  split; [exact Hperm|]. unfold run, get_config.
  replace (filter _ mandatory_fields) with missing.
  - destruct missing; [congruence|reflexivity].
  - unfold missing. apply filter_ext. intros f.
    now rewrite has_key_overridden.
Qed.

(** X15: the configuration [get_config] returns holds every mandatory field
    but [vmap_path], the two defaulted fields [device] and
    [max_num_workers], and the detector, geometry and voxel map that the
    collaborators built; it never holds [det_props], [pixel_layout] or
    [vmap_path]; its [data_prep_type] is a member of the enumeration; and
    its field names passed the namedtuple check. *)
Theorem get_config_fields (config_file : string)
  (file_dict overwrite_dict : dict obj) (prep_checkpoint_dir : bool)
  (d : dict obj) :
  run config_file file_dict overwrite_dict prep_checkpoint_dir = Return d ->
  (forall f, In f mandatory_fields -> f <> "vmap_path" -> has_key d f = true)
  /\ has_key d "device" = true
  /\ has_key d "max_num_workers" = true
  /\ (exists det geo vm p,
        get_item d "detector" = Some (Obj det)
        /\ get_item d "geometry" = Some (Obj geo)
        /\ get_item d "vmap" = Some (Obj vm)
        /\ get_item d "data_prep_type" = Some (Prep p))
  /\ get_item d "det_props" = None
  /\ get_item d "pixel_layout" = None
  /\ get_item d "vmap_path" = None
  /\ field_names_error (map fst d) = None.
Proof.
  intros Hrun. apply get_config_Return in Hrun.
  destruct Hrun as (Hmand & Hnames & det & geo & vm & p & ->).
  assert (Hfilled : forall k,
            get_item (filled file_dict overwrite_dict) k
            = match get_item (merged file_dict overwrite_dict) k with
              | Some v => Some v
              | None => get_item (@defaults obj) k
              end).
  { intros k. unfold filled. apply get_defaulted, defaults_NoDup. }
  split; [|split; [|split; [|split; [|split; [|split; [|split]]]]]].
  - intros f Hf Hvp. specialize (Hmand f Hf). unfold has_key in *.
    cbn [mandatory_fields In] in Hf.
    repeat (destruct Hf as [<-|Hf];
            [first [congruence
                   | dict_get; try rewrite Hfilled;
                     destruct (get_item (merged file_dict overwrite_dict) _);
                     [reflexivity|discriminate]]|]).
    destruct Hf.
  - unfold has_key. dict_get. rewrite Hfilled.
    now destruct (get_item (merged file_dict overwrite_dict) _).
  - unfold has_key. dict_get. rewrite Hfilled.
    now destruct (get_item (merged file_dict overwrite_dict) _).
  - exists det, geo, vm, p. repeat split; now dict_get.
  - now dict_get.
  - now dict_get.
  - now dict_get.
  - exact Hnames.
Qed.

(** X16: on every field that [get_config] does not write or remove itself,
    the value of the override wins over the value of the file, which wins
    over the default; a field that none of the three holds is absent from
    the configuration. *)
Theorem get_config_precedence (config_file : string)
  (file_dict overwrite_dict : dict obj) (prep_checkpoint_dir : bool)
  (d : dict obj) (k : string) :
  run config_file file_dict overwrite_dict prep_checkpoint_dir = Return d ->
  NoDup (map fst overwrite_dict) ->
  ~ In k rewritten_fields ->
  get_item d k
  = match get_item overwrite_dict k with
    | Some v => Some v
    | None =>
        match get_item file_dict k with
        | Some v => Some v
        | None => get_item (@defaults obj) k
        end
    end.
Proof.
  intros Hrun Hnd Hk. apply get_config_Return in Hrun.
  destruct Hrun as (_ & _ & det & geo & vm & p & ->).
  cbn [rewritten_fields In] in Hk.
  assert (N1 : "det_props" <> k) by tauto.
  assert (N2 : "pixel_layout" <> k) by tauto.
  assert (N3 : "vmap_path" <> k) by tauto.
  assert (N4 : "detector" <> k) by tauto.
  assert (N5 : "geometry" <> k) by tauto.
  assert (N6 : "vmap" <> k) by tauto.
  assert (N7 : "data_prep_type" <> k) by tauto.
  dict_get. unfold filled. rewrite get_defaulted by apply defaults_NoDup.
  unfold merged. rewrite get_overridden by exact Hnd.
  now destruct (get_item overwrite_dict k).
Qed.

Lemma filled_default (file_dict overwrite_dict : dict obj) (k : string)
  (v : value obj) :
  get_item (@defaults obj) k = Some v ->
  exists w, get_item (filled file_dict overwrite_dict) k = Some w.
Proof.
  intros Hdef. unfold filled. rewrite get_defaulted by apply defaults_NoDup.
  rewrite Hdef. destruct (get_item (merged file_dict overwrite_dict) k);
    eexists; reflexivity.
Qed.

Lemma filled_mandatory (file_dict overwrite_dict : dict obj) (k : string) :
  has_key (merged file_dict overwrite_dict) k = true ->
  exists w, get_item (filled file_dict overwrite_dict) k = Some w.
Proof.
  unfold has_key, filled. rewrite get_defaulted by apply defaults_NoDup.
  destruct (get_item (merged file_dict overwrite_dict) k);
    [eexists; reflexivity|discriminate].
Qed.

Ltac look H :=
  erewrite lookup_present in H by (dict_get; eassumption);
  cbn [and_then] in H.

Ltac del H :=
  erewrite delete_present in H by (dict_get; eassumption);
  cbn [and_then] in H.

Ltac call H :=
  match type of H with
  | and_then ?m _ = _ =>
      let E := fresh "Ecall" in
      destruct m eqn:E; cbn [and_then] in H;
      [|injection H as <-; eauto 8]
  end.

(** X17: once the file is read, [get_config] fails in two ways only: with a
    ValueError (a missing mandatory field, an unknown [data_prep_type], a
    key that cannot be a field name), or with what a collaborator raised.
    None of its dictionary accesses raises KeyError: every field it reads or
    deletes is mandatory or has a default. *)
Theorem get_config_failures (config_file : string)
  (file_dict overwrite_dict : dict obj) (prep_checkpoint_dir : bool)
  (e : error) :
  run config_file file_dict overwrite_dict prep_checkpoint_dir = Throw e ->
  (exists msg, e = Value_Error msg)
  \/ (exists a b, set_detector_properties a b = Throw e)
  \/ (exists a, get_geom_map a = Throw e)
  \/ (exists a, load_vmap a = Throw e)
  \/ (exists a b, prep_checkpoint a b config_file = Throw e).
Proof.
  unfold run, get_config. fold (merged file_dict overwrite_dict).
  destruct (filter _ mandatory_fields) as [|f0 fs] eqn:Hmiss;
    [|intros H; injection H as <-; eauto].
  fold (filled file_dict overwrite_dict). intros H.
  assert (Hmand : forall f, In f mandatory_fields ->
            exists w, get_item (filled file_dict overwrite_dict) f = Some w).
  { intros f Hf. apply filled_mandatory.
    destruct (has_key (merged file_dict overwrite_dict) f) eqn:E;
      [reflexivity|].
    assert (Hin : In f (filter (fun f => negb (has_key
                     (merged file_dict overwrite_dict) f)) mandatory_fields)).
    { apply filter_In. split; [exact Hf|now rewrite E]. }
    rewrite Hmiss in Hin. destruct Hin. }
  destruct (@filled_default file_dict overwrite_dict "det_props" _ eq_refl)
    as [dp Hdp].
  destruct (@filled_default file_dict overwrite_dict "pixel_layout" _ eq_refl)
    as [pl Hpl].
  destruct (Hmand "vmap_path") as [vp Hvp]; [cbn; tauto|].
  destruct (Hmand "data_prep_type") as [pt Hpt]; [cbn; tauto|].
  destruct (Hmand "checkpoints_dir") as [cd Hcd]; [cbn; tauto|].
  destruct (Hmand "name") as [nm Hnm]; [cbn; tauto|].
  look H. look H. call H. look H. call H. del H. del H. look H. call H.
  del H. look H.
  destruct (prep_type_of pt); cbn [and_then] in H;
    [|injection H as <-; eauto].
  destruct prep_checkpoint_dir.
  - look H. look H. call H.
    destruct (field_names_error _); [injection H as <-; eauto|discriminate].
  - cbn [and_then] in H.
    destruct (field_names_error _); [injection H as <-; eauto|discriminate].
Qed.

Lemma to_config_threshold (d : dict obj) (conf : config) :
  to_config d = Some conf ->
  threshold_field d = Some (conf_adc_threshold conf)
  /\ get_item d "loss_func" = Some (Str (loss_func conf)).
Proof.
  unfold to_config. intros H.
  destruct (get_item d "loss_func") as [[name| | | |]|]; try discriminate.
  unfold opt_bind in H.
  destruct (threshold_field d) as [thr|]; [|discriminate].
  repeat match type of H with
    | match weight_field ?d ?k with _ => _ end = _ =>
        destruct (weight_field d k); [|discriminate H]
    end.
  injection H as <-. split; reflexivity.
Qed.

(** X18: [adc_threshold] is neither mandatory nor defaulted: when
    [get_config] returns on a file and overrides without it, the
    configuration has no such field, and constructing a GapWise or a
    PlaneWise strategy from it fails on the missing attribute, whatever the
    weights. *)
Theorem get_config_leaves_threshold_unset (config_file : string)
  (file_dict overwrite_dict : dict obj) (prep_checkpoint_dir : bool)
  (d : dict obj) (conf : config) :
  run config_file file_dict overwrite_dict prep_checkpoint_dir = Return d ->
  NoDup (map fst overwrite_dict) ->
  get_item file_dict "adc_threshold" = None ->
  get_item overwrite_dict "adc_threshold" = None ->
  to_config d = Some conf ->
  get_item d "adc_threshold" = None
  /\ GapWise.__init__ conf = Raise AttributeError
  /\ PlaneWise.__init__ conf = Raise AttributeError.
Proof.
  intros Hrun Hnd Hfile Hover Hconf. apply get_config_Return in Hrun.
  destruct Hrun as (_ & _ & det & geo & vm & p & ->).
  assert (Habs : get_item
            (set_item
               (without "vmap_path"
                  (set_item
                     (without "pixel_layout"
                        (without "det_props"
                           (set_item
                              (set_item (filled file_dict overwrite_dict)
                                 "detector" (Obj det))
                              "geometry" (Obj geo))))
                     "vmap" (Obj vm)))
               "data_prep_type" (Prep p)) "adc_threshold" = None).
  { dict_get. unfold filled. rewrite get_defaulted by apply defaults_NoDup.
    unfold merged. rewrite get_overridden by exact Hnd.
    now rewrite Hover, Hfile. }
  split; [exact Habs|].
  apply to_config_threshold in Hconf. destruct Hconf as [Hthr _].
  unfold threshold_field in Hthr. rewrite Habs in Hthr.
  injection Hthr as Hthr.
  pose proof (ConstructionFacts.gapwise_init_threshold conf) as Hg.
  pose proof (ConstructionFacts.planewise_init_threshold conf) as Hp.
  rewrite <- Hthr in Hg, Hp. now split.
Qed.

End Parser.

(** An instance: the sample file cut before [checkpoints_dir] and [name],
    which the overrides do not supply, with a set order that prints the
    later name first. *)
Lemma get_config_missing_mandatory_field_witness :
  exists names,
    Permutation names ["checkpoints_dir"; "name"]%string
    /\ ParserExamples.get_config_ok "conf.yml"
         (firstn 16 ParserExamples.file_dict) ParserExamples.overwrite_dict
         true
       = Throw (Value_Error (missing_msg names "conf.yml")).
Proof.
  apply (@get_config_missing_mandatory_field unit (fun _ _ => Return tt)
           (fun _ => Return tt) (fun _ => Return tt) (fun _ _ _ => Return tt)
           (fun _ => "?"%string) (fun _ => None) (@rev string) "conf.yml"
           (firstn 16 ParserExamples.file_dict) ParserExamples.overwrite_dict
           true).
  - discriminate.
  - symmetry. apply Permutation_rev.
Defined.

Lemma sample_get_config_returns :
  exists d,
    ParserExamples.get_config_ok "conf.yml" ParserExamples.file_dict
      ParserExamples.overwrite_dict true = Return d.
Proof. eexists. reflexivity. Qed.

Lemma overwrite_dict_NoDup : NoDup (map fst ParserExamples.overwrite_dict).
Proof. cbn. repeat constructor; cbn [In]; intuition discriminate. Qed.

Lemma get_config_fields_witness :
  exists d,
    ParserExamples.get_config_ok "conf.yml" ParserExamples.file_dict
      ParserExamples.overwrite_dict true = Return d
    /\ get_item d "vmap_path" = None
    /\ has_key d "max_num_workers" = true.
Proof.
  destruct sample_get_config_returns as [d Hd]. exists d.
  split; [exact Hd|].
  pose proof (get_config_fields _ _ _ _ _ _ _ _ _ _ _ Hd) as H.
  split; [apply H|apply H].
Defined.

Lemma get_config_precedence_witness :
  exists d,
    ParserExamples.get_config_ok "conf.yml" ParserExamples.file_dict
      ParserExamples.overwrite_dict true = Return d
    /\ get_item d "device" = Some (Str "cpu")
    /\ get_item d "name" = Some (Str "run")
    /\ get_item d "adc_threshold" = None.
Proof.
  destruct sample_get_config_returns as [d Hd]. exists d.
  split; [exact Hd|].
  repeat split.
  - rewrite (get_config_precedence _ _ _ _ _ _ _ _ _ _ _ (k := "device") Hd
               overwrite_dict_NoDup); [reflexivity|].
    cbn. intuition discriminate.
  - rewrite (get_config_precedence _ _ _ _ _ _ _ _ _ _ _ (k := "name") Hd
               overwrite_dict_NoDup); [reflexivity|].
    cbn. intuition discriminate.
  - rewrite (get_config_precedence _ _ _ _ _ _ _ _ _ _ _ (k := "adc_threshold")
               Hd overwrite_dict_NoDup); [reflexivity|].
    cbn. intuition discriminate.
Defined.

Lemma get_config_failures_witness :
  (exists msg, Collaborator_Error "FileNotFoundError" = Value_Error msg)
  \/ (exists a b : value unit,
        (fun _ _ => Return tt) a b
        = Throw (Collaborator_Error "FileNotFoundError"))
  \/ (exists a : value unit,
        (fun _ => Return tt) a = Throw (Collaborator_Error "FileNotFoundError"))
  \/ (exists a : value unit,
        (fun _ => @Throw unit (Collaborator_Error "FileNotFoundError")) a
        = Throw (Collaborator_Error "FileNotFoundError"))
  \/ (exists a b : value unit,
        (fun _ _ _ => Return tt) a b "conf.yml"
        = Throw (Collaborator_Error "FileNotFoundError")).
Proof.
  apply (@get_config_failures unit (fun _ _ => Return tt) (fun _ => Return tt)
           (fun _ => Throw (Collaborator_Error "FileNotFoundError"))
           (fun _ _ _ => Return tt) (fun _ => "?") (fun _ => None)
           (@rev string)
           "conf.yml" ParserExamples.file_dict ParserExamples.overwrite_dict
           true).
  reflexivity.
Defined.

Lemma get_config_leaves_threshold_unset_witness :
  exists d conf,
    ParserExamples.get_config_ok "conf.yml" ParserExamples.file_dict
      ParserExamples.overwrite_dict true = Return d
    /\ to_config d = Some conf
    /\ GapWise.__init__ conf = Raise AttributeError.
Proof.
  destruct sample_get_config_returns as [d Hd].
  assert (Hconf : exists conf, to_config d = Some conf).
  { unfold ParserExamples.get_config_ok in Hd.
    cbv [get_config] in Hd. cbn in Hd. injection Hd as <-.
    eexists. cbn. reflexivity. }
  destruct Hconf as [conf Hconf]. exists d, conf.
  split; [exact Hd|]. split; [exact Hconf|].
  apply (get_config_leaves_threshold_unset _ _ _ _ _ _ _ _ _ _ _ Hd
           overwrite_dict_NoDup eq_refl eq_refl Hconf).
Defined.

End ConfigParserFacts.
